(** * graph/cytoscape: conversion of a traffic map to the CytoscapeJS document

    A shallow embedding of [graph/cytoscape/cytoscape.go] and the
    properties its specification states about it.

    Conventions of the embedding:
    - Go [string] is [string]; [<] on strings is the bytewise
      lexicographic order ([String.ltb]).
    - Go [float64] is the kernel's binary64 ([PrimFloat.float]).
    - Go [map[string]T] is [gmap string T]; a [range] loop over a map
      visits its entries in an order the runtime picks, modelled by a
      [MapRange] value (any permutation of the entries).
    - [*graph.Node] is a location in a heap of nodes; a panic (failed type
      assertion, nil dereference) is the [Panic] result.
    - the [nodes] slice of [*NodeWrapper] is a list of [NodeData] that is
      also the arena the grouping pass updates by index. *)

From Stdlib Require Import ZArith Floats Ascii String List Lia Bool Btauto
  DecimalString.
From Stdlib Require Import Sorting.Sorted Sorting.Permutation.
From stdpp Require Import base option list strings gmap fin_maps sorting.

Local Open Scope string_scope.
Local Open Scope Z_scope.
Local Open Scope list_scope.

(** ** crypto/md5 and the [%x] verb *)

Module md5.

Definition mask32 (x : Z) : Z := Z.land x 4294967295.

Definition rotl32 (x : Z) (c : Z) : Z :=
  mask32 (Z.lor (Z.shiftl x c) (Z.shiftr x (32 - c))).

Definition not32 (x : Z) : Z := Z.lxor x 4294967295.

(** per-round shift amounts *)
Definition shifts : list Z :=
  [ 7; 12; 17; 22; 7; 12; 17; 22; 7; 12; 17; 22; 7; 12; 17; 22;
    5; 9; 14; 20; 5; 9; 14; 20; 5; 9; 14; 20; 5; 9; 14; 20;
    4; 11; 16; 23; 4; 11; 16; 23; 4; 11; 16; 23; 4; 11; 16; 23;
    6; 10; 15; 21; 6; 10; 15; 21; 6; 10; 15; 21; 6; 10; 15; 21 ].

(** [floor (2^32 * abs (sin (i + 1)))] *)
Definition sines : list Z :=
  [ 3614090360; 3905402710; 606105819; 3250441966; 4118548399; 1200080426;
    2821735955; 4249261313; 1770035416; 2336552879; 4294925233; 2304563134;
    1804603682; 4254626195; 2792965006; 1236535329; 4129170786; 3225465664;
    643717713; 3921069994; 3593408605; 38016083; 3634488961; 3889429448;
    568446438; 3275163606; 4107603335; 1163531501; 2850285829; 4243563512;
    1735328473; 2368359562; 4294588738; 2272392833; 1839030562; 4259657740;
    2763975236; 1272893353; 4139469664; 3200236656; 681279174; 3936430074;
    3572445317; 76029189; 3654602809; 3873151461; 530742520; 3299628645;
    4096336452; 1126891415; 2878612391; 4237533241; 1700485571; 2399980690;
    4293915773; 2240044497; 1873313359; 4264355552; 2734768916; 1309151649;
    4149444226; 3174756917; 718787259; 3951481745 ].

Definition nthZ (l : list Z) (i : Z) : Z := nth (Z.to_nat i) l 0.

Record digest := Digest { dA : Z; dB : Z; dC : Z; dD : Z }.

Definition init : digest :=
  Digest 1732584193 4023233417 2562383102 271733878.

(** little-endian 32-bit words of a byte sequence *)
Fixpoint words (bs : list Z) : list Z :=
  match bs with
  | b0 :: b1 :: b2 :: b3 :: rest =>
      (b0 + Z.shiftl b1 8 + Z.shiftl b2 16 + Z.shiftl b3 24) :: words rest
  | _ => []
  end.

Definition step (M : list Z) (st : digest) (i : Z) : digest :=
  let '(Digest a b c d) := st in
  let '(f, g) :=
    if i <? 16 then (Z.lor (Z.land b c) (Z.land (not32 b) d), i)
    else if i <? 32 then
      (Z.lor (Z.land d b) (Z.land (not32 d) c), (5 * i + 1) mod 16)
    else if i <? 48 then (Z.lxor b (Z.lxor c d), (3 * i + 5) mod 16)
    else (Z.lxor c (Z.lor b (not32 d)), (7 * i) mod 16) in
  let f' := mask32 (f + a + nthZ sines i + nthZ M g) in
  Digest d (mask32 (b + rotl32 f' (nthZ shifts i))) b c.

Definition rounds : list Z := map Z.of_nat (seq 0 64).

Definition block (st : digest) (M : list Z) : digest :=
  let '(Digest a b c d) := fold_left (step M) rounds st in
  Digest (mask32 (dA st + a)) (mask32 (dB st + b))
         (mask32 (dC st + c)) (mask32 (dD st + d)).

Fixpoint chunks (fuel : nat) (ws : list Z) : list (list Z) :=
  match fuel with
  | O => []
  | S fuel' =>
      match ws with
      | [] => []
      | _ => firstn 16 ws :: chunks fuel' (skipn 16 ws)
      end
  end.

Definition le_bytes (n : nat) (x : Z) : list Z :=
  map (fun i => Z.land (Z.shiftr x (8 * Z.of_nat i)) 255) (seq 0 n).

(** the message, a [0x80] byte, zeros up to 56 modulo 64, and the length
    in bits as 8 little-endian bytes *)
Definition pad (msg : list Z) : list Z :=
  let len := Z.of_nat (length msg) in
  let zeros := Z.to_nat ((55 - len) mod 64) in
  msg ++ [128] ++ repeat 0 zeros ++ le_bytes 8 (8 * len).

Definition sum (msg : list Z) : list Z :=
  let ws := words (pad msg) in
  let '(Digest a b c d) := fold_left block (chunks (length ws) ws) init in
  le_bytes 4 a ++ le_bytes 4 b ++ le_bytes 4 c ++ le_bytes 4 d.

Definition hex_digit (n : Z) : ascii :=
  nth (Z.to_nat n) (list_ascii_of_string "0123456789abcdef") "0"%char.

(** [fmt.Sprintf("%x", sum)] over a byte array: two lowercase hex digits
    per byte *)
Fixpoint hex (bs : list Z) : string :=
  match bs with
  | [] => ""
  | b :: rest =>
      String (hex_digit (Z.shiftr b 4)) (String (hex_digit (Z.land b 15)) (hex rest))
  end.

Definition bytes_of_string (s : string) : list Z :=
  map (fun c => Z.of_N (N_of_ascii c)) (list_ascii_of_string s).

Definition sum_hex (s : string) : string := hex (sum (bytes_of_string s)).

End md5.

(** ** float64 and the [%.Nf] verb *)

Module fmt.

(** [strconv]: the decimal digits of a non-negative integer *)
Definition digits (n : Z) : string :=
  NilZero.string_of_uint (N.to_uint (Z.to_N n)).

Definition digit (n : Z) : ascii :=
  nth (Z.to_nat n) (list_ascii_of_string "0123456789") "0"%char.

(** the last [p] decimal digits of [r], zero padded *)
Fixpoint frac (p : nat) (r : Z) : string :=
  match p with
  | O => ""
  | S p' => frac p' (r / 10) +:+ String (digit (r mod 10)) ""
  end.

(** [n] read as a fixed-point number with [p] decimals *)
Definition fixed (p : nat) (n : Z) : string :=
  let scale := 10 ^ Z.of_nat p in
  match p with
  | O => digits n
  | S _ => digits (n / scale) +:+ "." +:+ frac p (n mod scale)
  end.

(** nearest integer to [num / den], ties to even ([den > 0]) *)
Definition round_half_even (num den : Z) : Z :=
  let q := num / den in
  let r := num mod den in
  match 2 * r ?= den with
  | Lt => q
  | Gt => q + 1
  | Eq => if Z.even q then q else q + 1
  end.

(** [m * 2^e * 10^p] rounded to an integer *)
Definition scaled (p : nat) (m : positive) (e : Z) : Z :=
  let num := Z.pos m * 10 ^ Z.of_nat p in
  if 0 <=? e then num * 2 ^ e else round_half_even num (2 ^ (- e)).

Definition sign (s : bool) : string := if s then "-" else "".

(** [fmt.Sprintf("%.<p>f", x)] *)
Definition Sprintf_f (p : nat) (x : float) : string :=
  match Prim2SF x with
  | S754_nan => "NaN"
  | S754_infinity false => "+Inf"
  | S754_infinity true => "-Inf"
  | S754_zero s => sign s +:+ fixed p 0
  | S754_finite s m e => sign s +:+ fixed p (scaled p m e)
  end.

(** [fmt.Sprintf("box_%s_%s", ns, app)] *)
Definition Sprintf_box (ns app : string) : string :=
  "box_" +:+ ns +:+ "_" +:+ app.

(** [fmt.Sprintf("%s.%s.%s", a, b, c)] *)
Definition Sprintf_dots (a b c : string) : string :=
  a +:+ "." +:+ b +:+ "." +:+ c.

End fmt.

(** ** Results of code that can panic *)

Inductive outcome (A : Type) : Type :=
| Return (a : A)
| Panic.
Arguments Return {A} a.
Arguments Panic {A}.

#[global] Instance outcome_ret : MRet outcome := @Return.
#[global] Instance outcome_bind : MBind outcome := fun A B f m =>
  match m with
  | Return a => f a
  | Panic => Panic
  end.

(** ** Dynamically typed metadata values ([interface{}]) *)

Inductive value : Type :=
| VNil
| VFloat64 (f : float)
| VBool (b : bool)
| VString (s : string)
| VMapStringBool (m : gmap string bool)
| VInt (n : Z).

(** the type assertions [v.(float64)], [v.(bool)], [v.(string)] and
    [v.(map[string]bool)]: each panics on any other dynamic type *)
Definition assert_float64 (v : value) : outcome float :=
  match v with VFloat64 f => Return f | _ => Panic end.
Definition assert_bool (v : value) : outcome bool :=
  match v with VBool b => Return b | _ => Panic end.
Definition assert_string (v : value) : outcome string :=
  match v with VString s => Return s | _ => Panic end.
Definition assert_map_string_bool (v : value) : outcome (gmap string bool) :=
  match v with VMapStringBool m => Return m | _ => Panic end.

(** ** Package [graph]: the traffic map *)

Module graph.

(** a [*Node] *)
Definition loc := nat.

Module Edge.
Record t := mk {
  Source : loc;
  Dest : loc;
  Metadata : gmap string value
}.
End Edge.

Module Node.
Record t := mk {
  ID : string;
  NodeType : string;
  Namespace : string;
  Workload : string;
  App : string;
  Version : string;
  Service : string;
  Edges : list Edge.t;
  Metadata : gmap string value
}.
End Node.

(** the nodes a [*Node] can point to; a location outside the heap is a
    nil pointer *)
Definition Heap := gmap loc Node.t.

(** [type TrafficMap map[string]*Node] *)
Definition TrafficMap := gmap string loc.

(** Modelled from the spec: the constants of package [graph] are declared
    outside the files at hand; the spec names the node types App,
    Service and Workload and the graph types by what they show. *)
Definition GraphTypeApp : string := "app".
Definition GraphTypeService : string := "service".
Definition GraphTypeVersionedApp : string := "versionedApp".
Definition GraphTypeWorkload : string := "workload".
Definition NodeTypeApp : string := "app".
Definition NodeTypeService : string := "service".
Definition NodeTypeWorkload : string := "workload".
Definition NodeTypeUnknown : string := "unknown".

End graph.

(** ** Package [graph/options] *)

Module options.

(** Modelled from the spec: the recognised [group-by] values; the
    [IsGroup] field of [NodeData] documents them as ['app'] and
    ['version']. *)
Definition GroupByApp : string := "app".
Definition GroupByVersion : string := "version".
Definition GroupByNone : string := "none".

Module VendorOptions.
Record t := mk {
  GroupBy : string;
  GraphType : string;
  QueryTime : Z;   (** int64, epoch seconds *)
  Duration : Z     (** time.Duration: int64 nanoseconds *)
}.
End VendorOptions.

End options.

(** ** [time.Duration.Seconds] and the conversion to [int64] *)

Module time.

Definition Second : Z := 1000000000.

Definition float64_of_int (z : Z) : float :=
  if z <? 0 then PrimFloat.opp (PrimFloat.of_uint63 (Uint63.of_Z (- z)))
  else PrimFloat.of_uint63 (Uint63.of_Z z).

(** [func (d Duration) Seconds() float64] *)
Definition Seconds (d : Z) : float :=
  let sec := Z.quot d Second in
  let nsec := Z.rem d Second in
  PrimFloat.add (float64_of_int sec)
    (PrimFloat.div (float64_of_int nsec) (float64_of_int Second)).

(** [int64(f)]: truncation toward zero *)
Definition int64_of_float64 (f : float) : Z :=
  match Prim2SF f with
  | S754_finite s m e =>
      let a := if 0 <=? e then Z.pos m * 2 ^ e else Z.pos m / 2 ^ (- e) in
      if s then - a else a
  | _ => 0
  end.

End time.

(** ** The output records *)

Module NodeData.

Record t := mk {
  Id : string;
  Parent : string;
  NodeType : string;
  Namespace : string;
  Workload : string;
  App : string;
  Version : string;
  Service : string;
  DestServices : gmap string bool;
  HttpIn : string;
  HttpIn3xx : string;
  HttpIn4xx : string;
  HttpIn5xx : string;
  HttpOut : string;
  TcpIn : string;
  TcpOut : string;
  HasCB : bool;
  HasMissingSC : bool;
  HasVS : bool;
  IsDead : bool;
  IsGroup : string;
  IsInaccessible : bool;
  IsMisconfigured : string;
  IsOutside : bool;
  IsRoot : bool;
  IsServiceEntry : string;
  IsUnused : bool
}.

(** the zero value of the struct: every field [omitempty] leaves out *)
Definition zero : t :=
  {| Id := "";
     Parent := "";
     NodeType := "";
     Namespace := "";
     Workload := "";
     App := "";
     Version := "";
     Service := "";
     DestServices := ∅;
     HttpIn := "";
     HttpIn3xx := "";
     HttpIn4xx := "";
     HttpIn5xx := "";
     HttpOut := "";
     TcpIn := "";
     TcpOut := "";
     HasCB := false;
     HasMissingSC := false;
     HasVS := false;
     IsDead := false;
     IsGroup := "";
     IsInaccessible := false;
     IsMisconfigured := "";
     IsOutside := false;
     IsRoot := false;
     IsServiceEntry := "";
     IsUnused := false |}.

Definition set_Parent (v : string) (x : t) : t :=
  mk (Id x) v (NodeType x) (Namespace x) (Workload x) (App x) (Version
     x) (Service x) (DestServices x) (HttpIn x) (HttpIn3xx x) (HttpIn4xx
     x) (HttpIn5xx x) (HttpOut x) (TcpIn x) (TcpOut x) (HasCB x)
     (HasMissingSC x) (HasVS x) (IsDead x) (IsGroup x) (IsInaccessible
     x) (IsMisconfigured x) (IsOutside x) (IsRoot x) (IsServiceEntry x)
     (IsUnused x).
Definition set_DestServices (v : gmap string bool) (x : t) : t :=
  mk (Id x) (Parent x) (NodeType x) (Namespace x) (Workload x) (App x)
     (Version x) (Service x) v (HttpIn x) (HttpIn3xx x) (HttpIn4xx x)
     (HttpIn5xx x) (HttpOut x) (TcpIn x) (TcpOut x) (HasCB x)
     (HasMissingSC x) (HasVS x) (IsDead x) (IsGroup x) (IsInaccessible
     x) (IsMisconfigured x) (IsOutside x) (IsRoot x) (IsServiceEntry x)
     (IsUnused x).
Definition set_HttpIn (v : string) (x : t) : t :=
  mk (Id x) (Parent x) (NodeType x) (Namespace x) (Workload x) (App x)
     (Version x) (Service x) (DestServices x) v (HttpIn3xx x) (HttpIn4xx
     x) (HttpIn5xx x) (HttpOut x) (TcpIn x) (TcpOut x) (HasCB x)
     (HasMissingSC x) (HasVS x) (IsDead x) (IsGroup x) (IsInaccessible
     x) (IsMisconfigured x) (IsOutside x) (IsRoot x) (IsServiceEntry x)
     (IsUnused x).
Definition set_HttpIn3xx (v : string) (x : t) : t :=
  mk (Id x) (Parent x) (NodeType x) (Namespace x) (Workload x) (App x)
     (Version x) (Service x) (DestServices x) (HttpIn x) v (HttpIn4xx x)
     (HttpIn5xx x) (HttpOut x) (TcpIn x) (TcpOut x) (HasCB x)
     (HasMissingSC x) (HasVS x) (IsDead x) (IsGroup x) (IsInaccessible
     x) (IsMisconfigured x) (IsOutside x) (IsRoot x) (IsServiceEntry x)
     (IsUnused x).
Definition set_HttpIn4xx (v : string) (x : t) : t :=
  mk (Id x) (Parent x) (NodeType x) (Namespace x) (Workload x) (App x)
     (Version x) (Service x) (DestServices x) (HttpIn x) (HttpIn3xx x) v
     (HttpIn5xx x) (HttpOut x) (TcpIn x) (TcpOut x) (HasCB x)
     (HasMissingSC x) (HasVS x) (IsDead x) (IsGroup x) (IsInaccessible
     x) (IsMisconfigured x) (IsOutside x) (IsRoot x) (IsServiceEntry x)
     (IsUnused x).
Definition set_HttpIn5xx (v : string) (x : t) : t :=
  mk (Id x) (Parent x) (NodeType x) (Namespace x) (Workload x) (App x)
     (Version x) (Service x) (DestServices x) (HttpIn x) (HttpIn3xx x)
     (HttpIn4xx x) v (HttpOut x) (TcpIn x) (TcpOut x) (HasCB x)
     (HasMissingSC x) (HasVS x) (IsDead x) (IsGroup x) (IsInaccessible
     x) (IsMisconfigured x) (IsOutside x) (IsRoot x) (IsServiceEntry x)
     (IsUnused x).
Definition set_HttpOut (v : string) (x : t) : t :=
  mk (Id x) (Parent x) (NodeType x) (Namespace x) (Workload x) (App x)
     (Version x) (Service x) (DestServices x) (HttpIn x) (HttpIn3xx x)
     (HttpIn4xx x) (HttpIn5xx x) v (TcpIn x) (TcpOut x) (HasCB x)
     (HasMissingSC x) (HasVS x) (IsDead x) (IsGroup x) (IsInaccessible
     x) (IsMisconfigured x) (IsOutside x) (IsRoot x) (IsServiceEntry x)
     (IsUnused x).
Definition set_TcpIn (v : string) (x : t) : t :=
  mk (Id x) (Parent x) (NodeType x) (Namespace x) (Workload x) (App x)
     (Version x) (Service x) (DestServices x) (HttpIn x) (HttpIn3xx x)
     (HttpIn4xx x) (HttpIn5xx x) (HttpOut x) v (TcpOut x) (HasCB x)
     (HasMissingSC x) (HasVS x) (IsDead x) (IsGroup x) (IsInaccessible
     x) (IsMisconfigured x) (IsOutside x) (IsRoot x) (IsServiceEntry x)
     (IsUnused x).
Definition set_TcpOut (v : string) (x : t) : t :=
  mk (Id x) (Parent x) (NodeType x) (Namespace x) (Workload x) (App x)
     (Version x) (Service x) (DestServices x) (HttpIn x) (HttpIn3xx x)
     (HttpIn4xx x) (HttpIn5xx x) (HttpOut x) (TcpIn x) v (HasCB x)
     (HasMissingSC x) (HasVS x) (IsDead x) (IsGroup x) (IsInaccessible
     x) (IsMisconfigured x) (IsOutside x) (IsRoot x) (IsServiceEntry x)
     (IsUnused x).
Definition set_HasCB (v : bool) (x : t) : t :=
  mk (Id x) (Parent x) (NodeType x) (Namespace x) (Workload x) (App x)
     (Version x) (Service x) (DestServices x) (HttpIn x) (HttpIn3xx x)
     (HttpIn4xx x) (HttpIn5xx x) (HttpOut x) (TcpIn x) (TcpOut x) v
     (HasMissingSC x) (HasVS x) (IsDead x) (IsGroup x) (IsInaccessible
     x) (IsMisconfigured x) (IsOutside x) (IsRoot x) (IsServiceEntry x)
     (IsUnused x).
Definition set_HasMissingSC (v : bool) (x : t) : t :=
  mk (Id x) (Parent x) (NodeType x) (Namespace x) (Workload x) (App x)
     (Version x) (Service x) (DestServices x) (HttpIn x) (HttpIn3xx x)
     (HttpIn4xx x) (HttpIn5xx x) (HttpOut x) (TcpIn x) (TcpOut x) (HasCB
     x) v (HasVS x) (IsDead x) (IsGroup x) (IsInaccessible x)
     (IsMisconfigured x) (IsOutside x) (IsRoot x) (IsServiceEntry x)
     (IsUnused x).
Definition set_HasVS (v : bool) (x : t) : t :=
  mk (Id x) (Parent x) (NodeType x) (Namespace x) (Workload x) (App x)
     (Version x) (Service x) (DestServices x) (HttpIn x) (HttpIn3xx x)
     (HttpIn4xx x) (HttpIn5xx x) (HttpOut x) (TcpIn x) (TcpOut x) (HasCB
     x) (HasMissingSC x) v (IsDead x) (IsGroup x) (IsInaccessible x)
     (IsMisconfigured x) (IsOutside x) (IsRoot x) (IsServiceEntry x)
     (IsUnused x).
Definition set_IsDead (v : bool) (x : t) : t :=
  mk (Id x) (Parent x) (NodeType x) (Namespace x) (Workload x) (App x)
     (Version x) (Service x) (DestServices x) (HttpIn x) (HttpIn3xx x)
     (HttpIn4xx x) (HttpIn5xx x) (HttpOut x) (TcpIn x) (TcpOut x) (HasCB
     x) (HasMissingSC x) (HasVS x) v (IsGroup x) (IsInaccessible x)
     (IsMisconfigured x) (IsOutside x) (IsRoot x) (IsServiceEntry x)
     (IsUnused x).
Definition set_IsInaccessible (v : bool) (x : t) : t :=
  mk (Id x) (Parent x) (NodeType x) (Namespace x) (Workload x) (App x)
     (Version x) (Service x) (DestServices x) (HttpIn x) (HttpIn3xx x)
     (HttpIn4xx x) (HttpIn5xx x) (HttpOut x) (TcpIn x) (TcpOut x) (HasCB
     x) (HasMissingSC x) (HasVS x) (IsDead x) (IsGroup x) v
     (IsMisconfigured x) (IsOutside x) (IsRoot x) (IsServiceEntry x)
     (IsUnused x).
Definition set_IsMisconfigured (v : string) (x : t) : t :=
  mk (Id x) (Parent x) (NodeType x) (Namespace x) (Workload x) (App x)
     (Version x) (Service x) (DestServices x) (HttpIn x) (HttpIn3xx x)
     (HttpIn4xx x) (HttpIn5xx x) (HttpOut x) (TcpIn x) (TcpOut x) (HasCB
     x) (HasMissingSC x) (HasVS x) (IsDead x) (IsGroup x)
     (IsInaccessible x) v (IsOutside x) (IsRoot x) (IsServiceEntry x)
     (IsUnused x).
Definition set_IsOutside (v : bool) (x : t) : t :=
  mk (Id x) (Parent x) (NodeType x) (Namespace x) (Workload x) (App x)
     (Version x) (Service x) (DestServices x) (HttpIn x) (HttpIn3xx x)
     (HttpIn4xx x) (HttpIn5xx x) (HttpOut x) (TcpIn x) (TcpOut x) (HasCB
     x) (HasMissingSC x) (HasVS x) (IsDead x) (IsGroup x)
     (IsInaccessible x) (IsMisconfigured x) v (IsRoot x) (IsServiceEntry
     x) (IsUnused x).
Definition set_IsRoot (v : bool) (x : t) : t :=
  mk (Id x) (Parent x) (NodeType x) (Namespace x) (Workload x) (App x)
     (Version x) (Service x) (DestServices x) (HttpIn x) (HttpIn3xx x)
     (HttpIn4xx x) (HttpIn5xx x) (HttpOut x) (TcpIn x) (TcpOut x) (HasCB
     x) (HasMissingSC x) (HasVS x) (IsDead x) (IsGroup x)
     (IsInaccessible x) (IsMisconfigured x) (IsOutside x) v
     (IsServiceEntry x) (IsUnused x).
Definition set_IsServiceEntry (v : string) (x : t) : t :=
  mk (Id x) (Parent x) (NodeType x) (Namespace x) (Workload x) (App x)
     (Version x) (Service x) (DestServices x) (HttpIn x) (HttpIn3xx x)
     (HttpIn4xx x) (HttpIn5xx x) (HttpOut x) (TcpIn x) (TcpOut x) (HasCB
     x) (HasMissingSC x) (HasVS x) (IsDead x) (IsGroup x)
     (IsInaccessible x) (IsMisconfigured x) (IsOutside x) (IsRoot x) v
     (IsUnused x).
Definition set_IsUnused (v : bool) (x : t) : t :=
  mk (Id x) (Parent x) (NodeType x) (Namespace x) (Workload x) (App x)
     (Version x) (Service x) (DestServices x) (HttpIn x) (HttpIn3xx x)
     (HttpIn4xx x) (HttpIn5xx x) (HttpOut x) (TcpIn x) (TcpOut x) (HasCB
     x) (HasMissingSC x) (HasVS x) (IsDead x) (IsGroup x)
     (IsInaccessible x) (IsMisconfigured x) (IsOutside x) (IsRoot x)
     (IsServiceEntry x) v.

End NodeData.

Module EdgeData.

Record t := mk {
  Id : string;
  Source : string;
  Target : string;
  Http : string;
  Http3xx : string;
  Http4xx : string;
  Http5xx : string;
  HttpPercentErr : string;
  HttpPercentReq : string;
  ResponseTime : string;
  IsMTLS : bool;
  IsUnused : bool;
  Tcp : string
}.

(** the zero value of the struct: every field [omitempty] leaves out *)
Definition zero : t :=
  {| Id := "";
     Source := "";
     Target := "";
     Http := "";
     Http3xx := "";
     Http4xx := "";
     Http5xx := "";
     HttpPercentErr := "";
     HttpPercentReq := "";
     ResponseTime := "";
     IsMTLS := false;
     IsUnused := false;
     Tcp := "" |}.

Definition set_Http (v : string) (x : t) : t :=
  mk (Id x) (Source x) (Target x) v (Http3xx x) (Http4xx x) (Http5xx x)
     (HttpPercentErr x) (HttpPercentReq x) (ResponseTime x) (IsMTLS x)
     (IsUnused x) (Tcp x).
Definition set_Http3xx (v : string) (x : t) : t :=
  mk (Id x) (Source x) (Target x) (Http x) v (Http4xx x) (Http5xx x)
     (HttpPercentErr x) (HttpPercentReq x) (ResponseTime x) (IsMTLS x)
     (IsUnused x) (Tcp x).
Definition set_Http4xx (v : string) (x : t) : t :=
  mk (Id x) (Source x) (Target x) (Http x) (Http3xx x) v (Http5xx x)
     (HttpPercentErr x) (HttpPercentReq x) (ResponseTime x) (IsMTLS x)
     (IsUnused x) (Tcp x).
Definition set_Http5xx (v : string) (x : t) : t :=
  mk (Id x) (Source x) (Target x) (Http x) (Http3xx x) (Http4xx x) v
     (HttpPercentErr x) (HttpPercentReq x) (ResponseTime x) (IsMTLS x)
     (IsUnused x) (Tcp x).
Definition set_HttpPercentErr (v : string) (x : t) : t :=
  mk (Id x) (Source x) (Target x) (Http x) (Http3xx x) (Http4xx x)
     (Http5xx x) v (HttpPercentReq x) (ResponseTime x) (IsMTLS x)
     (IsUnused x) (Tcp x).
Definition set_HttpPercentReq (v : string) (x : t) : t :=
  mk (Id x) (Source x) (Target x) (Http x) (Http3xx x) (Http4xx x)
     (Http5xx x) (HttpPercentErr x) v (ResponseTime x) (IsMTLS x)
     (IsUnused x) (Tcp x).
Definition set_ResponseTime (v : string) (x : t) : t :=
  mk (Id x) (Source x) (Target x) (Http x) (Http3xx x) (Http4xx x)
     (Http5xx x) (HttpPercentErr x) (HttpPercentReq x) v (IsMTLS x)
     (IsUnused x) (Tcp x).
Definition set_IsMTLS (v : bool) (x : t) : t :=
  mk (Id x) (Source x) (Target x) (Http x) (Http3xx x) (Http4xx x)
     (Http5xx x) (HttpPercentErr x) (HttpPercentReq x) (ResponseTime x)
     v (IsUnused x) (Tcp x).
Definition set_IsUnused (v : bool) (x : t) : t :=
  mk (Id x) (Source x) (Target x) (Http x) (Http3xx x) (Http4xx x)
     (Http5xx x) (HttpPercentErr x) (HttpPercentReq x) (ResponseTime x)
     (IsMTLS x) v (Tcp x).
Definition set_Tcp (v : string) (x : t) : t :=
  mk (Id x) (Source x) (Target x) (Http x) (Http3xx x) (Http4xx x)
     (Http5xx x) (HttpPercentErr x) (HttpPercentReq x) (ResponseTime x)
     (IsMTLS x) (IsUnused x) v.

End EdgeData.

Module Elements.
Record t := mk {
  Nodes : list NodeData.t;
  Edges : list EdgeData.t
}.
End Elements.

Module Config.
Record t := mk {
  Timestamp : Z;
  Duration : Z;
  GraphType : string;
  Elements : Elements.t
}.
End Config.

(** ** Computations over the heap of graph nodes *)

(** A computation reads (and could write) the heap of [graph.Node]s and
    either returns or panics. *)
Record M (A : Type) : Type := MkM { run : graph.Heap → outcome A * graph.Heap }.
Arguments MkM {A} run.
Arguments run {A} m h.

#[global] Instance M_ret : MRet M := fun A a => MkM (fun h => (Return a, h)).
#[global] Instance M_bind : MBind M := fun A B f m =>
  MkM (fun h =>
    match run m h with
    | (Return a, h') => run (f a) h'
    | (Panic, h') => (Panic, h')
    end).

(** a call of a function that touches no node *)
Definition lift {A} (r : outcome A) : M A := MkM (fun h => (r, h)).

(** [*p]: a nil dereference panics *)
Definition load (p : graph.loc) : M graph.Node.t :=
  MkM (fun h =>
    match h !! p with
    | Some n => (Return n, h)
    | None => (Panic, h)
    end).

(** ** [range] over a map *)

(** The order in which a [range] loop visits a map: Go leaves it
    unspecified, so any permutation of the entries is possible. *)
Record MapRange := {
  range : ∀ {V : Type}, gmap string V → list (string * V);
  range_perm : ∀ {V : Type} (m : gmap string V), range m ≡ₚ map_to_list m
}.

Program Definition range_forward : MapRange :=
  {| range := fun V m => map_to_list m |}.
Next Obligation. reflexivity. Qed.

Program Definition range_backward : MapRange :=
  {| range := fun V m => reverse (map_to_list m) |}.
Next Obligation. intros. apply reverse_Permutation. Qed.

(** ** [sort.Slice] *)

(** [b] may come after [a]: [b] is not less than [a] *)
Definition not_after {A} (less : A → A → bool) (a b : A) : Prop :=
  less b a = false.

(** a comparison function as [sort.Slice] expects it: the "less" of a
    strict weak order *)
Definition strict_weak {A} (less : A → A → bool) : Prop :=
  (∀ a b, less a b = true → less b a = false)
  ∧ (∀ a b c, less b a = false → less c b = false → less c a = false).

(** [sort.Slice] rearranges the slice into an order in which no element
    is less than one before it; the sort is not stable, so which of the
    orders that qualify comes out is the implementation's choice. *)
Record Sorter := {
  sort_Slice : ∀ {A : Type}, (A → A → bool) → list A → list A;
  sort_Slice_perm : ∀ {A : Type} (less : A → A → bool) (data : list A),
    sort_Slice less data ≡ₚ data;
  sort_Slice_sorted : ∀ {A : Type} (less : A → A → bool) (data : list A),
    strict_weak less → StronglySorted (not_after less) (sort_Slice less data)
}.

(** On slices shorter than 12 elements [sort.Slice] runs an insertion
    sort: each element in turn is swapped toward the front while it is
    less than its left neighbour.  [sift] works on the sorted prefix in
    reverse, nearest neighbour first. *)
Fixpoint sift {A} (less : A → A → bool) (x : A) (rprefix : list A) : list A :=
  match rprefix with
  | [] => [x]
  | y :: rest => if less x y then y :: sift less x rest else x :: y :: rest
  end.

Definition insertionSort {A} (less : A → A → bool) (data : list A) : list A :=
  rev (fold_left (fun rprefix x => sift less x rprefix) data []).

Program Definition insertion_sort : Sorter :=
  {| sort_Slice := @insertionSort |}.
Next Obligation.
  intros A less data. unfold insertionSort.
  assert (Hsift : ∀ x r, sift less x r ≡ₚ x :: r).
  { intros x r. induction r as [|y r IH]; simpl; [reflexivity|].
    destruct (less x y); [|reflexivity]. rewrite IH. apply Permutation_swap. }
  assert (H : ∀ r, fold_left (fun rp x => sift less x rp) data r
                   ≡ₚ rev data ++ r).
  { induction data as [|x l IH]; intros r; simpl; [reflexivity|].
    rewrite IH, Hsift. rewrite <- app_assoc. reflexivity. }
  rewrite <- (rev_involutive data) at 2.
  rewrite H, app_nil_r. reflexivity.
Qed.
Next Obligation.
  intros A less data [Hasym Hneg]. unfold insertionSort.
  assert (Hsift : ∀ x r, sift less x r ≡ₚ x :: r).
  { intros x r. induction r as [|y r IH]; simpl; [reflexivity|].
    destruct (less x y); [|reflexivity]. rewrite IH. apply Permutation_swap. }
  assert (Hstep : ∀ x r, StronglySorted (flip (not_after less)) r →
                         StronglySorted (flip (not_after less)) (sift less x r)).
  { intros x r. induction r as [|y r IH]; intros Hs; simpl.
    - repeat constructor.
    - apply StronglySorted_cons in Hs as [Hy Hr].
      destruct (less x y) eqn:Hxy.
      + apply StronglySorted_cons. split; [|auto].
        rewrite Hsift. constructor; [|exact Hy].
        unfold flip, not_after. apply Hasym, Hxy.
      + apply StronglySorted_cons. split.
        * constructor; [exact Hxy|].
          eapply Forall_impl; [exact Hy|]. intros z Hz.
          unfold flip, not_after in *. eapply Hneg; eassumption.
        * apply StronglySorted_cons. auto. }
  assert (Hrev : ∀ l, StronglySorted (flip (not_after less)) l →
                      StronglySorted (not_after less) (rev l)).
  { induction 1 as [|x l Hl IH Hx]; simpl; [constructor|].
    apply StronglySorted_app. split; [|split].
    - intros a b Ha Hb. apply list_elem_of_singleton in Hb as ->.
      apply list_elem_of_In, in_rev, list_elem_of_In in Ha.
      rewrite Forall_forall in Hx. exact (Hx _ Ha).
    - exact IH.
    - repeat constructor. }
  apply Hrev.
  assert (H : ∀ r, StronglySorted (flip (not_after less)) r →
    StronglySorted (flip (not_after less))
      (fold_left (fun rp x => sift less x rp) data r)).
  { induction data as [|x l IH]; intros r Hr; simpl; [exact Hr|].
    apply IH, Hstep, Hr. }
  apply H. constructor.
Qed.

(** ** Package [cytoscape] *)

Definition nodeHash (id : string) : string := md5.sum_hex id.

Definition edgeHash (from to protocol : string) : string :=
  md5.sum_hex (fmt.Sprintf_dots from to protocol).

Definition gt0 (x : float) : bool := PrimFloat.ltb 0 x.

Definition getRate (md : gmap string value) (k : string) : outcome float :=
  match md !! k with
  | Some rate => assert_float64 rate
  | None => Return 0%float
  end.

Definition addNodeTelemetry (s : graph.Node.t) (nd : NodeData.t)
  : outcome NodeData.t :=
  let md := graph.Node.Metadata s in
  httpIn ← getRate md "httpIn";
  nd ← (if gt0 httpIn then
          let nd := NodeData.set_HttpIn (fmt.Sprintf_f 2 httpIn) nd in
          httpIn3xx ← getRate md "httpIn3xx";
          httpIn4xx ← getRate md "httpIn4xx";
          httpIn5xx ← getRate md "httpIn5xx";
          let nd := if gt0 httpIn3xx
                    then NodeData.set_HttpIn3xx (fmt.Sprintf_f 2 httpIn3xx) nd
                    else nd in
          let nd := if gt0 httpIn4xx
                    then NodeData.set_HttpIn4xx (fmt.Sprintf_f 2 httpIn4xx) nd
                    else nd in
          let nd := if gt0 httpIn5xx
                    then NodeData.set_HttpIn5xx (fmt.Sprintf_f 2 httpIn5xx) nd
                    else nd in
          Return nd
        else Return nd);
  httpOut ← getRate md "httpOut";
  let nd := if gt0 httpOut
            then NodeData.set_HttpOut (fmt.Sprintf_f 2 httpOut) nd
            else nd in
  tcpIn ← getRate md "tcpIn";
  tcpOut ← getRate md "tcpOut";
  let nd := if gt0 tcpIn
            then NodeData.set_TcpIn (fmt.Sprintf_f 2 tcpIn) nd
            else nd in
  let nd := if gt0 tcpOut
            then NodeData.set_TcpOut (fmt.Sprintf_f 2 tcpOut) nd
            else nd in
  Return nd.

(** [if val, ok := md[k]; ok { x.F = val.(T) }] *)
Definition copy_if_present {A T} (md : gmap string value) (k : string)
    (assert : value → outcome T) (set : T → A → A) (x : A) : outcome A :=
  match md !! k with
  | Some val => v ← assert val; Return (set v x)
  | None => Return x
  end.

Definition addEdgeTelemetry (ed : EdgeData.t) (e : graph.Edge.t)
    (o : options.VendorOptions.t) : M EdgeData.t :=
  let md := graph.Edge.Metadata e in
  http ← lift (getRate md "http");
  ed ← (if gt0 http then
          http3xx ← lift (getRate md "http3xx");
          http4xx ← lift (getRate md "http4xx");
          http5xx ← lift (getRate md "http5xx");
          let httpErr := PrimFloat.add http4xx http5xx in
          let httpPercentErr := PrimFloat.mul (PrimFloat.div httpErr http) 100 in
          let ed := EdgeData.set_Http (fmt.Sprintf_f 2 http) ed in
          let ed := if gt0 http3xx
                    then EdgeData.set_Http3xx (fmt.Sprintf_f 2 http3xx) ed
                    else ed in
          let ed := if gt0 http4xx
                    then EdgeData.set_Http4xx (fmt.Sprintf_f 2 http4xx) ed
                    else ed in
          let ed := if gt0 http5xx
                    then EdgeData.set_Http5xx (fmt.Sprintf_f 2 http5xx) ed
                    else ed in
          let ed := if gt0 httpPercentErr
                    then EdgeData.set_HttpPercentErr
                           (fmt.Sprintf_f 1 httpPercentErr) ed
                    else ed in
          ed ← lift (copy_if_present md "responseTime" assert_float64
                       (fun responseTime =>
                          EdgeData.set_ResponseTime
                            (fmt.Sprintf_f 0 responseTime)) ed);
          source ← load (graph.Edge.Source e);
          httpOut ← lift (getRate (graph.Node.Metadata source) "httpOut");
          let httpPercentReq :=
            PrimFloat.mul (PrimFloat.div http httpOut) 100 in
          mret (if PrimFloat.ltb httpPercentReq 100
                then EdgeData.set_HttpPercentReq
                       (fmt.Sprintf_f 1 httpPercentReq) ed
                else ed)
        else
          source ← load (graph.Edge.Source e);
          lift (copy_if_present (graph.Node.Metadata source) "isUnused"
                  assert_bool EdgeData.set_IsUnused ed));
  ed ← lift (copy_if_present md "isMTLS" assert_bool EdgeData.set_IsMTLS ed);
  tcp ← lift (getRate md "tcp");
  mret (if gt0 tcp then EdgeData.set_Tcp (fmt.Sprintf_f 2 tcp) ed else ed).

(** the body of the [for _, e := range n.Edges] loop *)
Definition buildEdge (n : graph.Node.t) (e : graph.Edge.t)
    (o : options.VendorOptions.t) : M EdgeData.t :=
  let sourceIdHash := nodeHash (graph.Node.ID n) in
  dest ← load (graph.Edge.Dest e);
  let destIdHash := nodeHash (graph.Node.ID dest) in
  protocol ← lift (match graph.Edge.Metadata e !! "protocol" with
                   | None | Some VNil => Return ""
                   | Some v => assert_string v
                   end);
  let edgeId := edgeHash sourceIdHash destIdHash protocol in
  let ed := {| EdgeData.Id := edgeId;
               EdgeData.Source := sourceIdHash;
               EdgeData.Target := destIdHash;
               EdgeData.Http := ""; EdgeData.Http3xx := "";
               EdgeData.Http4xx := ""; EdgeData.Http5xx := "";
               EdgeData.HttpPercentErr := ""; EdgeData.HttpPercentReq := "";
               EdgeData.ResponseTime := ""; EdgeData.IsMTLS := false;
               EdgeData.IsUnused := false; EdgeData.Tcp := "" |} in
  addEdgeTelemetry ed e o.

Fixpoint buildEdges (n : graph.Node.t) (es : list graph.Edge.t)
    (edges : list EdgeData.t) (o : options.VendorOptions.t)
  : M (list EdgeData.t) :=
  match es with
  | [] => mret edges
  | e :: es' =>
      ed ← buildEdge n e o;
      buildEdges n es' (edges ++ [ed])%list o
  end.

(** the node record of one entry of the traffic map, before its edges *)
Definition buildNode (id : string) (n : graph.Node.t) : outcome NodeData.t :=
  let nodeId := nodeHash id in
  let nd := {| NodeData.Id := nodeId;
               NodeData.Parent := "";
               NodeData.NodeType := graph.Node.NodeType n;
               NodeData.Namespace := graph.Node.Namespace n;
               NodeData.Workload := graph.Node.Workload n;
               NodeData.App := graph.Node.App n;
               NodeData.Version := graph.Node.Version n;
               NodeData.Service := graph.Node.Service n;
               NodeData.DestServices := ∅;
               NodeData.HttpIn := ""; NodeData.HttpIn3xx := "";
               NodeData.HttpIn4xx := ""; NodeData.HttpIn5xx := "";
               NodeData.HttpOut := ""; NodeData.TcpIn := "";
               NodeData.TcpOut := ""; NodeData.HasCB := false;
               NodeData.HasMissingSC := false; NodeData.HasVS := false;
               NodeData.IsDead := false; NodeData.IsGroup := "";
               NodeData.IsInaccessible := false;
               NodeData.IsMisconfigured := ""; NodeData.IsOutside := false;
               NodeData.IsRoot := false; NodeData.IsServiceEntry := "";
               NodeData.IsUnused := false |} in
  let md := graph.Node.Metadata n in
  nd ← addNodeTelemetry n nd;
  nd ← copy_if_present md "isDead" assert_bool NodeData.set_IsDead nd;
  nd ← copy_if_present md "isRoot" assert_bool NodeData.set_IsRoot nd;
  nd ← copy_if_present md "isUnused" assert_bool NodeData.set_IsUnused nd;
  nd ← copy_if_present md "isInaccessible" assert_bool
         NodeData.set_IsInaccessible nd;
  nd ← copy_if_present md "hasCB" assert_bool NodeData.set_HasCB nd;
  nd ← copy_if_present md "hasVS" assert_bool NodeData.set_HasVS nd;
  nd ← copy_if_present md "hasMissingSC" assert_bool
         NodeData.set_HasMissingSC nd;
  nd ← copy_if_present md "isMisconfigured" assert_string
         NodeData.set_IsMisconfigured nd;
  nd ← copy_if_present md "isOutside" assert_bool NodeData.set_IsOutside nd;
  nd ← copy_if_present md "destServices" assert_map_string_bool
         NodeData.set_DestServices nd;
  copy_if_present md "isServiceEntry" assert_string
    NodeData.set_IsServiceEntry nd.

(** [buildConfig] over the entries in the order the [range] loop visits
    them; [nodes] and [edges] are the slices appended to *)
Fixpoint buildConfig_loop (entries : list (string * graph.loc))
    (nodes : list NodeData.t) (edges : list EdgeData.t)
    (o : options.VendorOptions.t)
  : M (list NodeData.t * list EdgeData.t) :=
  match entries with
  | [] => mret (nodes, edges)
  | (id, p) :: rest =>
      n ← load p;
      nd ← lift (buildNode id n);
      let nodes := (nodes ++ [nd])%list in
      edges ← buildEdges n (graph.Node.Edges n) edges o;
      buildConfig_loop rest nodes edges o
  end.

Definition buildConfig (it : MapRange) (trafficMap : gmap string graph.loc)
    (nodes : list NodeData.t) (edges : list EdgeData.t)
    (o : options.VendorOptions.t)
  : M (list NodeData.t * list EdgeData.t) :=
  buildConfig_loop (range it trafficMap) nodes edges o.

(** the [appBox] of [groupByApp] and [groupByVersion]: for each key the
    member nodes, as indices into the [nodes] arena, in slice order *)
Fixpoint collect (keep : NodeData.t → bool) (i : nat) (nodes : list NodeData.t)
    (appBox : gmap string (list nat)) : gmap string (list nat) :=
  match nodes with
  | [] => appBox
  | nd :: rest =>
      let appBox :=
        if keep nd then
          let k := fmt.Sprintf_box (NodeData.Namespace nd) (NodeData.App nd) in
          <[k := (default [] (appBox !! k) ++ [i])%list]> appBox
        else appBox in
      collect keep (S i) rest appBox
  end.

(** the [for _, n := range members] loop: [nodes] is the arena the
    members point into, [nd] the compound node under construction *)
Fixpoint assign_members (nodeId : string) (members : list nat)
    (nodes : list NodeData.t) (nd : NodeData.t)
  : list NodeData.t * NodeData.t :=
  match members with
  | [] => (nodes, nd)
  | i :: rest =>
      let nodes := alter (NodeData.set_Parent nodeId) i nodes in
      let n := default NodeData.zero (nodes !! i) in
      let nd := NodeData.set_HasMissingSC
                  (NodeData.HasMissingSC nd || NodeData.HasMissingSC n) nd in
      let nd := NodeData.set_IsInaccessible
                  (NodeData.IsInaccessible nd || NodeData.IsInaccessible n) nd in
      let nd := NodeData.set_IsOutside
                  (NodeData.IsOutside nd || NodeData.IsOutside n) nd in
      assign_members nodeId rest nodes nd
  end.

(** the body of the loop of [generateGroupCompoundNodes] *)
Definition generateGroup (groupBy : string) (nodes : list NodeData.t)
    (entry : string * list nat) : list NodeData.t :=
  let '(k, members) := entry in
  if (1 <? length members)%nat then
    let nodeId := nodeHash k in
    let m0 := default NodeData.zero (head members ≫= (nodes !!.)) in
    let nd := {| NodeData.Id := nodeId;
                 NodeData.Parent := "";
                 NodeData.NodeType := graph.NodeTypeApp;
                 NodeData.Namespace := NodeData.Namespace m0;
                 NodeData.Workload := "";
                 NodeData.App := NodeData.App m0;
                 NodeData.Version := "";
                 NodeData.Service := "";
                 NodeData.DestServices := ∅;
                 NodeData.HttpIn := ""; NodeData.HttpIn3xx := "";
                 NodeData.HttpIn4xx := ""; NodeData.HttpIn5xx := "";
                 NodeData.HttpOut := ""; NodeData.TcpIn := "";
                 NodeData.TcpOut := ""; NodeData.HasCB := false;
                 NodeData.HasMissingSC := false; NodeData.HasVS := false;
                 NodeData.IsDead := false; NodeData.IsGroup := groupBy;
                 NodeData.IsInaccessible := false;
                 NodeData.IsMisconfigured := ""; NodeData.IsOutside := false;
                 NodeData.IsRoot := false; NodeData.IsServiceEntry := "";
                 NodeData.IsUnused := false |} in
    let '(nodes, nd) := assign_members nodeId members nodes nd in
    (nodes ++ [nd])%list
  else nodes.

Definition generateGroupCompoundNodes (it : MapRange)
    (appBox : gmap string (list nat)) (nodes : list NodeData.t)
    (groupBy : string) : list NodeData.t :=
  fold_left (generateGroup groupBy) (range it appBox) nodes.

(** groupByVersion adds compound nodes to group multiple versions of the
    same app *)
Definition groupByVersion (it : MapRange) (nodes : list NodeData.t)
  : list NodeData.t :=
  let appBox :=
    collect (fun nd => String.eqb (NodeData.NodeType nd) graph.NodeTypeApp)
      0 nodes ∅ in
  generateGroupCompoundNodes it appBox nodes options.GroupByVersion.

(** groupByApp adds compound nodes to group all nodes for the same app *)
Definition groupByApp (it : MapRange) (nodes : list NodeData.t)
  : list NodeData.t :=
  let appBox :=
    collect (fun nd => negb (String.eqb (NodeData.App nd) "unknown")
                       && negb (String.eqb (NodeData.App nd) ""))
      0 nodes ∅ in
  generateGroupCompoundNodes it appBox nodes options.GroupByApp.

(** the comparison function of the node sort *)
Definition node_less (a b : NodeData.t) : bool :=
  if negb (String.eqb (NodeData.Namespace a) (NodeData.Namespace b)) then
    String.ltb (NodeData.Namespace a) (NodeData.Namespace b)
  else if negb (String.eqb (NodeData.IsGroup a) (NodeData.IsGroup b)) then
    String.ltb (NodeData.IsGroup b) (NodeData.IsGroup a)
  else if negb (String.eqb (NodeData.App a) (NodeData.App b)) then
    String.ltb (NodeData.App a) (NodeData.App b)
  else if negb (String.eqb (NodeData.Version a) (NodeData.Version b)) then
    String.ltb (NodeData.Version a) (NodeData.Version b)
  else if negb (String.eqb (NodeData.Service a) (NodeData.Service b)) then
    String.ltb (NodeData.Service a) (NodeData.Service b)
  else String.ltb (NodeData.Workload a) (NodeData.Workload b).

(** the comparison function of the edge sort *)
Definition edge_less (a b : EdgeData.t) : bool :=
  if String.ltb (EdgeData.Source a) (EdgeData.Source b) then true
  else if String.ltb (EdgeData.Source b) (EdgeData.Source a) then false
  else String.ltb (EdgeData.Target a) (EdgeData.Target b).

Definition NewConfig (srt : Sorter) (it : MapRange)
    (trafficMap : gmap string graph.loc) (o : options.VendorOptions.t)
  : M Config.t :=
  '(nodes, edges) ← buildConfig it trafficMap [] [] o;
  (* Add compound nodes as needed *)
  let nodes :=
    if String.eqb (options.VendorOptions.GroupBy o) options.GroupByApp then
      if negb (String.eqb (options.VendorOptions.GraphType o)
                 graph.GraphTypeService)
      then groupByApp it nodes else nodes
    else if String.eqb (options.VendorOptions.GroupBy o)
              options.GroupByVersion then
      if String.eqb (options.VendorOptions.GraphType o)
           graph.GraphTypeVersionedApp
      then groupByVersion it nodes else nodes
    else nodes in
  let nodes := sort_Slice srt node_less nodes in
  let edges := sort_Slice srt edge_less edges in
  mret {| Config.Duration :=
            time.int64_of_float64
              (time.Seconds (options.VendorOptions.Duration o));
          Config.Timestamp := options.VendorOptions.QueryTime o;
          Config.GraphType := options.VendorOptions.GraphType o;
          Config.Elements := {| Elements.Nodes := nodes;
                                Elements.Edges := edges |} |}.

(** * Vocabulary of the properties *)

(** ** Reading well-typed metadata *)

(** the dynamic types the code asserts *)
Inductive ty := TFloat64 | TBool | TString | TMapStringBool | TStringOrNil.

Definition has_type (t : ty) (v : value) : bool :=
  match t, v with
  | TFloat64, VFloat64 _ => true
  | TBool, VBool _ => true
  | TString, VString _ => true
  | TMapStringBool, VMapStringBool _ => true
  | TStringOrNil, (VString _ | VNil) => true
  | _, _ => false
  end.

(** every key of the schema that is present holds a value of its type *)
Definition conforms (schema : list (string * ty)) (md : gmap string value)
  : bool :=
  forallb (fun '(k, t) =>
             match md !! k with
             | Some v => has_type t v
             | None => true
             end) schema.

(** the keys [buildConfig] and [addNodeTelemetry] read on a node *)
Definition node_schema : list (string * ty) :=
  [ ("httpIn", TFloat64); ("httpIn3xx", TFloat64); ("httpIn4xx", TFloat64);
    ("httpIn5xx", TFloat64); ("httpOut", TFloat64); ("tcpIn", TFloat64);
    ("tcpOut", TFloat64); ("isDead", TBool); ("isRoot", TBool);
    ("isUnused", TBool); ("isInaccessible", TBool); ("hasCB", TBool);
    ("hasVS", TBool); ("hasMissingSC", TBool); ("isMisconfigured", TString);
    ("isOutside", TBool); ("destServices", TMapStringBool);
    ("isServiceEntry", TString) ].

(** the keys [buildConfig] and [addEdgeTelemetry] read on an edge *)
Definition edge_schema : list (string * ty) :=
  [ ("protocol", TStringOrNil); ("http", TFloat64); ("http3xx", TFloat64);
    ("http4xx", TFloat64); ("http5xx", TFloat64);
    ("responseTime", TFloat64); ("isMTLS", TBool); ("tcp", TFloat64) ].

(** the rate under key [k]: zero when the key is absent *)
Definition rate (md : gmap string value) (k : string) : float :=
  match md !! k with
  | Some (VFloat64 f) => f
  | _ => 0%float
  end.

(** the flag under key [k]: [None] when the key is absent *)
Definition flag (md : gmap string value) (k : string) : option bool :=
  match md !! k with
  | Some (VBool b) => Some b
  | _ => None
  end.

(** an edge whose source and destination exist and whose metadata, and
    that of its source, have the asserted types *)
Definition edge_ok (h : graph.Heap) (e : graph.Edge.t) : bool :=
  conforms edge_schema (graph.Edge.Metadata e)
  && bool_decide (is_Some (h !! graph.Edge.Dest e))
  && match h !! graph.Edge.Source e with
     | Some src => conforms node_schema (graph.Node.Metadata src)
     | None => false
     end.

Definition node_ok (h : graph.Heap) (n : graph.Node.t) : bool :=
  conforms node_schema (graph.Node.Metadata n)
  && forallb (edge_ok h) (graph.Node.Edges n).

(** an entry of the traffic map that points to a node of the heap that is
    [node_ok] *)
Definition entry_ok (h : graph.Heap) (entry : string * graph.loc) : bool :=
  match h !! entry.2 with
  | Some n => node_ok h n
  | None => false
  end.

Definition graph_ok (h : graph.Heap) (trafficMap : gmap string graph.loc)
  : bool :=
  forallb (entry_ok h) (map_to_list trafficMap).

(** a computation that leaves the heap as it found it *)
Definition preserves_heap {A} (m : M A) : Prop := ∀ h, (run m h).2 = h.

(** the hashes, the formatted numbers and the metadata readers stay folded
    under [simpl] *)
Arguments fmt.Sprintf_f : simpl never.
Arguments nodeHash : simpl never.
Arguments edgeHash : simpl never.
Arguments rate : simpl never.
Arguments flag : simpl never.
Arguments gt0 : simpl never.

Definition typed_at (md : gmap string value) (k : string) (t : ty) : Prop :=
  ∀ v, md !! k = Some v → has_type t v = true.

(** ** Node records *)

(** the identity fields of a node record and its group marker *)
Definition key_fields (nd : NodeData.t) :=
  (NodeData.Id nd, NodeData.Parent nd, NodeData.NodeType nd,
   NodeData.Namespace nd, NodeData.Workload nd, NodeData.App nd,
   NodeData.Version nd, NodeData.Service nd, NodeData.IsGroup nd).

(** the rate fields of a node record *)
Definition rate_fields (nd : NodeData.t) :=
  (NodeData.HttpIn nd, NodeData.HttpIn3xx nd, NodeData.HttpIn4xx nd,
   NodeData.HttpIn5xx nd, NodeData.HttpOut nd, NodeData.TcpIn nd,
   NodeData.TcpOut nd).

(** what a rate field holds: the two-decimal rendering when [shown], and
    nothing ([omitempty] drops the field) otherwise *)
Definition rate_string (shown : bool) (r : float) : string :=
  if shown then fmt.Sprintf_f 2 r else "".

(** a rate field is present exactly when [shown], and then holds the
    two-decimal rendering of the rate *)
Definition rate_field (field : string) (shown : bool) (r : float) : Prop :=
  (field ≠ "" ↔ shown = true) ∧ (shown = true → field = fmt.Sprintf_f 2 r).

(** a node that reports 3xx responses but no [httpIn] rate *)
Definition node_3xx_only : graph.Node.t :=
  {| graph.Node.ID := "wl_ns1_reviews";
     graph.Node.NodeType := graph.NodeTypeWorkload;
     graph.Node.Namespace := "ns1";
     graph.Node.Workload := "reviews";
     graph.Node.App := "reviews";
     graph.Node.Version := "v1";
     graph.Node.Service := "";
     graph.Node.Edges := [];
     graph.Node.Metadata := {[ "httpIn3xx" := VFloat64 1%float ]} |}.

(** a node with inbound and outbound traffic *)
Definition node_busy : graph.Node.t :=
  {| graph.Node.ID := "wl_ns1_ratings";
     graph.Node.NodeType := graph.NodeTypeWorkload;
     graph.Node.Namespace := "ns1";
     graph.Node.Workload := "ratings";
     graph.Node.App := "ratings";
     graph.Node.Version := "v1";
     graph.Node.Service := "";
     graph.Node.Edges := [];
     graph.Node.Metadata :=
       {[ "httpIn" := VFloat64 12.5%float; "httpIn4xx" := VFloat64 0.25%float;
          "httpOut" := VFloat64 0%float; "isRoot" := VBool true ]} |}.

(** ** Edge records *)

(** the id of an edge record and the ids of its end points *)
Definition edge_ids (ed : EdgeData.t) :=
  (EdgeData.Id ed, EdgeData.Source ed, EdgeData.Target ed).

(** the protocol label of an edge: empty when the key is absent or nil *)
Definition protocol_of (md : gmap string value) : string :=
  match md !! "protocol" with
  | Some (VString s) => s
  | _ => ""
  end.

(** ** A sample traffic map *)

Definition sample_node (id ns wl app ver : string) (es : list graph.Edge.t)
    (md : gmap string value) : graph.Node.t :=
  {| graph.Node.ID := id; graph.Node.NodeType := graph.NodeTypeWorkload;
     graph.Node.Namespace := ns; graph.Node.Workload := wl;
     graph.Node.App := app; graph.Node.Version := ver;
     graph.Node.Service := ""; graph.Node.Edges := es;
     graph.Node.Metadata := md |}.

(** productpage -> reviews, 10 of the 12.5 requests per second it sends *)
Definition edge_reviews : graph.Edge.t :=
  {| graph.Edge.Source := 1%nat; graph.Edge.Dest := 2%nat;
     graph.Edge.Metadata :=
       {[ "protocol" := VString "http"; "http" := VFloat64 10%float;
          "http4xx" := VFloat64 1%float; "responseTime" := VFloat64 20%float ]} |}.

(** productpage -> details, the other 2.5 *)
Definition edge_details : graph.Edge.t :=
  {| graph.Edge.Source := 1%nat; graph.Edge.Dest := 3%nat;
     graph.Edge.Metadata :=
       {[ "protocol" := VString "http"; "http" := VFloat64 2.5%float ]} |}.

(** a second productpage -> details edge with the same protocol *)
Definition edge_details_again : graph.Edge.t :=
  {| graph.Edge.Source := 1%nat; graph.Edge.Dest := 3%nat;
     graph.Edge.Metadata :=
       {[ "protocol" := VString "http"; "isMTLS" := VBool true ]} |}.

(** reviews -> ratings, all 5 requests per second reviews sends *)
Definition edge_ratings : graph.Edge.t :=
  {| graph.Edge.Source := 2%nat; graph.Edge.Dest := 4%nat;
     graph.Edge.Metadata := {[ "http" := VFloat64 5%float ]} |}.

(** details -> ratings, declared but without traffic *)
Definition edge_idle : graph.Edge.t :=
  {| graph.Edge.Source := 3%nat; graph.Edge.Dest := 4%nat;
     graph.Edge.Metadata := ∅ |}.

Definition productpage : graph.Node.t :=
  sample_node "wl_bookinfo_productpage-v1" "bookinfo" "productpage-v1"
    "productpage" "v1" [edge_reviews; edge_details; edge_details_again]
    {[ "httpOut" := VFloat64 12.5%float; "isRoot" := VBool true ]}.

Definition reviews : graph.Node.t :=
  sample_node "wl_bookinfo_reviews-v1" "bookinfo" "reviews-v1" "reviews" "v1"
    [edge_ratings]
    {[ "httpIn" := VFloat64 10%float; "httpIn4xx" := VFloat64 1%float;
       "httpOut" := VFloat64 5%float ]}.

Definition details : graph.Node.t :=
  sample_node "wl_bookinfo_details-v1" "bookinfo" "details-v1" "details" "v1"
    [edge_idle]
    {[ "httpIn" := VFloat64 2.5%float; "isUnused" := VBool true ]}.

Definition ratings : graph.Node.t :=
  sample_node "wl_bookinfo_ratings-v1" "bookinfo" "ratings-v1" "ratings" "v1"
    [] {[ "httpIn" := VFloat64 5%float ]}.

Definition bookinfo_heap : graph.Heap :=
  {[ 1%nat := productpage; 2%nat := reviews; 3%nat := details;
     4%nat := ratings ]}.

Definition bookinfo : gmap string graph.loc :=
  {[ "wl_bookinfo_productpage-v1" := 1%nat; "wl_bookinfo_reviews-v1" := 2%nat;
     "wl_bookinfo_details-v1" := 3%nat; "wl_bookinfo_ratings-v1" := 4%nat ]}.

Definition sample_options (groupBy graphType : string)
  : options.VendorOptions.t :=
  {| options.VendorOptions.GroupBy := groupBy;
     options.VendorOptions.GraphType := graphType;
     options.VendorOptions.QueryTime := 1523364075;
     options.VendorOptions.Duration := 600 * time.Second |}.

(** ** Orders given by a three-way comparison *)

Class CmpOrder {K : Type} (cmp : K → K → comparison) : Prop := {
  cmp_eq a b : cmp a b = Eq → a = b;
  cmp_refl a : cmp a a = Eq;
  cmp_antisym a b : cmp a b = CompOpp (cmp b a);
  cmp_trans a b c : cmp a b = Lt → cmp b c = Lt → cmp a c = Lt
}.

Definition lt_of (c : comparison) : bool :=
  match c with Lt => true | _ => false end.

(** lexicographic comparison of pairs *)
Definition lex_cmp {K1 K2} (c1 : K1 → K1 → comparison)
    (c2 : K2 → K2 → comparison) (a b : K1 * K2) : comparison :=
  match c1 a.1 b.1 with
  | Eq => c2 a.2 b.2
  | c => c
  end.

(** the "less" that compares two elements by their keys *)
Definition keyed_less {A K : Type} (cmp : K → K → comparison) (key : A → K)
    (a b : A) : bool :=
  lt_of (cmp (key a) (key b)).

Definition node_key (nd : NodeData.t) :=
  (NodeData.Namespace nd, (NodeData.IsGroup nd, (NodeData.App nd,
   (NodeData.Version nd, (NodeData.Service nd, NodeData.Workload nd))))).

Definition node_cmp :=
  lex_cmp String.compare (lex_cmp (flip String.compare)
    (lex_cmp String.compare (lex_cmp String.compare
      (lex_cmp String.compare String.compare)))).

Definition edge_key (ed : EdgeData.t) :=
  (EdgeData.Source ed, EdgeData.Target ed).

Definition edge_cmp := lex_cmp String.compare String.compare.

(** ** Running [buildConfig] on a well-typed graph *)

(** the switch of [NewConfig] that adds compound nodes *)
Definition compound (it : MapRange) (o : options.VendorOptions.t)
    (nodes : list NodeData.t) : list NodeData.t :=
  if String.eqb (options.VendorOptions.GroupBy o) options.GroupByApp then
    if negb (String.eqb (options.VendorOptions.GraphType o)
               graph.GraphTypeService)
    then groupByApp it nodes else nodes
  else if String.eqb (options.VendorOptions.GroupBy o)
            options.GroupByVersion then
    if String.eqb (options.VendorOptions.GraphType o)
         graph.GraphTypeVersionedApp
    then groupByVersion it nodes else nodes
  else nodes.

(** the document [NewConfig] assembles from the node and edge slices *)
Definition document (srt : Sorter) (o : options.VendorOptions.t)
    (nodes : list NodeData.t) (edges : list EdgeData.t) : Config.t :=
  {| Config.Duration :=
       time.int64_of_float64 (time.Seconds (options.VendorOptions.Duration o));
     Config.Timestamp := options.VendorOptions.QueryTime o;
     Config.GraphType := options.VendorOptions.GraphType o;
     Config.Elements :=
       {| Elements.Nodes := sort_Slice srt node_less nodes;
          Elements.Edges := sort_Slice srt edge_less edges |} |}.

(** the record emitted for an entry of the traffic map *)
Definition built_from (h : graph.Heap) (entry : string * graph.loc)
    (nd : NodeData.t) : Prop :=
  ∃ n, h !! entry.2 = Some n
    ∧ buildNode entry.1 n = Return nd
    ∧ key_fields nd =
        (nodeHash entry.1, "", graph.Node.NodeType n, graph.Node.Namespace n,
         graph.Node.Workload n, graph.Node.App n, graph.Node.Version n,
         graph.Node.Service n, "").

(** the node record [buildConfig] emits for an entry of the traffic map *)
Definition node_record (h : graph.Heap) (entry : string * graph.loc)
  : NodeData.t :=
  match h !! entry.2 with
  | Some n =>
      match buildNode entry.1 n with
      | Return nd => nd
      | Panic => NodeData.zero
      end
  | None => NodeData.zero
  end.

(** the edge record [buildConfig] emits for edge [e] of node [n] *)
Definition edge_record (h : graph.Heap) (o : options.VendorOptions.t)
    (n : graph.Node.t) (e : graph.Edge.t) : EdgeData.t :=
  match (run (buildEdge n e o) h).1 with
  | Return ed => ed
  | Panic => EdgeData.zero
  end.

(** the edge records of an entry of the traffic map, in the order of the
    node's edge list *)
Definition edge_records (h : graph.Heap) (o : options.VendorOptions.t)
    (entry : string * graph.loc) : list EdgeData.t :=
  match h !! entry.2 with
  | Some n => map (edge_record h o n) (graph.Node.Edges n)
  | None => []
  end.

(** a node whose [httpIn] rate was stored as a string *)
Definition mistyped_node : graph.Node.t :=
  sample_node "wl_bookinfo_reviews-v1" "bookinfo" "reviews-v1" "reviews" "v1"
    [] {[ "httpIn" := VString "12.5"; "isRoot" := VBool true ]}.

Definition mistyped_heap : graph.Heap := {[ 1%nat := mistyped_node ]}.

Definition mistyped : gmap string graph.loc :=
  {[ "wl_bookinfo_reviews-v1" := 1%nat ]}.

(** ** The grouping pass *)

(** the key under which [groupByApp] and [groupByVersion] box a node *)
Definition box_key (nd : NodeData.t) : string :=
  fmt.Sprintf_box (NodeData.Namespace nd) (NodeData.App nd).

Arguments box_key : simpl never.

(** a record with its parent reference cleared: two records that differ
    in [Parent] at most have the same [unparent] *)
Definition unparent (nd : NodeData.t) : NodeData.t := NodeData.set_Parent "" nd.

(** the arena after [n.Parent = nodeId] for every member *)
Definition set_parents (nodeId : string) (members : list nat)
    (nodes : list NodeData.t) : list NodeData.t :=
  fold_left (fun l i => alter (NodeData.set_Parent nodeId) i l) members nodes.

(** what identifies a compound node *)
Definition group_view (nd : NodeData.t) :=
  (NodeData.Id nd, NodeData.IsGroup nd, NodeData.Namespace nd,
   NodeData.App nd, NodeData.Parent nd).

Definition big (members : list nat) : bool := (1 <? length members)%nat.

(** the node a member list starts with, as [generateGroupCompoundNodes]
    reads it for the compound node's namespace and app *)
Definition first_member (nodes : list NodeData.t) (members : list nat)
  : NodeData.t :=
  default NodeData.zero (head members ≫= (nodes !!.)).

(** the parent reference of arena slot [i] after the loop of
    [generateGroupCompoundNodes] has visited [entries] *)
Definition parent_after (entries : list (string * list nat)) (i : nat)
    (p : string) : string :=
  fold_left (fun p (entry : string * list nat) =>
               if big entry.2 && bool_decide (i ∈ entry.2)
               then nodeHash entry.1 else p) entries p.

(** the compound nodes the loop appends for [entries] *)
Definition group_views (nodes : list NodeData.t) (groupBy : string)
    (entries : list (string * list nat)) :=
  flat_map (fun entry : string * list nat =>
              if big entry.2
              then [(nodeHash entry.1, groupBy,
                     NodeData.Namespace (first_member nodes entry.2),
                     NodeData.App (first_member nodes entry.2), "")]
              else []) entries.

(** the state of the [nodes] slice after the entries [visited] *)
Definition grouped (nodes : list NodeData.t) (groupBy : string)
    (visited : list (string * list nat)) (cur : list NodeData.t) : Prop :=
  (∀ i, (i < length nodes)%nat →
        cur !! i =
        (fun x => NodeData.set_Parent
                    (parent_after visited i (NodeData.Parent x)) x)
          <$> nodes !! i)
  ∧ map group_view (drop (length nodes) cur) = group_views nodes groupBy visited.

(** member lists point into the arena *)
Definition members_in_arena (n : nat) (entries : list (string * list nat))
  : Prop :=
  Forall (fun entry : string * list nat => Forall (fun i => (i < n)%nat) entry.2)
    entries.

(** the arena slots, from [i] on, of the nodes [keep] selects under key [k] *)
Fixpoint members (keep : NodeData.t → bool) (k : string) (i : nat)
    (nodes : list NodeData.t) : list nat :=
  match nodes with
  | [] => []
  | nd :: rest =>
      if keep nd && String.eqb (box_key nd) k
      then i :: members keep k (S i) rest
      else members keep k (S i) rest
  end.

Definition view_key (v : string * string * string * string * string) : string :=
  fmt.Sprintf_box v.1.1.2 v.1.2.

(** the nodes [groupByApp] boxes: those with an app other than "unknown" *)
Definition app_candidate (nd : NodeData.t) : bool :=
  negb (String.eqb (NodeData.App nd) "unknown")
  && negb (String.eqb (NodeData.App nd) "").

(** the nodes [groupByVersion] boxes: those of type app *)
Definition version_candidate (nd : NodeData.t) : bool :=
  String.eqb (NodeData.NodeType nd) graph.NodeTypeApp.

(** what the grouping pass does for each candidate key [k], where the
    members of [k] are the slots of [nodes] whose record is a candidate
    with box key [k], and the appended records are those of [result] past
    the length of [nodes] *)
Definition grouping_cardinality (keep : NodeData.t → bool) (groupBy : string)
    (nodes result : list NodeData.t) : Prop :=
  ∀ k,
    let ms := members keep k 0 nodes in
    let appended := drop (length nodes) result in
    (length ms = 1%nat →
       filter (fun g => box_key g = k) appended = []
       ∧ ∀ i, i ∈ ms → result !! i = nodes !! i)
    ∧ ((2 ≤ length ms)%nat →
       ∃ g, filter (fun g => box_key g = k) appended = [g]
         ∧ NodeData.Id g = nodeHash k
         ∧ NodeData.IsGroup g = groupBy
         ∧ ∀ i, i ∈ ms → NodeData.Parent <$> result !! i = Some (NodeData.Id g)).

(** two versions of the reviews app *)
Definition reviews_v1 : graph.Node.t :=
  {| graph.Node.ID := "vapp_bookinfo_reviews_v1";
     graph.Node.NodeType := graph.NodeTypeApp;
     graph.Node.Namespace := "bookinfo"; graph.Node.Workload := "reviews-v1";
     graph.Node.App := "reviews"; graph.Node.Version := "v1";
     graph.Node.Service := ""; graph.Node.Edges := [];
     graph.Node.Metadata := {[ "hasMissingSC" := VBool true ]} |}.

Definition reviews_v2 : graph.Node.t :=
  {| graph.Node.ID := "vapp_bookinfo_reviews_v2";
     graph.Node.NodeType := graph.NodeTypeApp;
     graph.Node.Namespace := "bookinfo"; graph.Node.Workload := "reviews-v2";
     graph.Node.App := "reviews"; graph.Node.Version := "v2";
     graph.Node.Service := ""; graph.Node.Edges := [];
     graph.Node.Metadata := ∅ |}.

Definition reviews_heap : graph.Heap :=
  {[ 1%nat := reviews_v1; 2%nat := reviews_v2 ]}.

Definition reviews_versions : gmap string graph.loc :=
  {[ "vapp_bookinfo_reviews_v1" := 1%nat;
     "vapp_bookinfo_reviews_v2" := 2%nat ]}.

(** what tells a node record's place in the grouping *)
Definition grouping_fields (nd : NodeData.t) :=
  (NodeData.Namespace nd, NodeData.App nd, NodeData.Version nd,
   NodeData.IsGroup nd, NodeData.Parent nd).

(** ** Inputs on which the output depends on the order of [range] *)

(** one workload recorded under two ids: the two records agree on every
    field the node sort compares *)
Definition twin_a : graph.Node.t :=
  sample_node "wl_bookinfo_reviews-v1" "bookinfo" "reviews-v1" "reviews" "v1"
    [] ∅.

Definition twin_b : graph.Node.t :=
  sample_node "vapp_bookinfo_reviews_v1" "bookinfo" "reviews-v1" "reviews"
    "v1" [] ∅.

Definition twin_heap : graph.Heap := {[ 1%nat := twin_a; 2%nat := twin_b ]}.

Definition twins : gmap string graph.loc :=
  {[ "wl_bookinfo_reviews-v1" := 1%nat; "vapp_bookinfo_reviews_v1" := 2%nat ]}.

(** two nodes whose namespace and app differ but format to one box key,
    [box_a_b_c] *)
Definition clash_outer : graph.Node.t :=
  sample_node "wl_a_b_c-v1" "a_b" "c-v1" "c" "v1" [] ∅.

Definition clash_inner : graph.Node.t :=
  sample_node "wl_a_b_c-v1-2" "a" "b_c-v1" "b_c" "v1" [] ∅.

Definition clash_heap : graph.Heap :=
  {[ 1%nat := clash_outer; 2%nat := clash_inner ]}.

Definition clash : gmap string graph.loc :=
  {[ "wl_a_b_c-v1" := 1%nat; "wl_a_b_c-v1-2" := 2%nat ]}.

(** a node record by id, namespace, group marker and parent *)
Definition placement (nd : NodeData.t) :=
  (NodeData.Id nd, NodeData.Namespace nd, NodeData.IsGroup nd,
   NodeData.Parent nd).

(** ** The compound nodes in full *)

(** the three flags a compound node gathers from its members *)
Definition flags (nd : NodeData.t) : bool * bool * bool :=
  (NodeData.HasMissingSC nd, NodeData.IsInaccessible nd, NodeData.IsOutside nd).

(** the compound node after or-ing in the flags of the members *)
Definition or_flags (fs : list (bool * bool * bool)) (nd : NodeData.t)
  : NodeData.t :=
  fold_left (fun nd f =>
               NodeData.set_IsOutside (NodeData.IsOutside nd || f.2)
                 (NodeData.set_IsInaccessible
                    (NodeData.IsInaccessible nd || f.1.2)
                    (NodeData.set_HasMissingSC
                       (NodeData.HasMissingSC nd || f.1.1) nd)))
    fs nd.

(** the compound node of key [k]: namespace and app of the first member,
    flags of all members *)
Definition compound_node (groupBy k : string) (first : NodeData.t)
    (fs : list (bool * bool * bool)) : NodeData.t :=
  {| NodeData.Id := nodeHash k;
     NodeData.Parent := "";
     NodeData.NodeType := graph.NodeTypeApp;
     NodeData.Namespace := NodeData.Namespace first;
     NodeData.Workload := "";
     NodeData.App := NodeData.App first;
     NodeData.Version := "";
     NodeData.Service := "";
     NodeData.DestServices := ∅;
     NodeData.HttpIn := ""; NodeData.HttpIn3xx := "";
     NodeData.HttpIn4xx := ""; NodeData.HttpIn5xx := "";
     NodeData.HttpOut := ""; NodeData.TcpIn := "";
     NodeData.TcpOut := ""; NodeData.HasCB := false;
     NodeData.HasMissingSC := existsb (fun f => f.1.1) fs;
     NodeData.HasVS := false;
     NodeData.IsDead := false; NodeData.IsGroup := groupBy;
     NodeData.IsInaccessible := existsb (fun f => f.1.2) fs;
     NodeData.IsMisconfigured := "";
     NodeData.IsOutside := existsb (fun f : bool * bool * bool => f.2) fs;
     NodeData.IsRoot := false; NodeData.IsServiceEntry := "";
     NodeData.IsUnused := false |}.

Definition slot_flags (nodes : list NodeData.t) (i : nat) : bool * bool * bool :=
  flags (default NodeData.zero (nodes !! i)).

(** the compound nodes appended for the entries visited *)
Definition compound_nodes (nodes : list NodeData.t) (groupBy : string)
    (entries : list (string * list nat)) : list NodeData.t :=
  flat_map (fun entry : string * list nat =>
              if big entry.2
              then [compound_node groupBy entry.1
                      (first_member nodes entry.2)
                      (map (slot_flags nodes) entry.2)]
              else []) entries.

(** the records [keep] selects under key [k] *)
Definition boxed (keep : NodeData.t → bool) (k : string)
    (nodes : list NodeData.t) : list NodeData.t :=
  List.filter (fun nd => keep nd && String.eqb (box_key nd) k) nodes.

(** a key with two members or more *)
Definition crowded (keep : NodeData.t → bool) (nodes : list NodeData.t)
    (k : string) : bool :=
  (1 <? length (boxed keep k nodes))%nat.

(** the compound node of key [k] *)
Definition box_of (keep : NodeData.t → bool) (groupBy : string)
    (nodes : list NodeData.t) (k : string) : NodeData.t :=
  compound_node groupBy k (default NodeData.zero (head (boxed keep k nodes)))
    (map flags (boxed keep k nodes)).

(** a record after the grouping pass *)
Definition put_in_box (keep : NodeData.t → bool) (nodes : list NodeData.t)
    (nd : NodeData.t) : NodeData.t :=
  if keep nd && crowded keep nodes (box_key nd)
  then NodeData.set_Parent (nodeHash (box_key nd)) nd
  else nd.

(** the keys of the compound nodes, in the order the map range gave *)
Definition box_keys (keep : NodeData.t → bool) (it : MapRange)
    (nodes : list NodeData.t) : list string :=
  List.filter (crowded keep nodes) (range it (collect keep 0 nodes ∅)).*1.

(** ** The grouping pass and the order of the slice *)

(** records with the same box key have the same namespace and app *)
Definition same_box (nodes : list NodeData.t) : Prop :=
  ∀ x y, x ∈ nodes → y ∈ nodes → box_key x = box_key y →
         NodeData.Namespace x = NodeData.Namespace y
         ∧ NodeData.App x = NodeData.App y.

Definition unambiguous (nodes : list NodeData.t) : bool :=
  forallb (fun x =>
    forallb (fun y =>
      implb (String.eqb (box_key x) (box_key y))
        (String.eqb (NodeData.Namespace x) (NodeData.Namespace y)
         && String.eqb (NodeData.App x) (NodeData.App y))) nodes) nodes.

(** a document in which the sort had no choice: no two node records agree
    on all the fields the node comparison reads, no two edge records on
    source and target, and node records with the same box key have the
    same namespace and app *)
Definition tie_free (cfg : Config.t) : bool :=
  let nodes := Elements.Nodes (Config.Elements cfg) in
  let edges := Elements.Edges (Config.Elements cfg) in
  bool_decide (NoDup (map node_key nodes))
  && bool_decide (NoDup (map edge_key edges))
  && unambiguous nodes.

(** ** Panics *)

(** whether a run ended in a panic *)
Definition panics {A} (r : outcome A * graph.Heap) : bool :=
  match r.1 with
  | Panic => true
  | Return _ => false
  end.

(** whether the body of the loop of [buildConfig] panics on [entry] *)
Definition entry_panics (h : graph.Heap) (o : options.VendorOptions.t)
    (entry : string * graph.loc) : bool :=
  panics (run (buildConfig_loop [entry] [] [] o) h).

(** the node keys [buildConfig] reads on every node, with the types it
    asserts; the three per-status rates are read only when [httpIn] is
    greater than zero *)
Definition node_always : list (string * ty) :=
  [ ("httpIn", TFloat64); ("httpOut", TFloat64); ("tcpIn", TFloat64);
    ("tcpOut", TFloat64); ("isDead", TBool); ("isRoot", TBool);
    ("isUnused", TBool); ("isInaccessible", TBool); ("hasCB", TBool);
    ("hasVS", TBool); ("hasMissingSC", TBool); ("isMisconfigured", TString);
    ("isOutside", TBool); ("destServices", TMapStringBool);
    ("isServiceEntry", TString) ].

(** a traffic map with a node whose [httpIn] is a string and a well-typed
    node *)
Definition mixed_heap : graph.Heap :=
  {[ 1%nat := mistyped_node; 2%nat := node_busy ]}.

Definition mixed : gmap string graph.loc :=
  {[ "wl_bookinfo_reviews-v1" := 1%nat; "wl_ns1_ratings" := 2%nat ]}.

(** a traffic map whose one node has an edge to a destination that is
    nil *)
Definition dangling_edge : graph.Edge.t :=
  {| graph.Edge.Source := 1%nat; graph.Edge.Dest := 7%nat;
     graph.Edge.Metadata := ∅ |}.

Definition dangling_heap : graph.Heap :=
  {[ 1%nat := sample_node "wl_bookinfo_reviews-v1" "bookinfo" "reviews-v1"
                "reviews" "v1" [dangling_edge] ∅ ]}.

Definition dangling : gmap string graph.loc :=
  {[ "wl_bookinfo_reviews-v1" := 1%nat ]}.

(** a node without [httpIn] whose 3xx rate was stored as a string *)
Definition node_3xx_text : graph.Node.t :=
  sample_node "wl_bookinfo_reviews-v1" "bookinfo" "reviews-v1" "reviews" "v1"
    [] {[ "httpIn3xx" := VString "1.0"; "httpOut" := VFloat64 2%float ]}.

(** ** The records of the document *)

(** a record that is not a compound node *)
Definition plain (nd : NodeData.t) : bool := String.eqb (NodeData.IsGroup nd) "".

(** whether the switch of [NewConfig] calls a grouping pass *)
Definition groups (o : options.VendorOptions.t) : bool :=
  if String.eqb (options.VendorOptions.GroupBy o) options.GroupByApp then
    negb (String.eqb (options.VendorOptions.GraphType o) graph.GraphTypeService)
  else if String.eqb (options.VendorOptions.GroupBy o) options.GroupByVersion
  then String.eqb (options.VendorOptions.GraphType o)
         graph.GraphTypeVersionedApp
  else false.

(** the records of the document that name [g] as their parent *)
Definition children (g : NodeData.t) (nodes : list NodeData.t)
  : list NodeData.t :=
  List.filter (fun x => String.eqb (NodeData.Parent x) (NodeData.Id g)
                        && plain x) nodes.

(** every entry of the traffic map is keyed by the id of its node *)
Definition keyed_by_id (h : graph.Heap) (trafficMap : gmap string graph.loc)
  : bool :=
  forallb (fun entry : string * graph.loc =>
             match h !! entry.2 with
             | Some n => String.eqb (graph.Node.ID n) entry.1
             | None => false
             end) (map_to_list trafficMap).

(** the destination of every edge is a node whose id is a key of the
    traffic map *)
Definition dests_in_map (h : graph.Heap) (trafficMap : gmap string graph.loc)
  : bool :=
  forallb (fun entry : string * graph.loc =>
             match h !! entry.2 with
             | Some n =>
                 forallb (fun e =>
                            match h !! graph.Edge.Dest e with
                            | Some dst =>
                                bool_decide
                                  (is_Some (trafficMap !! graph.Node.ID dst))
                            | None => false
                            end) (graph.Node.Edges n)
             | None => false
             end) (map_to_list trafficMap).

(** [id] is the id of a plain node record of [nodes] *)
Definition node_id_of (nodes : list NodeData.t) (id : string) : Prop :=
  ∃ nd, nd ∈ nodes ∧ NodeData.IsGroup nd = "" ∧ NodeData.Id nd = id.

(** ** The compound nodes *)

(** what a compound node holds, given the candidates [ms] of its key [k]
    in slice order *)
Definition compound_of (groupBy k : string) (ms : list NodeData.t)
    (g : NodeData.t) : Prop :=
  (2 ≤ length ms)%nat
  ∧ key_fields g =
      (nodeHash k, "", graph.NodeTypeApp,
       NodeData.Namespace (default NodeData.zero (head ms)), "",
       NodeData.App (default NodeData.zero (head ms)), "", "", groupBy)
  ∧ rate_fields g = ("", "", "", "", "", "", "")
  ∧ NodeData.HasMissingSC g = existsb NodeData.HasMissingSC ms
  ∧ NodeData.IsInaccessible g = existsb NodeData.IsInaccessible ms
  ∧ NodeData.IsOutside g = existsb NodeData.IsOutside ms
  ∧ (NodeData.HasCB g, NodeData.HasVS g, NodeData.IsDead g, NodeData.IsRoot g,
     NodeData.IsUnused g, NodeData.IsMisconfigured g,
     NodeData.IsServiceEntry g, NodeData.DestServices g)
    = (false, false, false, false, false, "", "", ∅).

(** ** The fields of the records *)

(** the number under key [k]: [None] when the key is absent *)
Definition number (md : gmap string value) (k : string) : option float :=
  match md !! k with
  | Some (VFloat64 f) => Some f
  | _ => None
  end.

(** the string under key [k]: [None] when the key is absent *)
Definition text (md : gmap string value) (k : string) : option string :=
  match md !! k with
  | Some (VString s) => Some s
  | _ => None
  end.

(** the set of services under key [k]: [None] when the key is absent *)
Definition services (md : gmap string value) (k : string)
  : option (gmap string bool) :=
  match md !! k with
  | Some (VMapStringBool m) => Some m
  | _ => None
  end.

(** a field that is present exactly when [shown], and then holds [x]
    rendered with [p] decimals *)
Definition formatted (p : nat) (field : string) (shown : bool) (x : float)
  : Prop :=
  (field ≠ "" ↔ shown = true) ∧ (shown = true → field = fmt.Sprintf_f p x).

(** the telemetry fields of an edge record *)
Definition edge_telemetry (ed : EdgeData.t) :=
  (EdgeData.Http ed, EdgeData.Http3xx ed, EdgeData.Http4xx ed,
   EdgeData.Http5xx ed, EdgeData.HttpPercentErr ed, EdgeData.ResponseTime ed,
   EdgeData.IsMTLS ed, EdgeData.Tcp ed).

(** the flags and labels of a node record, in the order [buildConfig]
    sets them *)
Definition node_flags (nd : NodeData.t) :=
  (NodeData.IsDead nd, NodeData.IsRoot nd, NodeData.IsUnused nd,
   NodeData.IsInaccessible nd, NodeData.HasCB nd, NodeData.HasVS nd,
   NodeData.HasMissingSC nd, NodeData.IsMisconfigured nd,
   NodeData.IsOutside nd, NodeData.DestServices nd,
   NodeData.IsServiceEntry nd).

Arguments number : simpl never.
Arguments text : simpl never.
Arguments services : simpl never.

(** ** The ids *)

Definition is_hex (c : ascii) : bool :=
  existsb (Ascii.eqb c) (list_ascii_of_string "0123456789abcdef").

(** a string of 32 lowercase hexadecimal digits *)
Definition hex32 (s : string) : Prop :=
  String.length s = 32%nat
  ∧ forallb is_hex (list_ascii_of_string s) = true.

(** ** Version grouping in the document *)

(** the plain records of [nodes] that [groupByVersion] boxes under key
    [k]: those of node type app whose namespace and app give [k] *)
Definition versions_of (k : string) (nodes : list NodeData.t)
  : list NodeData.t :=
  List.filter (fun x => plain x && version_candidate x
                        && String.eqb (box_key x) k) nodes.

(** ** Keys read on every edge *)

(** the edge keys [buildConfig] reads on every edge, with the types it
    asserts; the per-status rates and the response time are read only
    when [http] is greater than zero *)
Definition edge_always : list (string * ty) :=
  [ ("protocol", TStringOrNil); ("http", TFloat64); ("isMTLS", TBool);
    ("tcp", TFloat64) ].

(** a traffic map whose one node has an edge with a number for
    [isMTLS] *)
Definition mtls_edge : graph.Edge.t :=
  {| graph.Edge.Source := 1%nat; graph.Edge.Dest := 1%nat;
     graph.Edge.Metadata := {[ "isMTLS" := VFloat64 1%float ]} |}.

Definition mtls_node : graph.Node.t :=
  sample_node "wl_bookinfo_reviews-v1" "bookinfo" "reviews-v1" "reviews" "v1"
    [mtls_edge] ∅.

Definition mtls_heap : graph.Heap := {[ 1%nat := mtls_node ]}.

Definition mtls : gmap string graph.loc :=
  {[ "wl_bookinfo_reviews-v1" := 1%nat ]}.

(** ** The type assertions a run makes *)

(** the type assertion on the value under key [k] passes: the key is
    absent, so that nothing is asserted, or it holds a value of type [t] *)
Definition passes (md : gmap string value) (k : string) (t : ty) : bool :=
  match md !! k with
  | Some v => has_type t v
  | None => true
  end.

(** every assertion made while the record of a node is built passes: those
    on the keys read on every node and, when [httpIn] is greater than
    zero, those on the per-status rates *)
Definition node_reads_ok (md : gmap string value) : bool :=
  conforms node_always md
  && (if gt0 (rate md "httpIn")
      then passes md "httpIn3xx" TFloat64 && passes md "httpIn4xx" TFloat64
           && passes md "httpIn5xx" TFloat64
      else true).

(** every read made while the record of an edge is built succeeds: source
    and destination are not nil, the assertions on the keys read on every
    edge pass and, when [http] is greater than zero, those on the
    per-status rates, the response time and the [httpOut] of the source,
    otherwise that on the [isUnused] of the source *)
Definition edge_reads_ok (h : graph.Heap) (e : graph.Edge.t) : bool :=
  let md := graph.Edge.Metadata e in
  bool_decide (is_Some (h !! graph.Edge.Dest e))
  && conforms edge_always md
  && match h !! graph.Edge.Source e with
     | Some src =>
         if gt0 (rate md "http")
         then passes md "http3xx" TFloat64 && passes md "http4xx" TFloat64
              && passes md "http5xx" TFloat64
              && passes md "responseTime" TFloat64
              && passes (graph.Node.Metadata src) "httpOut" TFloat64
         else passes (graph.Node.Metadata src) "isUnused" TBool
     | None => false
     end.

(** the node of the entry is not nil and every read made on it and on its
    edges succeeds *)
Definition entry_reads_ok (h : graph.Heap) (entry : string * graph.loc)
  : bool :=
  match h !! entry.2 with
  | Some n =>
      node_reads_ok (graph.Node.Metadata n)
      && forallb (edge_reads_ok h) (graph.Node.Edges n)
  | None => false
  end.

(** every read a run of [NewConfig] makes on the traffic map succeeds *)
Definition reads_ok (h : graph.Heap) (trafficMap : gmap string graph.loc)
  : bool :=
  forallb (entry_reads_ok h) (map_to_list trafficMap).

Arguments passes : simpl never.

(** [r] returns when [ok] and panics otherwise *)
Definition agree {B} (r : outcome B) (ok : bool) : Prop :=
  if ok then ∃ y, r = Return y else r = Panic.

(** the assertions of [addNodeTelemetry], in the order they are made *)
Definition telemetry_reads (md : gmap string value) : bool :=
  passes md "httpIn" TFloat64
  && ((if gt0 (rate md "httpIn")
       then passes md "httpIn3xx" TFloat64
            && (passes md "httpIn4xx" TFloat64
                && (passes md "httpIn5xx" TFloat64 && true))
       else true)
      && (passes md "httpOut" TFloat64
          && (passes md "tcpIn" TFloat64
              && (passes md "tcpOut" TFloat64 && true)))).

(** the assertions of the loop body of [buildConfig] on a node, in the
    order they are made *)
Definition flag_reads (md : gmap string value) : bool :=
  passes md "isDead" TBool
  && (passes md "isRoot" TBool
  && (passes md "isUnused" TBool
  && (passes md "isInaccessible" TBool
  && (passes md "hasCB" TBool
  && (passes md "hasVS" TBool
  && (passes md "hasMissingSC" TBool
  && (passes md "isMisconfigured" TString
  && (passes md "isOutside" TBool
  && (passes md "destServices" TMapStringBool
  && passes md "isServiceEntry" TString))))))))).

(** [m], run on [h], returns when [ok] and panics otherwise, and leaves
    the heap as it was *)
Definition agreeM {B} (m : M B) (h : graph.Heap) (ok : bool) : Prop :=
  if ok then ∃ y, run m h = (Return y, h) else run m h = (Panic, h).

(** the reads of [addEdgeTelemetry], in the order they are made *)
Definition edge_telemetry_reads (h : graph.Heap) (e : graph.Edge.t) : bool :=
  let md := graph.Edge.Metadata e in
  passes md "http" TFloat64
  && ((if gt0 (rate md "http")
       then passes md "http3xx" TFloat64
            && (passes md "http4xx" TFloat64
                && (passes md "http5xx" TFloat64
                    && (passes md "responseTime" TFloat64
                        && match h !! graph.Edge.Source e with
                           | Some src =>
                               passes (graph.Node.Metadata src) "httpOut"
                                 TFloat64 && true
                           | None => false
                           end)))
       else match h !! graph.Edge.Source e with
            | Some src => passes (graph.Node.Metadata src) "isUnused" TBool
            | None => false
            end)
      && (passes md "isMTLS" TBool && (passes md "tcp" TFloat64 && true))).

(** the reads of the body of the loop over the edges, in the order they
    are made *)
Definition edge_reads (h : graph.Heap) (e : graph.Edge.t) : bool :=
  match h !! graph.Edge.Dest e with
  | Some dest =>
      passes (graph.Edge.Metadata e) "protocol" TStringOrNil
      && edge_telemetry_reads h e
  | None => false
  end.

(** a traffic map whose one node has no [httpIn] and a string under
    [httpIn3xx], a key that is then never read *)
Definition unread_heap : graph.Heap := {[ 1%nat := node_3xx_text ]}.

Definition unread : gmap string graph.loc :=
  {[ "wl_bookinfo_reviews-v1" := 1%nat ]}.

(** a node record by id, namespace, app, group marker and parent *)
Definition membership (nd : NodeData.t) :=
  (NodeData.Id nd, NodeData.Namespace nd, NodeData.App nd,
   NodeData.IsGroup nd, NodeData.Parent nd).

(** the plain records of namespace [ns] and app [app] *)
Definition of_app (ns app : string) (nodes : list NodeData.t)
  : list NodeData.t :=
  filter (fun nd => plain nd = true ∧ NodeData.Namespace nd = ns
                    ∧ NodeData.App nd = app) nodes.

(** * Properties *)

(** ** The embedding on known values *)

Example md5_empty : md5.sum_hex "" = "d41d8cd98f00b204e9800998ecf8427e".
Proof. vm_compute. reflexivity. Qed.

Example md5_abc : md5.sum_hex "abc" = "900150983cd24fb0d6963f7d28e17f72".
Proof. vm_compute. reflexivity. Qed.

Example md5_message_digest :
  md5.sum_hex "message digest" = "f96b697d7cb7938d525a2f31aaf161d0".
Proof. vm_compute. reflexivity. Qed.

Example md5_two_blocks :
  md5.sum_hex "aaaaaaaaaaaaaaaaaaaaaaaaaaaaaaaaaaaaaaaaaaaaaaaaaaaaaaaaaaaaaaaa"
  = "014842d480b571495a4a0363793f7367".
Proof. vm_compute. reflexivity. Qed.

Example Sprintf_f_10 : fmt.Sprintf_f 2 10%float = "10.00".
Proof. vm_compute. reflexivity. Qed.

Example Sprintf_f_tie_even : fmt.Sprintf_f 2 0.125%float = "0.12".
Proof. vm_compute. reflexivity. Qed.

Example Sprintf_f_tie_odd : fmt.Sprintf_f 2 0.375%float = "0.38".
Proof. vm_compute. reflexivity. Qed.

Example Sprintf_f_third : fmt.Sprintf_f 1 (1 / 3 * 100)%float = "33.3".
Proof. vm_compute. reflexivity. Qed.

Example Sprintf_f_ms : fmt.Sprintf_f 0 2.5%float = "2".
Proof. vm_compute. reflexivity. Qed.

Example Sprintf_f_neg : fmt.Sprintf_f 1 (-0.0625)%float = "-0.1".
Proof. vm_compute. reflexivity. Qed.

Example Sprintf_f_inf : fmt.Sprintf_f 1 (1 / 0)%float = "+Inf".
Proof. vm_compute. reflexivity. Qed.

Example Seconds_600 : time.int64_of_float64 (time.Seconds 600500000000) = 600.
Proof. vm_compute. reflexivity. Qed.

(** ** Computations and the heap *)

Lemma run_ret {A} (a : A) h : run (mret a) h = (Return a, h).
Proof. reflexivity. Qed.

Lemma run_bind {A B} (m : M A) (f : A → M B) h :
  run (m ≫= f) h =
  match run m h with
  | (Return a, h') => run (f a) h'
  | (Panic, h') => (Panic, h')
  end.
Proof. reflexivity. Qed.

Lemma run_lift {A} (r : outcome A) h : run (lift r) h = (r, h).
Proof. reflexivity. Qed.

Lemma run_load p h :
  run (load p) h = (match h !! p with Some n => Return n | None => Panic end, h).
Proof. unfold load; simpl. destruct (h !! p); reflexivity. Qed.

Lemma preserves_ret {A} (a : A) : preserves_heap (mret a).
Proof. intros h. reflexivity. Qed.

Lemma preserves_lift {A} (r : outcome A) : preserves_heap (lift r).
Proof. intros h. reflexivity. Qed.

Lemma preserves_load p : preserves_heap (load p).
Proof. intros h. rewrite run_load. reflexivity. Qed.

Lemma preserves_bind {A B} (m : M A) (f : A → M B) :
  preserves_heap m → (∀ a, preserves_heap (f a)) → preserves_heap (m ≫= f).
Proof.
  intros Hm Hf h. rewrite run_bind.
  specialize (Hm h). destruct (run m h) as [[a|] h']; simpl in *; subst.
  - apply Hf.
  - reflexivity.
Qed.

Lemma preserves_addEdgeTelemetry ed e o :
  preserves_heap (addEdgeTelemetry ed e o).
Proof.
  unfold addEdgeTelemetry.
  repeat first
    [ apply preserves_bind; [| intros ?]
    | apply preserves_lift | apply preserves_load | apply preserves_ret
    | match goal with |- preserves_heap (if ?c then _ else _) => destruct c end ].
Qed.

Lemma preserves_buildEdge n e o : preserves_heap (buildEdge n e o).
Proof.
  unfold buildEdge. cbv zeta.
  apply preserves_bind; [apply preserves_load | intros dest].
  apply preserves_bind; [apply preserves_lift | intros protocol].
  apply preserves_addEdgeTelemetry.
Qed.

Lemma buildEdges_cons n e es edges o :
  buildEdges n (e :: es) edges o =
  buildEdge n e o ≫= (fun ed => buildEdges n es (edges ++ [ed])%list o).
Proof. reflexivity. Qed.

Lemma buildConfig_loop_cons id p rest nodes edges o :
  buildConfig_loop ((id, p) :: rest) nodes edges o =
  load p ≫= (fun n =>
  lift (buildNode id n) ≫= (fun nd =>
  buildEdges n (graph.Node.Edges n) edges o ≫= (fun edges' =>
  buildConfig_loop rest (nodes ++ [nd])%list edges' o))).
Proof. reflexivity. Qed.

Lemma preserves_buildEdges n es :
  ∀ edges o, preserves_heap (buildEdges n es edges o).
Proof.
  induction es as [|e es IH]; intros edges o.
  - apply preserves_ret.
  - rewrite buildEdges_cons.
    apply preserves_bind; [apply preserves_buildEdge | intros ed; apply IH].
Qed.

Lemma preserves_buildConfig_loop entries :
  ∀ nodes edges o, preserves_heap (buildConfig_loop entries nodes edges o).
Proof.
  induction entries as [|[id p] rest IH]; intros nodes edges o.
  - apply preserves_ret.
  - rewrite buildConfig_loop_cons.
    apply preserves_bind; [apply preserves_load | intros n].
    apply preserves_bind; [apply preserves_lift | intros nd].
    apply preserves_bind; [apply preserves_buildEdges | intros edges'].
    apply IH.
Qed.

(** C9: the transformation leaves the heap of graph nodes, with the edge
    lists and metadata they hold, exactly as it found it, whether it
    returns a document or panics. *)
Theorem NewConfig_preserves_input srt it trafficMap o h :
  (run (NewConfig srt it trafficMap o) h).2 = h.
Proof.
  revert h. change (preserves_heap (NewConfig srt it trafficMap o)).
  unfold NewConfig, buildConfig.
  apply preserves_bind; [apply preserves_buildConfig_loop |].
  intros [nodes edges]. apply preserves_ret.
Qed.

(** ** Reading well-typed metadata *)

Lemma conforms_typed schema md k t :
  conforms schema md = true → In (k, t) schema → typed_at md k t.
Proof.
  unfold conforms. rewrite forallb_forall. intros Hall Hin v Hv.
  specialize (Hall _ Hin). simpl in Hall. rewrite Hv in Hall. exact Hall.
Qed.

Lemma getRate_typed md k :
  typed_at md k TFloat64 → getRate md k = Return (rate md k).
Proof.
  unfold typed_at, getRate, rate. intros H.
  destruct (md !! k) as [v|]; [|reflexivity].
  specialize (H v eq_refl). destruct v; try discriminate. reflexivity.
Qed.

Lemma getRate_untyped md k v :
  md !! k = Some v → has_type TFloat64 v = false → getRate md k = Panic.
Proof.
  unfold getRate. intros -> H. destruct v; try reflexivity. discriminate.
Qed.

Lemma copy_if_present_ok {A T} (P : A → Prop) md k t
    (assert : value → outcome T) (set : T → A → A) (x : A) :
  typed_at md k t →
  (∀ v, has_type t v = true → ∃ w, assert v = Return w) →
  (∀ w a, P a → P (set w a)) →
  P x →
  ∃ y, copy_if_present md k assert set x = Return y ∧ P y.
Proof.
  unfold typed_at, copy_if_present. intros Ht Hassert Hset Hx.
  destruct (md !! k) as [v|]; [|eauto].
  destruct (Hassert v (Ht v eq_refl)) as [w ->]. simpl. eauto.
Qed.

Lemma copy_if_present_bool {A} md k (set : bool → A → A) (x : A) :
  typed_at md k TBool →
  copy_if_present md k assert_bool set x =
  Return (match flag md k with Some b => set b x | None => x end).
Proof.
  unfold typed_at, copy_if_present, flag. intros Ht.
  destruct (md !! k) as [v|]; [|reflexivity].
  specialize (Ht v eq_refl). destruct v; try discriminate. reflexivity.
Qed.

Lemma assert_float64_typed v :
  has_type TFloat64 v = true → ∃ w, assert_float64 v = Return w.
Proof. destruct v; try discriminate; simpl; eauto. Qed.

Lemma assert_bool_typed v :
  has_type TBool v = true → ∃ w, assert_bool v = Return w.
Proof. destruct v; try discriminate; simpl; eauto. Qed.

Lemma assert_string_typed v :
  has_type TString v = true → ∃ w, assert_string v = Return w.
Proof. destruct v; try discriminate; simpl; eauto. Qed.

Lemma assert_map_string_bool_typed v :
  has_type TMapStringBool v = true → ∃ w, assert_map_string_bool v = Return w.
Proof. destruct v; try discriminate; simpl; eauto. Qed.

(** ** Node records *)

Lemma addNodeTelemetry_typed s nd :
  conforms node_schema (graph.Node.Metadata s) = true →
  rate_fields nd = ("", "", "", "", "", "", "") →
  let md := graph.Node.Metadata s in
  let r k := rate md k in
  ∃ nd', addNodeTelemetry s nd = Return nd'
    ∧ key_fields nd' = key_fields nd
    ∧ rate_fields nd' =
        (rate_string (gt0 (r "httpIn")) (r "httpIn"),
         rate_string (gt0 (r "httpIn") && gt0 (r "httpIn3xx")) (r "httpIn3xx"),
         rate_string (gt0 (r "httpIn") && gt0 (r "httpIn4xx")) (r "httpIn4xx"),
         rate_string (gt0 (r "httpIn") && gt0 (r "httpIn5xx")) (r "httpIn5xx"),
         rate_string (gt0 (r "httpOut")) (r "httpOut"),
         rate_string (gt0 (r "tcpIn")) (r "tcpIn"),
         rate_string (gt0 (r "tcpOut")) (r "tcpOut")).
Proof.
  intros Hc Hz md r. unfold addNodeTelemetry. cbv zeta. fold md.
  assert (Hr : ∀ k, In (k, TFloat64) node_schema → getRate md k = Return (r k)).
  { intros k Hin. apply getRate_typed. eapply conforms_typed; eauto. }
  rewrite !Hr by (simpl; tauto).
  unfold rate_fields, key_fields in *.
  injection Hz as H1 H2 H3 H4 H5 H6 H7.
  repeat first
    [ rewrite Hr by (simpl; tauto)
    | progress cbn [mbind outcome_bind]
    | match goal with
      | |- context [if gt0 ?x then _ else _] => destruct (gt0 x)
      end ];
    (eexists; split; [reflexivity|]); simpl;
    rewrite ?H1, ?H2, ?H3, ?H4, ?H5, ?H6, ?H7; split; reflexivity.
Qed.

Ltac copy_step Hc P :=
  match goal with
  | |- context [copy_if_present ?md ?k ?asrt ?set ?x] =>
      let y := fresh "nd" in
      let HP := fresh "HP" in
      let t := match asrt with
               | assert_bool => constr:(TBool)
               | assert_string => constr:(TString)
               | assert_map_string_bool => constr:(TMapStringBool)
               | assert_float64 => constr:(TFloat64)
               end in
      destruct (copy_if_present_ok P md k t asrt set x) as (y & -> & HP);
      [ eapply conforms_typed; [exact Hc | simpl; tauto]
      | first [ exact assert_bool_typed | exact assert_string_typed
              | exact assert_map_string_bool_typed | exact assert_float64_typed ]
      | intros ? ? ?; assumption
      | assumption
      | cbn [mbind outcome_bind] ]
  end.

(** the record [buildConfig] emits for a node with well-typed metadata:
    its identity fields come from the node, its rate fields from the
    node's rates, and it has neither parent nor group marker *)
Lemma buildNode_typed id n :
  conforms node_schema (graph.Node.Metadata n) = true →
  let r k := rate (graph.Node.Metadata n) k in
  ∃ nd, buildNode id n = Return nd
    ∧ key_fields nd =
        (nodeHash id, "", graph.Node.NodeType n, graph.Node.Namespace n,
         graph.Node.Workload n, graph.Node.App n, graph.Node.Version n,
         graph.Node.Service n, "")
    ∧ rate_fields nd =
        (rate_string (gt0 (r "httpIn")) (r "httpIn"),
         rate_string (gt0 (r "httpIn") && gt0 (r "httpIn3xx")) (r "httpIn3xx"),
         rate_string (gt0 (r "httpIn") && gt0 (r "httpIn4xx")) (r "httpIn4xx"),
         rate_string (gt0 (r "httpIn") && gt0 (r "httpIn5xx")) (r "httpIn5xx"),
         rate_string (gt0 (r "httpOut")) (r "httpOut"),
         rate_string (gt0 (r "tcpIn")) (r "tcpIn"),
         rate_string (gt0 (r "tcpOut")) (r "tcpOut")).
Proof.
  intros Hc r. unfold buildNode. cbv zeta.
  match goal with
  | |- context [addNodeTelemetry n ?nd0] =>
      destruct (addNodeTelemetry_typed n nd0 Hc eq_refl) as (nd1 & -> & Hk & Hr)
  end.
  cbn [mbind outcome_bind]. fold r in Hr.
  match type of Hk with _ = ?kf =>
    match type of Hr with _ = ?rf =>
      assert (HP : (fun a => key_fields a = kf ∧ rate_fields a = rf) nd1)
        by (split; assumption);
      repeat copy_step Hc (fun a => key_fields a = kf ∧ rate_fields a = rf)
    end
  end.
  match goal with
  | H : _ ∧ _ |- ∃ nd, Return ?y = Return nd ∧ _ =>
      exists y; split; [reflexivity | exact H]
  end.
Qed.

(** ** Formatted rates are never the empty string *)

Lemma append_empty (a b : string) : a +:+ b = "" → a = "" ∧ b = "".
Proof. destruct a; simpl; [auto | discriminate]. Qed.

Lemma fixed_nonempty (p : nat) (n : Z) : p ≠ O → fmt.fixed p n ≠ "".
Proof.
  intros Hp. destruct p as [|p]; [congruence|]. unfold fmt.fixed.
  intros H. apply append_empty in H as [_ H]. discriminate.
Qed.

Lemma Sprintf_f_nonempty (p : nat) (x : float) :
  p ≠ O → fmt.Sprintf_f p x ≠ "".
Proof.
  intros Hp. unfold fmt.Sprintf_f.
  destruct (Prim2SF x) as [s|s| |s m e]; try destruct s; try discriminate;
    intros H; apply append_empty in H as [_ H];
    exact (fixed_nonempty p _ Hp H).
Qed.

Lemma rate_string_field shown r : rate_field (rate_string shown r) shown r.
Proof.
  unfold rate_field, rate_string. destruct shown.
  - split; [|reflexivity]. split; [reflexivity|].
    intros _. apply Sprintf_f_nonempty. discriminate.
  - split; [|discriminate]. split; [congruence | discriminate].
Qed.

(** C7, as the code has it: for a node with well-typed metadata the
    record is emitted and [httpIn], [httpOut], [tcpIn] and [tcpOut] are
    present, as two-decimal strings, exactly when their rate is greater
    than zero; [httpIn3XX], [httpIn4XX] and [httpIn5XX] are present exactly
    when their own rate and the [httpIn] rate are both greater than zero. *)
Theorem node_rate_fields id n :
  conforms node_schema (graph.Node.Metadata n) = true →
  ∃ nd, buildNode id n = Return nd ∧
    let r k := rate (graph.Node.Metadata n) k in
    rate_field (NodeData.HttpIn nd) (gt0 (r "httpIn")) (r "httpIn")
    ∧ rate_field (NodeData.HttpIn3xx nd)
        (gt0 (r "httpIn") && gt0 (r "httpIn3xx")) (r "httpIn3xx")
    ∧ rate_field (NodeData.HttpIn4xx nd)
        (gt0 (r "httpIn") && gt0 (r "httpIn4xx")) (r "httpIn4xx")
    ∧ rate_field (NodeData.HttpIn5xx nd)
        (gt0 (r "httpIn") && gt0 (r "httpIn5xx")) (r "httpIn5xx")
    ∧ rate_field (NodeData.HttpOut nd) (gt0 (r "httpOut")) (r "httpOut")
    ∧ rate_field (NodeData.TcpIn nd) (gt0 (r "tcpIn")) (r "tcpIn")
    ∧ rate_field (NodeData.TcpOut nd) (gt0 (r "tcpOut")) (r "tcpOut").
Proof.
  intros Hc. destruct (buildNode_typed id n Hc) as (nd & Hnd & _ & Hr).
  exists nd. split; [exact Hnd|]. cbv zeta.
  unfold rate_fields in Hr.
  injection Hr as -> -> -> -> -> -> ->.
  repeat split; apply rate_string_field.
Qed.

(** C7 as stated fails: the 3xx rate of [node_3xx_only] is greater than
    zero, yet the record has no [httpIn3XX] field. *)
Lemma httpIn3xx_absent_without_httpIn :
  ∃ nd, buildNode "wl_ns1_reviews" node_3xx_only = Return nd
    ∧ gt0 (rate (graph.Node.Metadata node_3xx_only) "httpIn3xx") = true
    ∧ NodeData.HttpIn3xx nd = "".
Proof. eexists. split; [vm_compute; reflexivity|]. split; reflexivity. Qed.

(** [node_rate_fields] at [node_busy] *)
Lemma node_rate_fields_witness :
  conforms node_schema (graph.Node.Metadata node_busy) = true
  ∧ ∃ nd, buildNode "wl_ns1_ratings" node_busy = Return nd
      ∧ NodeData.HttpIn nd = "12.50" ∧ NodeData.HttpIn4xx nd = "0.25"
      ∧ NodeData.HttpIn3xx nd = "" ∧ NodeData.HttpOut nd = "".
Proof.
  split; [reflexivity|].
  destruct (node_rate_fields "wl_ns1_ratings" node_busy eq_refl)
    as (nd & Hnd & _).
  exists nd. split; [exact Hnd|].
  vm_compute in Hnd. injection Hnd as <-.
  repeat split; reflexivity.
Defined.

(** ** float64 facts *)

Lemma div_eucl_self_shift (m : positive) :
  Z.div_eucl (Z.shiftl (Z.pos m) 53) (Z.pos m) = (9007199254740992, 0).
Proof.
  assert (Hq : Z.shiftl (Z.pos m) 53 / Z.pos m = 9007199254740992).
  { rewrite Z.shiftl_mul_pow2 by lia. rewrite Z.mul_comm.
    rewrite Z.div_mul by lia. reflexivity. }
  assert (Hr : Z.shiftl (Z.pos m) 53 mod Z.pos m = 0).
  { rewrite Z.shiftl_mul_pow2 by lia. rewrite Z.mul_comm.
    apply Z.mod_mul. lia. }
  unfold Z.div, Z.modulo in Hq, Hr.
  destruct (Z.div_eucl (Z.shiftl (Z.pos m) 53) (Z.pos m)) as [q r].
  simpl in Hq, Hr. congruence.
Qed.

(** a finite non-zero float divided by itself is exactly 1 *)
Lemma SF64div_self (m : positive) (e : Z) :
  SF64div (S754_finite false m e) (S754_finite false m e)
  = S754_finite false 4503599627370496 (-52).
Proof.
  unfold SF64div, SFdiv, SFdiv_core_binary. cbn [Zdigits2 xorb].
  rewrite !Z.sub_diag.
  change (Z.min (fexp prec emax 0) 0) with (-53).
  change (0 - -53) with 53. cbv beta iota zeta.
  rewrite div_eucl_self_shift.
  assert (Hloc : new_location (Z.pos m) 0 = loc_Exact).
  { unfold new_location, new_location_even, new_location_odd.
    destruct (Z.even (Z.pos m)); reflexivity. }
  rewrite Hloc. vm_compute. reflexivity.
Qed.

(** [x / y * 100] is not below 100 when [x == y] and [x > 0]: it is 100
    for finite rates and NaN for infinite ones *)
Lemma percent_of_equal_rates (x y : float) :
  gt0 x = true → PrimFloat.eqb x y = true →
  PrimFloat.ltb (PrimFloat.mul (PrimFloat.div x y) 100) 100 = false.
Proof.
  unfold gt0.
  rewrite !FloatAxioms.ltb_spec, FloatAxioms.eqb_spec,
    FloatAxioms.mul_spec, FloatAxioms.div_spec.
  change (Prim2SF 0) with (S754_zero false).
  change (Prim2SF 100) with (S754_finite false 7036874417766400 (-46)).
  destruct (Prim2SF x) as [sx|sx| |sx mx ex], (Prim2SF y) as [sy|sy| |sy my ey];
    try destruct sx; try destruct sy; try discriminate; try reflexivity.
  intros _. unfold SFeqb, SFcompare.
  destruct (Z.compare ex ey) eqn:He; try discriminate.
  destruct (Pos.compare_cont Eq mx my) eqn:Hm; try discriminate.
  intros _. apply Z.compare_eq in He. apply Pos.compare_eq in Hm. subst.
  rewrite SF64div_self. vm_compute. reflexivity.
Qed.

(** ** Edge records *)

Lemma run_lift_bind {A B} (a : A) (f : A → M B) h :
  run (lift (Return a) ≫= f) h = run (f a) h.
Proof. reflexivity. Qed.

Lemma run_load_bind {B} p n (f : graph.Node.t → M B) h :
  h !! p = Some n → run (load p ≫= f) h = run (f n) h.
Proof. intros H. rewrite run_bind, run_load, H. reflexivity. Qed.

Lemma addEdgeTelemetry_typed h ed e o src :
  conforms edge_schema (graph.Edge.Metadata e) = true →
  h !! graph.Edge.Source e = Some src →
  conforms node_schema (graph.Node.Metadata src) = true →
  let http := rate (graph.Edge.Metadata e) "http" in
  let httpOut := rate (graph.Node.Metadata src) "httpOut" in
  let pct := PrimFloat.mul (PrimFloat.div http httpOut) 100 in
  ∃ ed', run (addEdgeTelemetry ed e o) h = (Return ed', h)
    ∧ edge_ids ed' = edge_ids ed
    ∧ EdgeData.HttpPercentReq ed' =
        (if gt0 http && PrimFloat.ltb pct 100 then fmt.Sprintf_f 1 pct
         else EdgeData.HttpPercentReq ed)
    ∧ EdgeData.IsUnused ed' =
        (if gt0 http then EdgeData.IsUnused ed
         else default (EdgeData.IsUnused ed)
                (flag (graph.Node.Metadata src) "isUnused")).
Proof.
  intros Hce Hsrc Hcs http httpOut pct.
  unfold addEdgeTelemetry. cbv zeta.
  assert (Hr : ∀ k, In (k, TFloat64) edge_schema →
               getRate (graph.Edge.Metadata e) k
               = Return (rate (graph.Edge.Metadata e) k)).
  { intros k Hin. apply getRate_typed. eapply conforms_typed; eauto. }
  assert (Hout : getRate (graph.Node.Metadata src) "httpOut" = Return httpOut).
  { apply getRate_typed. eapply conforms_typed; [exact Hcs | simpl; tauto]. }
  pose (P := fun a => edge_ids a = edge_ids ed
                      ∧ EdgeData.HttpPercentReq a = EdgeData.HttpPercentReq ed
                      ∧ EdgeData.IsUnused a = EdgeData.IsUnused ed).
  assert (HP : P ed) by (repeat split).
  rewrite !Hr by (simpl; tauto). rewrite run_lift_bind.
  fold http. rewrite run_bind.
  match goal with
  | |- ∃ ed', _ ∧ _ ∧ ?a ed' = ?x ∧ ?b ed' = ?y =>
      pose (Q := fun ed' => edge_ids ed' = edge_ids ed ∧ a ed' = x ∧ b ed' = y)
  end.
  match goal with
  | |- context [run ?m h] => cut (∃ z, run m h = (Return z, h) ∧ Q z)
  end.
  { intros (z & -> & HQ). cbv beta iota.
    copy_step Hce Q. rewrite !run_lift_bind, run_ret.
    eexists. split; [reflexivity|].
    destruct (gt0 (rate (graph.Edge.Metadata e) "tcp")); assumption. }
  subst Q. cbv beta.
  destruct (gt0 http).
  - rewrite !run_lift_bind.
    match goal with
    | |- context [copy_if_present _ "responseTime" _ _ ?x] =>
        assert (HPx : P x)
          by (repeat match goal with
                     | |- context [if ?c then _ else _] => destruct c
                     end; exact HP);
        set (y := x) in *; clearbody y
    end.
    copy_step Hce P. rewrite run_lift_bind.
    rewrite (run_load_bind _ _ _ _ Hsrc). rewrite Hout, run_lift_bind.
    fold pct. rewrite run_ret. eexists. split; [reflexivity|].
    destruct HP0 as (H1 & H2 & H3).
    destruct (PrimFloat.ltb pct 100); simpl; repeat split; assumption.
  - rewrite (run_load_bind _ _ _ _ Hsrc).
    rewrite copy_if_present_bool
      by (eapply conforms_typed; [exact Hcs | simpl; tauto]).
    rewrite run_lift. eexists. split; [reflexivity|].
    destruct (flag (graph.Node.Metadata src) "isUnused"); simpl; repeat split.
Qed.

Lemma edge_ok_inv h e :
  edge_ok h e = true →
  conforms edge_schema (graph.Edge.Metadata e) = true
  ∧ ∃ src dst, h !! graph.Edge.Source e = Some src
      ∧ h !! graph.Edge.Dest e = Some dst
      ∧ conforms node_schema (graph.Node.Metadata src) = true.
Proof.
  unfold edge_ok. rewrite !andb_true_iff. intros [[Hc Hd] Hs].
  split; [exact Hc|].
  apply bool_decide_eq_true in Hd as [dst Hd].
  destruct (h !! graph.Edge.Source e) as [src|]; [|discriminate].
  exists src, dst. auto.
Qed.

(** the record [buildConfig] emits for a well-typed edge [e] of node [n] *)
Lemma buildEdge_typed h n e o src dst :
  edge_ok h e = true →
  h !! graph.Edge.Source e = Some src →
  h !! graph.Edge.Dest e = Some dst →
  let http := rate (graph.Edge.Metadata e) "http" in
  let httpOut := rate (graph.Node.Metadata src) "httpOut" in
  let pct := PrimFloat.mul (PrimFloat.div http httpOut) 100 in
  ∃ ed, run (buildEdge n e o) h = (Return ed, h)
    ∧ edge_ids ed =
        (edgeHash (nodeHash (graph.Node.ID n)) (nodeHash (graph.Node.ID dst))
           (protocol_of (graph.Edge.Metadata e)),
         nodeHash (graph.Node.ID n), nodeHash (graph.Node.ID dst))
    ∧ EdgeData.HttpPercentReq ed =
        (if gt0 http && PrimFloat.ltb pct 100 then fmt.Sprintf_f 1 pct else "")
    ∧ EdgeData.IsUnused ed =
        (if gt0 http then false
         else default false (flag (graph.Node.Metadata src) "isUnused")).
Proof.
  intros Hok Hsrc Hdst http httpOut pct.
  destruct (edge_ok_inv h e Hok) as (Hce & src' & dst' & Hs' & Hd' & Hcs).
  rewrite Hsrc in Hs'. injection Hs' as <-. clear Hd' dst'.
  unfold buildEdge. cbv zeta.
  rewrite (run_load_bind _ _ _ _ Hdst).
  assert (Hp : match graph.Edge.Metadata e !! "protocol" with
               | None | Some VNil => Return ""
               | Some v => assert_string v
               end = Return (protocol_of (graph.Edge.Metadata e))).
  { pose proof (conforms_typed _ _ "protocol" TStringOrNil Hce) as Ht.
    unfold typed_at, protocol_of in *.
    destruct (graph.Edge.Metadata e !! "protocol") as [v|]; [|reflexivity].
    specialize (Ht ltac:(simpl; tauto) v eq_refl).
    destruct v; try discriminate; reflexivity. }
  rewrite Hp, run_lift_bind.
  match goal with
  | |- context [addEdgeTelemetry ?ed0 e o] =>
      destruct (addEdgeTelemetry_typed h ed0 e o src Hce Hsrc Hcs)
        as (ed & Hrun & Hids & Hreq & Hun)
  end.
  exists ed. split; [exact Hrun|]. split; [exact Hids|].
  split; [exact Hreq | exact Hun].
Qed.

(** ** Edge fields *)

(** C6: for a well-typed edge with HTTP rate greater than zero the record
    is emitted, its [httpPercentReq] field is present exactly when
    [http / httpOut * 100] is below 100 and then holds its one-decimal
    rendering, and the field is absent when the edge's rate equals the
    source's [httpOut] rate. *)
Theorem edge_httpPercentReq h n e o src :
  edge_ok h e = true →
  h !! graph.Edge.Source e = Some src →
  let http := rate (graph.Edge.Metadata e) "http" in
  let httpOut := rate (graph.Node.Metadata src) "httpOut" in
  let httpPercentReq := PrimFloat.mul (PrimFloat.div http httpOut) 100 in
  gt0 http = true →
  ∃ ed, run (buildEdge n e o) h = (Return ed, h)
    ∧ (EdgeData.HttpPercentReq ed ≠ ""
       ↔ PrimFloat.ltb httpPercentReq 100 = true)
    ∧ (PrimFloat.ltb httpPercentReq 100 = true →
       EdgeData.HttpPercentReq ed = fmt.Sprintf_f 1 httpPercentReq)
    ∧ (PrimFloat.eqb http httpOut = true → EdgeData.HttpPercentReq ed = "").
Proof.
  intros Hok Hsrc http httpOut pct Hhttp.
  destruct (edge_ok_inv h e Hok) as (_ & _ & dst & _ & Hdst & _).
  destruct (buildEdge_typed h n e o src dst Hok Hsrc Hdst)
    as (ed & Hrun & _ & Hreq & _).
  fold http httpOut pct in Hreq. rewrite Hhttp in Hreq. simpl in Hreq.
  exists ed. split; [exact Hrun|]. rewrite Hreq.
  split; [|split].
  - destruct (PrimFloat.ltb pct 100).
    + split; [reflexivity|]. intros _. apply Sprintf_f_nonempty. discriminate.
    + split; [congruence | discriminate].
  - intros ->. reflexivity.
  - intros Heq.
    pose proof (percent_of_equal_rates http httpOut Hhttp Heq) as Hfull.
    change (PrimFloat.ltb pct 100 = false) in Hfull. rewrite Hfull.
    reflexivity.
Qed.

(** [edge_httpPercentReq] at the edge productpage -> reviews: 80 per
    cent of the source's requests *)
Lemma edge_httpPercentReq_witness :
  ∃ ed, run (buildEdge productpage edge_reviews (sample_options "none" "workload"))
          bookinfo_heap = (Return ed, bookinfo_heap)
    ∧ EdgeData.HttpPercentReq ed = "80.0".
Proof.
  destruct (edge_httpPercentReq bookinfo_heap productpage edge_reviews
              (sample_options "none" "workload") productpage
              eq_refl eq_refl eq_refl) as (ed & Hrun & _ & Hval & _).
  exists ed. split; [exact Hrun|].
  rewrite Hval by reflexivity. vm_compute. reflexivity.
Defined.

(** the edge reviews -> ratings carries all of the source's requests and
    has no [httpPercentReq] *)
Example edge_ratings_no_httpPercentReq :
  ∃ ed, run (buildEdge reviews edge_ratings (sample_options "none" "workload"))
          bookinfo_heap = (Return ed, bookinfo_heap)
    ∧ EdgeData.Http ed = "5.00" ∧ EdgeData.HttpPercentReq ed = "".
Proof. eexists. split; [vm_compute; reflexivity|]. split; reflexivity. Qed.

(** C8: for a well-typed edge the record is emitted; when the HTTP rate
    is not greater than zero (in particular zero or absent) [isUnused] is
    the [isUnused] flag of the source node's metadata, and left out
    ([false]) when the source has none; when the rate is greater than
    zero [isUnused] is left out. *)
Theorem edge_isUnused h n e o src :
  edge_ok h e = true →
  h !! graph.Edge.Source e = Some src →
  let md := graph.Edge.Metadata e in
  let http := rate md "http" in
  ∃ ed, run (buildEdge n e o) h = (Return ed, h)
    ∧ (md !! "http" = None ∨ md !! "http" = Some (VFloat64 0%float) →
       gt0 http = false)
    ∧ (gt0 http = false →
       EdgeData.IsUnused ed =
       match flag (graph.Node.Metadata src) "isUnused" with
       | Some b => b
       | None => false
       end)
    ∧ (gt0 http = true → EdgeData.IsUnused ed = false).
Proof.
  intros Hok Hsrc md http.
  destruct (edge_ok_inv h e Hok) as (_ & _ & dst & _ & Hdst & _).
  destruct (buildEdge_typed h n e o src dst Hok Hsrc Hdst)
    as (ed & Hrun & _ & _ & Hun).
  fold md http in Hun.
  exists ed. split; [exact Hrun|]. split; [|split].
  - subst http. unfold rate. intros [-> | ->]; reflexivity.
  - intros H. rewrite H in Hun. rewrite Hun.
    destruct (flag (graph.Node.Metadata src) "isUnused"); reflexivity.
  - intros H. rewrite H in Hun. exact Hun.
Qed.

(** [edge_isUnused] at the idle edge details -> ratings, whose source is
    flagged unused *)
Lemma edge_isUnused_witness :
  ∃ ed, run (buildEdge details edge_idle (sample_options "none" "workload"))
          bookinfo_heap = (Return ed, bookinfo_heap)
    ∧ EdgeData.IsUnused ed = true.
Proof.
  destruct (edge_isUnused bookinfo_heap details edge_idle
              (sample_options "none" "workload") details eq_refl eq_refl)
    as (ed & Hrun & _ & Hval & _).
  exists ed. split; [exact Hrun|]. rewrite Hval by reflexivity. reflexivity.
Defined.

(** C10: two well-typed edges emitted for nodes with the same id, whose
    destinations have the same id and whose protocol labels agree, get
    records with the same id. *)
Theorem edge_ids_collide h n1 n2 e1 e2 o dst1 dst2 :
  edge_ok h e1 = true →
  edge_ok h e2 = true →
  graph.Node.ID n1 = graph.Node.ID n2 →
  h !! graph.Edge.Dest e1 = Some dst1 →
  h !! graph.Edge.Dest e2 = Some dst2 →
  graph.Node.ID dst1 = graph.Node.ID dst2 →
  protocol_of (graph.Edge.Metadata e1) = protocol_of (graph.Edge.Metadata e2) →
  ∃ ed1 ed2,
    run (buildEdge n1 e1 o) h = (Return ed1, h)
    ∧ run (buildEdge n2 e2 o) h = (Return ed2, h)
    ∧ EdgeData.Id ed1 = EdgeData.Id ed2
    ∧ EdgeData.Id ed1 =
        edgeHash (nodeHash (graph.Node.ID n1)) (nodeHash (graph.Node.ID dst1))
          (protocol_of (graph.Edge.Metadata e1)).
Proof.
  intros Hok1 Hok2 Hn Hd1 Hd2 Hd Hp.
  destruct (edge_ok_inv h e1 Hok1) as (_ & src1 & _ & Hs1 & _ & _).
  destruct (edge_ok_inv h e2 Hok2) as (_ & src2 & _ & Hs2 & _ & _).
  destruct (buildEdge_typed h n1 e1 o src1 dst1 Hok1 Hs1 Hd1)
    as (ed1 & Hrun1 & Hids1 & _).
  destruct (buildEdge_typed h n2 e2 o src2 dst2 Hok2 Hs2 Hd2)
    as (ed2 & Hrun2 & Hids2 & _).
  exists ed1, ed2. split; [exact Hrun1|]. split; [exact Hrun2|].
  unfold edge_ids in *.
  injection Hids1 as -> _ _. injection Hids2 as -> _ _.
  rewrite Hn, Hd, Hp. split; reflexivity.
Qed.

(** [edge_ids_collide] at the two productpage -> details edges: the
    document of the sample traffic map holds two edge records with one
    id, for two edges that differ in their metadata *)
Lemma edge_ids_collide_witness :
  edge_details ≠ edge_details_again
  ∧ ∃ ed1 ed2 cfg,
      run (buildEdge productpage edge_details (sample_options "none" "workload"))
        bookinfo_heap = (Return ed1, bookinfo_heap)
      ∧ run (buildEdge productpage edge_details_again
               (sample_options "none" "workload"))
          bookinfo_heap = (Return ed2, bookinfo_heap)
      ∧ EdgeData.Id ed1 = EdgeData.Id ed2
      ∧ ed1 ≠ ed2
      ∧ run (NewConfig insertion_sort range_forward bookinfo (sample_options "none" "workload"))
          bookinfo_heap = (Return cfg, bookinfo_heap)
      ∧ ed1 ∈ Elements.Edges (Config.Elements cfg)
      ∧ ed2 ∈ Elements.Edges (Config.Elements cfg).
Proof.
  split; [discriminate|].
  destruct (edge_ids_collide bookinfo_heap productpage productpage
              edge_details edge_details_again
              (sample_options "none" "workload") details details
              eq_refl eq_refl eq_refl eq_refl eq_refl eq_refl eq_refl)
    as (ed1 & ed2 & Hrun1 & Hrun2 & Hid & _).
  exists ed1, ed2. eexists.
  split; [exact Hrun1|]. split; [exact Hrun2|]. split; [exact Hid|].
  vm_compute in Hrun1. vm_compute in Hrun2.
  injection Hrun1 as <-. injection Hrun2 as <-.
  split; [discriminate|].
  split; [vm_compute; reflexivity|].
  split.
  - apply list_elem_of_In. simpl. tauto.
  - apply list_elem_of_In. simpl. tauto.
Defined.

(** ** Orders given by a three-way comparison *)

Lemma ascii_compare_refl c : Ascii.compare c c = Eq.
Proof. apply N.compare_refl. Qed.

Lemma ascii_compare_trans a b c :
  Ascii.compare a b = Lt → Ascii.compare b c = Lt → Ascii.compare a c = Lt.
Proof.
  unfold Ascii.compare. rewrite !N.compare_lt_iff. apply N.lt_trans.
Qed.

Lemma string_compare_order : CmpOrder String.compare.
Proof.
  split.
  - apply String.compare_eq_iff.
  - induction a as [|c a IH]; simpl; [reflexivity|].
    rewrite ascii_compare_refl. exact IH.
  - apply String.compare_antisym.
  - induction a as [|x a IH]; intros [|y b] [|z c]; simpl;
      try discriminate; try reflexivity.
    destruct (Ascii.compare x y) eqn:Hxy; try discriminate;
      destruct (Ascii.compare y z) eqn:Hyz; try discriminate.
    + apply Ascii.compare_eq_iff in Hxy, Hyz. subst.
      rewrite ascii_compare_refl. apply IH.
    + apply Ascii.compare_eq_iff in Hxy. subst. rewrite Hyz. reflexivity.
    + apply Ascii.compare_eq_iff in Hyz. subst. rewrite Hxy. reflexivity.
    + rewrite (ascii_compare_trans _ _ _ Hxy Hyz). reflexivity.
Qed.

Lemma flip_cmp_order {K} (cmp : K → K → comparison) :
  CmpOrder cmp → CmpOrder (flip cmp).
Proof.
  intros Hcmp. split; unfold flip.
  - intros a b H. symmetry. exact (cmp_eq (cmp := cmp) _ _ H).
  - intros a. apply (cmp_refl (cmp := cmp)).
  - intros a b. apply (cmp_antisym (cmp := cmp)).
  - intros a b c H1 H2. exact (cmp_trans (cmp := cmp) _ _ _ H2 H1).
Qed.

Lemma lex_cmp_order {K1 K2} (c1 : K1 → K1 → comparison)
    (c2 : K2 → K2 → comparison) :
  CmpOrder c1 → CmpOrder c2 → CmpOrder (lex_cmp c1 c2).
Proof.
  intros Hc1 Hc2. split; unfold lex_cmp.
  - intros [a1 a2] [b1 b2]; simpl.
    destruct (c1 a1 b1) eqn:H1; try discriminate.
    intros H2. f_equal; [exact (cmp_eq (cmp := c1) _ _ H1)
                        | exact (cmp_eq (cmp := c2) _ _ H2)].
  - intros [a1 a2]; simpl. rewrite (cmp_refl (cmp := c1) a1).
    apply (cmp_refl (cmp := c2)).
  - intros [a1 a2] [b1 b2]; simpl. rewrite (cmp_antisym (cmp := c1) a1 b1).
    destruct (c1 b1 a1); simpl; try reflexivity.
    apply (cmp_antisym (cmp := c2)).
  - intros [a1 a2] [b1 b2] [d1 d2]; simpl.
    destruct (c1 a1 b1) eqn:Hab; try discriminate;
      destruct (c1 b1 d1) eqn:Hbd; try discriminate.
    + apply (cmp_eq (cmp := c1)) in Hab, Hbd. subst.
      rewrite (cmp_refl (cmp := c1) d1). apply (cmp_trans (cmp := c2)).
    + apply (cmp_eq (cmp := c1)) in Hab. subst. rewrite Hbd. reflexivity.
    + apply (cmp_eq (cmp := c1)) in Hbd. subst. rewrite Hab. reflexivity.
    + rewrite (cmp_trans (cmp := c1) _ _ _ Hab Hbd). reflexivity.
Qed.

Section keyed_less.
Context {A K : Type} (cmp : K → K → comparison) `{!CmpOrder cmp}.
Context (key : A → K).

Local Abbreviation less := (keyed_less cmp key).

Lemma keyed_less_asym a b : less a b = true → less b a = false.
Proof.
  unfold keyed_less. rewrite (cmp_antisym (cmp := cmp) (key b) (key a)).
  destruct (cmp (key a) (key b)); simpl; congruence.
Qed.

Lemma keyed_less_negtrans a b c :
  less b a = false → less c b = false → less c a = false.
Proof.
  unfold keyed_less. intros Hba Hcb.
  destruct (cmp (key c) (key a)) eqn:Hca; try reflexivity. exfalso.
  destruct (cmp (key c) (key b)) eqn:Hcb'; try discriminate.
  - apply (cmp_eq (cmp := cmp)) in Hcb'. rewrite Hcb' in Hca.
    rewrite Hca in Hba. discriminate.
  - assert (Hbc : cmp (key b) (key c) = Lt)
      by (rewrite (cmp_antisym (cmp := cmp)), Hcb'; reflexivity).
    rewrite (cmp_trans (cmp := cmp) _ _ _ Hbc Hca) in Hba. discriminate.
Qed.

(** elements of which neither is less than the other have the same key *)
Lemma keyed_less_tie a b :
  less a b = false → less b a = false → key a = key b.
Proof.
  unfold keyed_less. rewrite (cmp_antisym (cmp := cmp) (key b) (key a)).
  destruct (cmp (key a) (key b)) eqn:H; simpl; try discriminate.
  intros _ _. exact (cmp_eq (cmp := cmp) _ _ H).
Qed.

End keyed_less.

Lemma less_step (x y : string) (c : comparison) :
  (if negb (String.eqb x y) then String.ltb x y else lt_of c)
  = lt_of (match String.compare x y with Eq => c | c' => c' end).
Proof.
  unfold String.ltb. destruct (String.eqb_spec x y) as [->|Hne]; simpl.
  - rewrite (cmp_refl (CmpOrder := string_compare_order)). reflexivity.
  - destruct (String.compare x y) eqn:H; try reflexivity.
    apply String.compare_eq_iff in H. contradiction.
Qed.

Lemma node_cmp_order : CmpOrder node_cmp.
Proof.
  pose proof string_compare_order as Hs.
  unfold node_cmp.
  apply lex_cmp_order; [exact Hs|].
  apply lex_cmp_order; [exact (flip_cmp_order _ Hs)|].
  repeat (apply lex_cmp_order; [exact Hs|]). exact Hs.
Qed.

Lemma less_step_flip (x y : string) (c : comparison) :
  (if negb (String.eqb x y) then String.ltb y x else lt_of c)
  = lt_of (match String.compare y x with Eq => c | c' => c' end).
Proof.
  rewrite String.eqb_sym. apply less_step.
Qed.

Lemma node_less_keyed a b :
  node_less a b = keyed_less node_cmp node_key a b.
Proof.
  unfold node_less, keyed_less, node_cmp, node_key, lex_cmp, flip. simpl.
  change (String.ltb (NodeData.Workload a) (NodeData.Workload b))
    with (lt_of (String.compare (NodeData.Workload a) (NodeData.Workload b))).
  rewrite !less_step, less_step_flip, less_step. reflexivity.
Qed.

Lemma edge_cmp_order : CmpOrder edge_cmp.
Proof.
  unfold edge_cmp. apply lex_cmp_order; apply string_compare_order.
Qed.

Lemma edge_less_keyed a b :
  edge_less a b = keyed_less edge_cmp edge_key a b.
Proof.
  unfold edge_less, keyed_less, edge_cmp, edge_key, lex_cmp, String.ltb.
  simpl.
  rewrite (String.compare_antisym (EdgeData.Source b) (EdgeData.Source a)).
  destruct (String.compare (EdgeData.Source a) (EdgeData.Source b));
    reflexivity.
Qed.

(** ** Running [buildConfig] on a well-typed graph *)

Lemma NewConfig_run srt it trafficMap o h :
  run (NewConfig srt it trafficMap o) h =
  match run (buildConfig it trafficMap [] [] o) h with
  | (Return (nodes, edges), h') =>
      (Return (document srt o (compound it o nodes) edges), h')
  | (Panic, h') => (Panic, h')
  end.
Proof.
  unfold NewConfig. rewrite run_bind.
  destruct (run (buildConfig it trafficMap [] [] o) h) as [[[nodes edges]|] h'];
    reflexivity.
Qed.

Lemma graph_ok_range it h trafficMap :
  graph_ok h trafficMap = true →
  forallb (entry_ok h) (range it trafficMap) = true.
Proof.
  unfold graph_ok. rewrite !forallb_forall. intros H x Hx. apply H.
  apply list_elem_of_In. rewrite <- (range_perm it trafficMap).
  apply list_elem_of_In. exact Hx.
Qed.

Lemma buildEdges_records h n o es :
  forallb (edge_ok h) es = true →
  ∀ edges,
    run (buildEdges n es edges o) h
    = (Return (edges ++ map (edge_record h o n) es), h).
Proof.
  induction es as [|e es IH]; intros Hok edges.
  - simpl. rewrite app_nil_r. reflexivity.
  - simpl in Hok. apply andb_true_iff in Hok as [He Hes].
    destruct (edge_ok_inv h e He) as (_ & src & dst & Hsrc & Hdst & _).
    destruct (buildEdge_typed h n e o src dst He Hsrc Hdst) as (ed & Hrun & _).
    rewrite buildEdges_cons, run_bind, Hrun, (IH Hes).
    rewrite <- app_assoc. cbn [map app].
    assert (Hed : edge_record h o n e = ed)
      by (unfold edge_record; rewrite Hrun; reflexivity).
    rewrite Hed. reflexivity.
Qed.

Lemma buildConfig_loop_records h o entries :
  forallb (entry_ok h) entries = true →
  ∀ nodes edges,
    run (buildConfig_loop entries nodes edges o) h
    = (Return (nodes ++ map (node_record h) entries,
               edges ++ flat_map (edge_records h o) entries), h).
Proof.
  induction entries as [|[id p] rest IH]; intros Hok nodes edges.
  - simpl. rewrite !app_nil_r. reflexivity.
  - simpl in Hok. apply andb_true_iff in Hok as [He Hrest].
    unfold entry_ok in He. simpl in He.
    destruct (h !! p) as [n|] eqn:Hp; [|discriminate].
    unfold node_ok in He. apply andb_true_iff in He as [Hc Hes].
    destruct (buildNode_typed id n Hc) as (nd & Hnd & _).
    rewrite buildConfig_loop_cons.
    rewrite (run_load_bind _ _ _ _ Hp), Hnd, run_lift_bind.
    rewrite run_bind, (buildEdges_records h n o _ Hes), (IH Hrest).
    rewrite <- !app_assoc. cbn [map flat_map app].
    assert (Hrec : node_record h (id, p) = nd)
      by (unfold node_record; simpl; rewrite Hp, Hnd; reflexivity).
    assert (Heds : edge_records h o (id, p)
                   = map (edge_record h o n) (graph.Node.Edges n))
      by (unfold edge_records; simpl; rewrite Hp; reflexivity).
    rewrite Hrec, Heds. reflexivity.
Qed.

Lemma node_record_built h entry :
  entry_ok h entry = true → built_from h entry (node_record h entry).
Proof.
  unfold entry_ok, node_record, built_from. destruct entry as [id p]; simpl.
  destruct (h !! p) as [n|]; [|discriminate]. intros Hok.
  unfold node_ok in Hok. apply andb_true_iff in Hok as [Hc _].
  destruct (buildNode_typed id n Hc) as (nd & Hnd & Hk & _).
  exists n. rewrite Hnd. auto.
Qed.

Lemma buildConfig_records it h trafficMap o :
  graph_ok h trafficMap = true →
  run (buildConfig it trafficMap [] [] o) h
  = (Return (map (node_record h) (range it trafficMap),
             flat_map (edge_records h o) (range it trafficMap)), h).
Proof.
  intros Hok. unfold buildConfig.
  rewrite (buildConfig_loop_records h o _ (graph_ok_range it _ _ Hok)).
  reflexivity.
Qed.

Lemma buildConfig_typed it h trafficMap o :
  graph_ok h trafficMap = true →
  ∃ nodes edges,
    run (buildConfig it trafficMap [] [] o) h = (Return (nodes, edges), h)
    ∧ Forall2 (built_from h) (range it trafficMap) nodes.
Proof.
  intros Hok. rewrite (buildConfig_records it h trafficMap o Hok).
  do 2 eexists. split; [reflexivity|].
  pose proof (graph_ok_range it _ _ Hok) as Hall.
  rewrite forallb_forall in Hall.
  induction (range it trafficMap) as [|e l IH]; simpl; constructor.
  - apply node_record_built, Hall. left. reflexivity.
  - apply IH. intros x Hx. apply Hall. right. exact Hx.
Qed.


(** ** The grouping pass *)

Lemma set_parents_length nodeId members nodes :
  length (set_parents nodeId members nodes) = length nodes.
Proof.
  unfold set_parents. revert nodes.
  induction members as [|i ms IH]; intros nodes; simpl; [reflexivity|].
  rewrite IH. apply length_alter.
Qed.

Lemma set_parents_lookup nodeId members nodes i :
  set_parents nodeId members nodes !! i =
  if bool_decide (i ∈ members)
  then NodeData.set_Parent nodeId <$> nodes !! i
  else nodes !! i.
Proof.
  unfold set_parents. revert nodes.
  induction members as [|j ms IH]; intros nodes; simpl; [reflexivity|].
  rewrite IH. destruct (decide (i = j)) as [->|Hne].
  - rewrite list_lookup_alter_eq.
    rewrite (bool_decide_eq_true_2 (j ∈ j :: ms)) by left.
    destruct (nodes !! j) as [x|]; simpl; [|by case_bool_decide].
    case_bool_decide; reflexivity.
  - rewrite list_lookup_alter_ne by congruence.
    destruct (bool_decide (i ∈ ms)) eqn:Hin.
    + apply bool_decide_eq_true in Hin.
      rewrite (bool_decide_eq_true_2 (i ∈ j :: ms)) by (right; done). done.
    + apply bool_decide_eq_false in Hin.
      rewrite (bool_decide_eq_false_2 (i ∈ j :: ms)); [done|].
      rewrite elem_of_cons. tauto.
Qed.

Lemma assign_members_spec nodeId members nodes nd :
  ∃ nd', assign_members nodeId members nodes nd
         = (set_parents nodeId members nodes, nd')
    ∧ group_view nd' = group_view nd.
Proof.
  unfold set_parents. revert nodes nd.
  induction members as [|i ms IH]; intros nodes nd; simpl; [eauto|].
  match goal with
  | |- context [assign_members nodeId ms ?l ?x] =>
      destruct (IH l x) as (nd' & -> & Hv)
  end.
  exists nd'. split; [reflexivity|]. rewrite Hv. reflexivity.
Qed.

Lemma generateGroup_spec groupBy nodes k members :
  ∃ gs, generateGroup groupBy nodes (k, members)
        = (if big members then set_parents (nodeHash k) members nodes
           else nodes) ++ gs
    ∧ map group_view gs =
        if big members
        then [(nodeHash k, groupBy,
               NodeData.Namespace (first_member nodes members),
               NodeData.App (first_member nodes members), "")]
        else [].
Proof.
  unfold generateGroup, big. destruct (1 <? length members)%nat.
  - cbv zeta.
    match goal with
    | |- context [assign_members ?id members nodes ?x] =>
        destruct (assign_members_spec id members nodes x) as (nd' & -> & Hv)
    end.
    exists [nd']. split; [reflexivity|]. simpl. rewrite Hv. reflexivity.
  - exists []. rewrite app_nil_r. split; reflexivity.
Qed.

Lemma set_Parent_same (x : NodeData.t) :
  NodeData.set_Parent (NodeData.Parent x) x = x.
Proof. destruct x; reflexivity. Qed.

Lemma grouped_start nodes groupBy : grouped nodes groupBy [] nodes.
Proof.
  split.
  - intros i Hi. unfold parent_after; simpl.
    destruct (nodes !! i) as [x|]; simpl; [|reflexivity].
    rewrite set_Parent_same. reflexivity.
  - rewrite drop_all. reflexivity.
Qed.

Lemma grouped_length nodes groupBy visited cur :
  grouped nodes groupBy visited cur → (length nodes ≤ length cur)%nat.
Proof.
  intros [Hl _]. destruct (decide (length nodes = 0)%nat) as [->|Hn]; [lia|].
  specialize (Hl (length nodes - 1)%nat ltac:(lia)).
  destruct (lookup_lt_is_Some_2 nodes (length nodes - 1)%nat ltac:(lia))
    as [x Hx].
  rewrite Hx in Hl. simpl in Hl. apply lookup_lt_Some in Hl. lia.
Qed.

Lemma grouped_step nodes groupBy visited cur k members :
  grouped nodes groupBy visited cur →
  Forall (fun i => (i < length nodes)%nat) members →
  grouped nodes groupBy (visited ++ [(k, members)])
    (generateGroup groupBy cur (k, members)).
Proof.
  intros Hg Hm. pose proof (grouped_length _ _ _ _ Hg) as Hlen.
  destruct Hg as [Hl Hd].
  destruct (generateGroup_spec groupBy cur k members) as (gs & -> & Hgs).
  assert (Hfirst : first_member cur members = first_member cur members
                   ∧ NodeData.Namespace (first_member cur members)
                     = NodeData.Namespace (first_member nodes members)
                   ∧ NodeData.App (first_member cur members)
                     = NodeData.App (first_member nodes members)).
  { split; [reflexivity|]. unfold first_member.
    destruct members as [|i ms]; simpl; [auto|].
    apply Forall_cons in Hm as [Hi _]. rewrite (Hl i Hi).
    destruct (nodes !! i) as [x|]; simpl; auto. }
  destruct Hfirst as (_ & Hns & Happ).
  split.
  - intros i Hi. rewrite lookup_app_l.
    2:{ destruct (big members); [rewrite set_parents_length|]; lia. }
    assert (Hcur : (if big members
                    then set_parents (nodeHash k) members cur else cur) !! i
                   = (if big members && bool_decide (i ∈ members)
                      then NodeData.set_Parent (nodeHash k) <$> cur !! i
                      else cur !! i)).
    { destruct (big members); [|reflexivity]. apply set_parents_lookup. }
    rewrite Hcur, (Hl i Hi).
    destruct (nodes !! i) as [x|]; simpl;
      [|destruct (big members && bool_decide (i ∈ members)); reflexivity].
    unfold parent_after. rewrite fold_left_app. simpl.
    destruct (big members && bool_decide (i ∈ members)); reflexivity.
  - unfold group_views. rewrite flat_map_app. simpl. rewrite app_nil_r.
    fold (group_views nodes groupBy visited). rewrite <- Hd.
    rewrite drop_app_le.
    2:{ destruct (big members); [rewrite set_parents_length|]; lia. }
    rewrite map_app, Hgs. f_equal.
    + destruct (big members); [|reflexivity]. f_equal.
      apply list_eq. intros j. rewrite !lookup_drop, set_parents_lookup.
      rewrite bool_decide_eq_false_2; [reflexivity|].
      intros Hin. rewrite Forall_forall in Hm. specialize (Hm _ Hin). lia.
    + destruct (big members); [|reflexivity]. rewrite Hns, Happ. reflexivity.
Qed.

Lemma grouped_fold nodes groupBy entries :
  ∀ visited cur,
    grouped nodes groupBy visited cur →
    members_in_arena (length nodes) entries →
    grouped nodes groupBy (visited ++ entries)
      (fold_left (generateGroup groupBy) entries cur).
Proof.
  induction entries as [|[k ms] rest IH]; intros visited cur Hg Hm; simpl.
  - rewrite app_nil_r. exact Hg.
  - apply Forall_cons in Hm as [Hms Hrest].
    replace (visited ++ (k, ms) :: rest) with ((visited ++ [(k, ms)]) ++ rest)
      by (rewrite <- app_assoc; reflexivity).
    apply IH; [|exact Hrest]. apply grouped_step; assumption.
Qed.

Lemma elem_of_members keep k nodes :
  ∀ i j, j ∈ members keep k i nodes ↔
         (i ≤ j)%nat ∧ ∃ nd, nodes !! (j - i)%nat = Some nd
                         ∧ keep nd = true ∧ box_key nd = k.
Proof.
  induction nodes as [|nd rest IH]; intros i j; cbn [members].
  - split; [intros H; inversion H | intros (_ & x & Hx & _); discriminate].
  - assert (Hrest : j ∈ members keep k (S i) rest ↔
                    (i < j)%nat ∧ ∃ x, (nd :: rest) !! (j - i)%nat = Some x
                                    ∧ keep x = true ∧ box_key x = k).
    { rewrite IH. split.
      - intros (Hle & x & Hx & Hk). split; [lia|]. exists x. split; [|exact Hk].
        replace (j - i)%nat with (S (j - S i)) by lia. exact Hx.
      - intros (Hlt & x & Hx & Hk). split; [lia|]. exists x. split; [|exact Hk].
        replace (j - i)%nat with (S (j - S i)) in Hx by lia. exact Hx. }
    destruct (keep nd && String.eqb (box_key nd) k) eqn:Hnd.
    + rewrite elem_of_cons, Hrest. split.
      * intros [-> | (Hlt & Hx)]; [|split; [lia | exact Hx]].
        split; [lia|]. exists nd. rewrite Nat.sub_diag.
        apply andb_true_iff in Hnd as [Hk He]. apply String.eqb_eq in He. auto.
      * intros (Hle & Hx). destruct (decide (j = i)) as [->|Hne]; [by left|].
        right. split; [lia | exact Hx].
    + rewrite Hrest. split.
      * intros (Hlt & Hx). split; [lia | exact Hx].
      * intros (Hle & x & Hx & Hkeep & Hkey).
        destruct (decide (j = i)) as [->|Hne].
        -- rewrite Nat.sub_diag in Hx. injection Hx as <-.
           rewrite Hkeep, <- Hkey, String.eqb_refl in Hnd. discriminate.
        -- split; [lia|]. eauto.
Qed.

Lemma members_NoDup keep k nodes : ∀ i, NoDup (members keep k i nodes).
Proof.
  induction nodes as [|nd rest IH]; intros i; cbn [members]; [constructor|].
  destruct (keep nd && String.eqb (box_key nd) k); [|apply IH].
  constructor; [|apply IH]. rewrite elem_of_members. lia.
Qed.

Lemma members_bound keep k nodes j :
  j ∈ members keep k 0 nodes → (j < length nodes)%nat.
Proof.
  rewrite elem_of_members. intros (_ & x & Hx & _).
  apply lookup_lt_Some in Hx. lia.
Qed.

Lemma collect_lookup keep nodes :
  ∀ i appBox k,
    collect keep i nodes appBox !! k =
    match appBox !! k, members keep k i nodes with
    | None, [] => None
    | o, ms => Some (default [] o ++ ms)
    end.
Proof.
  induction nodes as [|nd rest IH]; intros i appBox k; cbn [members collect].
  - destruct (appBox !! k) as [l|]; [|reflexivity]. simpl.
    rewrite app_nil_r. reflexivity.
  - rewrite IH. fold (box_key nd).
    destruct (keep nd) eqn:Hkeep; cbn [andb]; [|reflexivity].
    destruct (String.eqb_spec (box_key nd) k) as [Hk|Hk].
    + rewrite Hk, lookup_insert_eq.
      destruct (appBox !! k); simpl; rewrite <- ?app_assoc; reflexivity.
    + rewrite lookup_insert_ne by exact Hk. reflexivity.
Qed.

(** the [appBox] built over the whole slice *)
Lemma collect_all keep nodes k :
  collect keep 0 nodes ∅ !! k =
  match members keep k 0 nodes with
  | [] => None
  | ms => Some ms
  end.
Proof. rewrite collect_lookup, lookup_empty. reflexivity. Qed.

Lemma parent_after_none entries i p :
  (∀ e, e ∈ entries → big e.2 && bool_decide (i ∈ e.2) = false) →
  parent_after entries i p = p.
Proof.
  unfold parent_after. revert p.
  induction entries as [|e rest IH]; intros p Hno; simpl; [reflexivity|].
  rewrite (Hno e) by left. apply IH. intros e' He'. apply Hno. by right.
Qed.

Lemma parent_after_spec entries i p k ms :
  NoDup entries.*1 →
  (k, ms) ∈ entries →
  i ∈ ms →
  (∀ k' ms', (k', ms') ∈ entries → i ∈ ms' → k' = k) →
  parent_after entries i p = if big ms then nodeHash k else p.
Proof.
  revert p. induction entries as [|[k1 ms1] rest IH]; intros p Hnd Hin Hi Hkey.
  - inversion Hin.
  - rewrite fmap_cons in Hnd. apply NoDup_cons in Hnd as [Hk1 Hnd].
    unfold parent_after. simpl. fold (parent_after rest i).
    apply elem_of_cons in Hin as [Heq | Hin].
    + injection Heq as <- <-.
      rewrite (bool_decide_eq_true_2 _ Hi), andb_true_r.
      apply parent_after_none. intros [k' ms'] He. simpl.
      destruct (bool_decide (i ∈ ms')) eqn:Hi'; [|apply andb_false_r].
      apply bool_decide_eq_true in Hi'.
      assert (k' = k) as -> by (eapply Hkey; [right; exact He | exact Hi']).
      exfalso. apply Hk1. apply list_elem_of_fmap. exists (k, ms'). auto.
    + assert (Hne : bool_decide (i ∈ ms1) = false).
      { apply bool_decide_eq_false. intros Hi1.
        assert (k1 = k) as -> by (eapply Hkey; [left | exact Hi1]).
        apply Hk1. apply list_elem_of_fmap. exists (k, ms). auto. }
      rewrite Hne, andb_false_r. apply IH; try assumption.
      intros k' ms' He. apply Hkey. by right.
Qed.

Lemma view_key_group_view g : view_key (group_view g) = box_key g.
Proof. reflexivity. Qed.

(** with one entry per key, the views of key [k] are those of the entry
    of [k] *)
Lemma filter_group_views nodes groupBy entries k :
  NoDup entries.*1 →
  (∀ e, e ∈ entries → big e.2 = true →
        box_key (first_member nodes e.2) = e.1) →
  filter (fun v => view_key v = k) (group_views nodes groupBy entries) =
  match list_find (fun e : string * list nat => e.1 = k) entries with
  | Some (_, (_, ms)) =>
      if big ms
      then [(nodeHash k, groupBy, NodeData.Namespace (first_member nodes ms),
             NodeData.App (first_member nodes ms), "")]
      else []
  | None => []
  end.
Proof.
  induction entries as [|[k1 ms1] rest IH]; intros Hnd Hkey; [reflexivity|].
  rewrite fmap_cons in Hnd. apply NoDup_cons in Hnd as [Hk1 Hnd].
  assert (IH' := IH Hnd (fun e He => Hkey e (list_elem_of_further _ _ _ He))).
  clear IH. cbn [group_views flat_map list_find]. fold (group_views nodes groupBy rest).
  rewrite filter_app, IH'. cbn [fst snd].
  assert (Hhead : big ms1 = true →
                  view_key (nodeHash k1, groupBy,
                            NodeData.Namespace (first_member nodes ms1),
                            NodeData.App (first_member nodes ms1), "") = k1).
  { intros Hb. exact (Hkey (k1, ms1) ltac:(left) Hb). }
  destruct (decide (k1 = k)) as [->|Hne].
  - assert (Hnone : list_find (fun e : string * list nat => e.1 = k) rest = None).
    { apply list_find_None. apply Forall_forall. intros [k' ms'] He Heq.
      simpl in Heq. subst k'. apply Hk1. apply list_elem_of_fmap.
      exists (k, ms'). auto. }
    rewrite Hnone. simpl. rewrite app_nil_r.
    destruct (big ms1); [|reflexivity].
    rewrite filter_cons_True by (apply Hhead; reflexivity). reflexivity.
  - assert (Hfst : filter (fun v => view_key v = k)
                     (if big ms1
                      then [(nodeHash k1, groupBy,
                             NodeData.Namespace (first_member nodes ms1),
                             NodeData.App (first_member nodes ms1), "")]
                      else []) = []).
    { destruct (big ms1) eqn:Hb; [|reflexivity].
      rewrite filter_cons_False; [reflexivity|].
      rewrite (Hhead eq_refl). exact Hne. }
    rewrite Hfst. simpl.
    destruct (list_find (fun e : string * list nat => e.1 = k) rest)
      as [[j [k' ms']]|]; reflexivity.
Qed.

Section group_with.
Context (keep : NodeData.t → bool) (groupBy : string) (it : MapRange).
Context (nodes : list NodeData.t).

Let appBox : gmap string (list nat) := collect keep 0 nodes ∅.
Let entries : list (string * list nat) := range it appBox.
Let result : list NodeData.t :=
  generateGroupCompoundNodes it appBox nodes groupBy.

Lemma entries_spec k ms :
  (k, ms) ∈ entries ↔ ms = members keep k 0 nodes ∧ ms ≠ [].
Proof.
  subst entries appBox. rewrite (range_perm it), elem_of_map_to_list.
  rewrite collect_all. destruct (members keep k 0 nodes) as [|j l].
  - split; [discriminate | intros [-> H]; contradiction].
  - split; [intros [= <-]; split; [reflexivity | discriminate]
           | intros [-> _]; reflexivity].
Qed.

Lemma entries_NoDup : NoDup entries.*1.
Proof.
  subst entries. rewrite (range_perm it). apply NoDup_fst_map_to_list.
Qed.

Lemma entries_in_arena : members_in_arena (length nodes) entries.
Proof.
  apply Forall_forall. intros [k ms] He. apply entries_spec in He as [-> _].
  apply Forall_forall. intros j Hj. exact (members_bound _ _ _ _ Hj).
Qed.

Lemma entries_first_key e :
  e ∈ entries → big e.2 = true → box_key (first_member nodes e.2) = e.1.
Proof.
  destruct e as [k ms]. intros He _. apply entries_spec in He as [Hms Hne].
  simpl. destruct ms as [|j l]; [contradiction|].
  assert (Hj : j ∈ members keep k 0 nodes) by (rewrite <- Hms; left).
  apply elem_of_members in Hj as (_ & x & Hx & _ & Hk).
  rewrite Nat.sub_0_r in Hx. unfold first_member. simpl. rewrite Hx. exact Hk.
Qed.

Lemma result_grouped : grouped nodes groupBy entries result.
Proof.
  subst result. unfold generateGroupCompoundNodes.
  change entries with ([] ++ entries).
  apply grouped_fold; [apply grouped_start | apply entries_in_arena].
Qed.

Lemma entries_find k :
  list_find (fun e : string * list nat => e.1 = k) entries =
  match members keep k 0 nodes with
  | [] => None
  | ms => (fun j => (j, (k, ms))) <$>
          (fst <$> list_find (fun e : string * list nat => e.1 = k) entries)
  end.
Proof.
  destruct (list_find (fun e : string * list nat => e.1 = k) entries)
    as [[j [k' ms]]|] eqn:Hfind.
  - apply list_find_Some in Hfind as (Hj & Hk & _). simpl in Hk. subst k'.
    apply list_elem_of_lookup_2 in Hj. apply entries_spec in Hj as [-> Hne].
    destruct (members keep k 0 nodes); [contradiction | reflexivity].
  - destruct (members keep k 0 nodes) as [|j l] eqn:Hms; [reflexivity|].
    exfalso. assert (He : (k, j :: l) ∈ entries).
    { apply entries_spec. rewrite Hms. split; [reflexivity | discriminate]. }
    rewrite list_find_None, Forall_forall in Hfind. exact (Hfind _ He eq_refl).
Qed.

(** every arena slot keeps its record; its parent reference becomes the
    compound node of its key when the key has two members or more *)
Lemma result_slot i x :
  nodes !! i = Some x →
  result !! i =
  Some (if keep x && big (members keep (box_key x) 0 nodes)
        then NodeData.set_Parent (nodeHash (box_key x)) x
        else x).
Proof.
  intros Hx. destruct result_grouped as [Hslot _].
  rewrite (Hslot i (lookup_lt_Some _ _ _ Hx)), Hx. simpl. f_equal.
  destruct (keep x) eqn:Hkeep; simpl.
  - assert (Hi : i ∈ members keep (box_key x) 0 nodes).
    { apply elem_of_members. split; [lia|]. exists x.
      rewrite Nat.sub_0_r. auto. }
    rewrite (parent_after_spec entries i _ (box_key x)
               (members keep (box_key x) 0 nodes) entries_NoDup).
    + destruct (big _); [reflexivity | apply set_Parent_same].
    + apply entries_spec. split; [reflexivity|]. intros H. rewrite H in Hi.
      inversion Hi.
    + exact Hi.
    + intros k' ms' He Hi'. apply entries_spec in He as [-> _].
      apply elem_of_members in Hi' as (_ & y & Hy & _ & Hk).
      rewrite Nat.sub_0_r, Hx in Hy. injection Hy as <-. symmetry. exact Hk.
  - rewrite parent_after_none; [apply set_Parent_same|].
    intros [k' ms'] He. simpl.
    destruct (bool_decide (i ∈ ms')) eqn:Hi'; [|apply andb_false_r].
    apply bool_decide_eq_true in Hi'. apply entries_spec in He as [-> _].
    apply elem_of_members in Hi' as (_ & y & Hy & Hk & _).
    rewrite Nat.sub_0_r, Hx in Hy. injection Hy as <-. congruence.
Qed.

(** the compound nodes appended for key [k]: one when the key has two
    members or more, none otherwise *)
Lemma result_groups k :
  let ms := members keep k 0 nodes in
  ∃ gs, filter (fun g => box_key g = k) (drop (length nodes) result) = gs
    ∧ map group_view gs =
        if big ms
        then [(nodeHash k, groupBy, NodeData.Namespace (first_member nodes ms),
               NodeData.App (first_member nodes ms), "")]
        else [].
Proof.
  intros ms. eexists. split; [reflexivity|].
  destruct result_grouped as [_ Hviews].
  assert (Hf : map group_view
                 (filter (fun g => box_key g = k) (drop (length nodes) result))
               = filter (fun v => view_key v = k)
                   (map group_view (drop (length nodes) result))).
  { generalize (drop (length nodes) result). intros l.
    induction l as [|g l IH]; [reflexivity|]. simpl.
    rewrite !filter_cons, view_key_group_view.
    destruct (decide (box_key g = k)); simpl; rewrite IH; reflexivity. }
  rewrite Hf, Hviews.
  rewrite (filter_group_views nodes groupBy entries k entries_NoDup
             entries_first_key).
  rewrite entries_find. subst ms.
  destruct (members keep k 0 nodes) as [|j l] eqn:Hms; [reflexivity|].
  destruct (list_find _ entries) as [[j' e]|] eqn:Hfind; [reflexivity|].
  exfalso. assert (He : (k, j :: l) ∈ entries).
  { apply entries_spec. rewrite Hms. split; [reflexivity | discriminate]. }
  rewrite list_find_None, Forall_forall in Hfind. exact (Hfind _ He eq_refl).
Qed.

End group_with.

Lemma grouping_cardinality_generic keep groupBy it nodes :
  grouping_cardinality keep groupBy nodes
    (generateGroupCompoundNodes it (collect keep 0 nodes ∅) nodes groupBy).
Proof.
  intros k ms appended.
  destruct (result_groups keep groupBy it nodes k) as (gs & Hgs & Hviews).
  fold ms in Hviews. fold appended in Hgs. rewrite Hgs.
  assert (Hslot : ∀ i, i ∈ ms →
            ∃ x, nodes !! i = Some x
              ∧ generateGroupCompoundNodes it (collect keep 0 nodes ∅) nodes
                  groupBy !! i
                = Some (if big ms
                        then NodeData.set_Parent (nodeHash k) x else x)).
  { intros i Hi. apply elem_of_members in Hi as (_ & x & Hx & Hkeep & Hk).
    rewrite Nat.sub_0_r in Hx. exists x. split; [exact Hx|].
    rewrite (result_slot keep groupBy it nodes i x Hx), Hkeep, Hk.
    reflexivity. }
  split.
  - intros Hone. unfold big in *. rewrite Hone in *. simpl in *.
    split.
    + destruct gs; [reflexivity | discriminate].
    + intros i Hi. destruct (Hslot i Hi) as (x & -> & ->). reflexivity.
  - intros Htwo. unfold big in *.
    destruct (Nat.ltb_spec 1 (length ms)) as [_|Hlt]; [|lia].
    destruct gs as [|g [|g' gs]]; try discriminate.
    injection Hviews as Hid Hgrp _ _ _.
    exists g. split; [reflexivity|]. split; [exact Hid|]. split; [exact Hgrp|].
    intros i Hi. destruct (Hslot i Hi) as (x & _ & ->). simpl.
    rewrite Hid. reflexivity.
Qed.

(** For every box key of [groupByApp] and of [groupByVersion], the string
    [box_<namespace>_<app>]: a key with exactly one member gets no
    compound node and its member is left as it is; a key with two members
    or more gets exactly one appended compound node, whose id is the hash
    of the key, and every member's parent is that id. *)
Theorem group_per_key_with_two_members it nodes :
  grouping_cardinality app_candidate options.GroupByApp nodes
    (groupByApp it nodes)
  ∧ grouping_cardinality version_candidate options.GroupByVersion nodes
      (groupByVersion it nodes).
Proof.
  split.
  - exact (grouping_cardinality_generic app_candidate options.GroupByApp it nodes).
  - exact (grouping_cardinality_generic version_candidate
             options.GroupByVersion it nodes).
Qed.

Lemma group_views_marked nodes groupBy entries :
  Forall (fun v : string * string * string * string * string =>
            v.1.1.1.2 = groupBy)
    (group_views nodes groupBy entries).
Proof.
  induction entries as [|[k ms] rest IH]; simpl; [constructor|].
  destruct (big ms); simpl; [constructor; [reflexivity|]|]; exact IH.
Qed.

(** every appended record carries the group marker *)
Lemma appended_marked keep groupBy it nodes g :
  g ∈ drop (length nodes)
        (generateGroupCompoundNodes it (collect keep 0 nodes ∅) nodes groupBy) →
  NodeData.IsGroup g = groupBy.
Proof.
  intros Hg. destruct (result_grouped keep groupBy it nodes) as [_ Hviews].
  pose proof (group_views_marked nodes groupBy
                (range it (collect keep 0 nodes ∅))) as Hall.
  rewrite <- Hviews, Forall_forall in Hall.
  apply (Hall (group_view g)). apply list_elem_of_fmap. eauto.
Qed.

Lemma built_unmarked h entries built :
  Forall2 (built_from h) entries built →
  Forall (fun nd => NodeData.IsGroup nd = "" ∧ NodeData.Parent nd = "") built.
Proof.
  induction 1 as [|e nd entries built (n & _ & _ & Hk) _ IH]; constructor;
    [|exact IH].
  unfold key_fields in Hk. injection Hk as _ Hp _ _ _ _ _ _ Hg. auto.
Qed.

Lemma two_members (l : list nat) a b :
  NoDup l → a ∈ l → b ∈ l → a ≠ b → (2 ≤ length l)%nat.
Proof.
  intros Hnd Ha Hb Hne. destruct l as [|x [|y l]]; simpl; try lia.
  - inversion Ha.
  - apply list_elem_of_singleton in Ha, Hb. congruence.
Qed.

(** two records at different slots of the grouped slice that carry no
    group marker and share the namespace and a groupable app have the
    compound node of their key as parent, and that node is in the slice *)
Lemma groupByApp_pairs it nodes a b x y :
  a ≠ b →
  groupByApp it nodes !! a = Some x →
  groupByApp it nodes !! b = Some y →
  NodeData.IsGroup x = "" → NodeData.IsGroup y = "" →
  NodeData.App x ≠ "" → NodeData.App x ≠ "unknown" →
  NodeData.Namespace x = NodeData.Namespace y →
  NodeData.App x = NodeData.App y →
  ∃ g, g ∈ groupByApp it nodes
    ∧ NodeData.IsGroup g = options.GroupByApp
    ∧ NodeData.Id g = nodeHash (box_key x)
    ∧ NodeData.Parent x = NodeData.Id g
    ∧ NodeData.Parent y = NodeData.Id g.
Proof.
  intros Hab Ha Hb Hgx Hgy Happ1 Happ2 Hns Happ.
  change (groupByApp it nodes)
    with (generateGroupCompoundNodes it (collect app_candidate 0 nodes ∅)
            nodes options.GroupByApp) in *.
  set (res := generateGroupCompoundNodes it (collect app_candidate 0 nodes ∅)
                nodes options.GroupByApp) in *.
  assert (Hslot : ∀ c z, res !! c = Some z → NodeData.IsGroup z = "" →
            ∃ z0, nodes !! c = Some z0
              ∧ z = (if app_candidate z0
                        && big (members app_candidate (box_key z0) 0 nodes)
                     then NodeData.set_Parent (nodeHash (box_key z0)) z0
                     else z0)).
  { intros c z Hc Hgz. destruct (nodes !! c) as [z0|] eqn:Hz0.
    - exists z0. split; [reflexivity|].
      pose proof (result_slot app_candidate options.GroupByApp it nodes c z0
                    Hz0) as Hs.
      change (res !! c = Some
                (if app_candidate z0
                    && big (members app_candidate (box_key z0) 0 nodes)
                 then NodeData.set_Parent (nodeHash (box_key z0)) z0
                 else z0)) in Hs.
      congruence.
    - exfalso. apply lookup_ge_None in Hz0.
      assert (Hin : z ∈ drop (length nodes) res).
      { apply list_elem_of_lookup. exists (c - length nodes)%nat.
        rewrite lookup_drop. replace (length nodes + (c - length nodes))%nat
          with c by lia. exact Hc. }
      apply appended_marked in Hin. rewrite Hgz in Hin. discriminate. }
  destruct (Hslot a x Ha Hgx) as (x0 & Hx0 & Hx).
  destruct (Hslot b y Hb Hgy) as (y0 & Hy0 & Hy).
  assert (Hsame : ∀ z z0 : NodeData.t,
            z = (if app_candidate z0
                    && big (members app_candidate (box_key z0) 0 nodes)
                 then NodeData.set_Parent (nodeHash (box_key z0)) z0 else z0) →
            NodeData.Namespace z = NodeData.Namespace z0
            ∧ NodeData.App z = NodeData.App z0).
  { intros z z0 ->.
    destruct (app_candidate z0
              && big (members app_candidate (box_key z0) 0 nodes));
      split; reflexivity. }
  destruct (Hsame x x0 Hx) as [Hnsx Happx].
  destruct (Hsame y y0 Hy) as [Hnsy Happy].
  assert (Hkx : box_key x0 = box_key x)
    by (unfold box_key; rewrite Hnsx, Happx; reflexivity).
  assert (Hky : box_key y0 = box_key x)
    by (unfold box_key; rewrite <- Hnsy, <- Happy, Hns, Happ; reflexivity).
  assert (Hcand : ∀ z0 : NodeData.t, NodeData.App z0 = NodeData.App x →
                           app_candidate z0 = true).
  { intros z0 Hz. unfold app_candidate. rewrite Hz.
    destruct (String.eqb_spec (NodeData.App x) "unknown"); [contradiction|].
    destruct (String.eqb_spec (NodeData.App x) ""); [contradiction|].
    reflexivity. }
  assert (Hcx : app_candidate x0 = true) by (apply Hcand; congruence).
  assert (Hcy : app_candidate y0 = true) by (apply Hcand; congruence).
  set (k := box_key x) in *.
  assert (Hma : a ∈ members app_candidate k 0 nodes).
  { apply elem_of_members. split; [lia|]. exists x0.
    rewrite Nat.sub_0_r. auto. }
  assert (Hmb : b ∈ members app_candidate k 0 nodes).
  { apply elem_of_members. split; [lia|]. exists y0.
    rewrite Nat.sub_0_r. auto. }
  pose proof (two_members _ a b (members_NoDup _ _ _ _) Hma Hmb Hab) as Htwo.
  destruct (grouping_cardinality_generic app_candidate options.GroupByApp
              it nodes k) as [_ Hbig].
  destruct (Hbig Htwo) as (g & Hfilter & Hid & Hgrp & Hparents).
  exists g. fold res in Hfilter, Hparents.
  split; [|split; [exact Hgrp | split; [exact Hid|]]].
  - assert (Hg : g ∈ filter (fun g => box_key g = k) (drop (length nodes) res))
      by (rewrite Hfilter; left).
    apply list_elem_of_filter in Hg as [_ Hg].
    apply list_elem_of_lookup in Hg as [c Hc]. rewrite lookup_drop in Hc.
    apply list_elem_of_lookup. eauto.
  - pose proof (Hparents a Hma) as Hpa. pose proof (Hparents b Hmb) as Hpb.
    rewrite Ha in Hpa. rewrite Hb in Hpb. simpl in Hpa, Hpb.
    split; congruence.
Qed.

(** C3, as the code has it: with [group-by = app] and any graph type other
    than service, a well-typed graph is transformed and, in the output,
    any two node records without group marker that share the namespace
    and an app that is neither empty nor "unknown" have as parent the
    compound node of their key, which is in the output and is marked
    [app]. *)
Theorem app_grouping_except_service srt it trafficMap o h :
  graph_ok h trafficMap = true →
  options.VendorOptions.GroupBy o = options.GroupByApp →
  options.VendorOptions.GraphType o ≠ graph.GraphTypeService →
  ∃ cfg, run (NewConfig srt it trafficMap o) h = (Return cfg, h) ∧
    let nodes := Elements.Nodes (Config.Elements cfg) in
    ∀ i j x y,
      i ≠ j → nodes !! i = Some x → nodes !! j = Some y →
      NodeData.IsGroup x = "" → NodeData.IsGroup y = "" →
      NodeData.App x ≠ "" → NodeData.App x ≠ "unknown" →
      NodeData.Namespace x = NodeData.Namespace y →
      NodeData.App x = NodeData.App y →
      ∃ g, g ∈ nodes
        ∧ NodeData.IsGroup g = options.GroupByApp
        ∧ NodeData.Id g = nodeHash (box_key x)
        ∧ NodeData.Parent x = NodeData.Id g
        ∧ NodeData.Parent y = NodeData.Id g.
Proof.
  intros Hok Hby Htype. rewrite NewConfig_run.
  destruct (buildConfig_typed it h trafficMap o Hok)
    as (built & edges & -> & _).
  eexists. split; [reflexivity|]. cbn [document Config.Elements Elements.Nodes].
  assert (Hc : compound it o built = groupByApp it built).
  { unfold compound. rewrite Hby, String.eqb_refl.
    destruct (String.eqb_spec (options.VendorOptions.GraphType o)
                graph.GraphTypeService); [contradiction | reflexivity]. }
  rewrite Hc.
  pose proof (sort_Slice_perm srt node_less (groupByApp it built)) as Hperm.
  apply Permutation_inj in Hperm as (_ & f & Hinj & Hf).
  intros i j x y Hij Hi Hj Hgx Hgy Ha1 Ha2 Hns Happ.
  rewrite Hf in Hi, Hj.
  destruct (groupByApp_pairs it built (f i) (f j) x y) as (g & Hg & Hrest);
    try assumption.
  { intros Heq. apply Hij. exact (Hinj _ _ Heq). }
  exists g. split; [|exact Hrest].
  rewrite (sort_Slice_perm srt node_less (groupByApp it built)). exact Hg.
Qed.

(** C3 as stated fails: with [group-by = app] and the service graph
    type the two reviews nodes, which share namespace and app, stay
    without parent, and no compound node is emitted. *)
Lemma no_app_grouping_in_service_graph :
  ∃ cfg,
    run (NewConfig insertion_sort range_forward reviews_versions
           (sample_options options.GroupByApp graph.GraphTypeService))
      reviews_heap = (Return cfg, reviews_heap)
    ∧ map grouping_fields (Elements.Nodes (Config.Elements cfg)) =
        [ ("bookinfo", "reviews", "v1", "", "");
          ("bookinfo", "reviews", "v2", "", "") ].
Proof. eexists. split; vm_compute; reflexivity. Qed.

(** [app_grouping_except_service] at the two reviews nodes, in a graph of
    type app *)
Lemma app_grouping_except_service_witness :
  ∃ cfg,
    run (NewConfig insertion_sort range_forward reviews_versions
           (sample_options options.GroupByApp graph.GraphTypeApp))
      reviews_heap = (Return cfg, reviews_heap)
    ∧ map grouping_fields (Elements.Nodes (Config.Elements cfg)) =
        [ ("bookinfo", "reviews", "", "app", "");
          ("bookinfo", "reviews", "v1", "", nodeHash "box_bookinfo_reviews");
          ("bookinfo", "reviews", "v2", "", nodeHash "box_bookinfo_reviews") ].
Proof.
  destruct (app_grouping_except_service insertion_sort range_forward reviews_versions
              (sample_options options.GroupByApp graph.GraphTypeApp)
              reviews_heap eq_refl eq_refl ltac:(discriminate))
    as (cfg & Hrun & _).
  exists cfg. split; [exact Hrun|].
  vm_compute in Hrun. injection Hrun as <-. vm_compute. reflexivity.
Defined.

(** Scenario C: version grouping of the two reviews nodes in a versioned
    app graph *)
Example version_grouping_of_reviews :
  ∃ cfg,
    run (NewConfig insertion_sort range_backward reviews_versions
           (sample_options options.GroupByVersion graph.GraphTypeVersionedApp))
      reviews_heap = (Return cfg, reviews_heap)
    ∧ map grouping_fields (Elements.Nodes (Config.Elements cfg)) =
        [ ("bookinfo", "reviews", "", "version", "");
          ("bookinfo", "reviews", "v1", "", nodeHash "box_bookinfo_reviews");
          ("bookinfo", "reviews", "v2", "", nodeHash "box_bookinfo_reviews") ]
    ∧ map NodeData.HasMissingSC (Elements.Nodes (Config.Elements cfg)) =
        [ true; true; false ].
Proof. eexists. split; [|split]; vm_compute; reflexivity. Qed.

(** ** The order of the output *)

Lemma StronglySorted_lookup {A} (R : A → A → Prop) l i j a b :
  StronglySorted R l → (i < j)%nat →
  l !! i = Some a → l !! j = Some b → R a b.
Proof.
  intros Hs. revert i j. induction Hs as [|x l Hs IH Hx]; intros i j Hij Hi Hj.
  - discriminate.
  - destruct j as [|j]; [lia|]. simpl in Hj. destruct i as [|i]; simpl in Hi.
    + injection Hi as <-. rewrite Forall_forall in Hx. apply Hx.
      apply list_elem_of_lookup. eauto.
    + apply (IH i j); [lia | assumption | assumption].
Qed.

Lemma node_less_asym a b : node_less a b = true → node_less b a = false.
Proof. rewrite !node_less_keyed. apply keyed_less_asym, node_cmp_order. Qed.

Lemma node_less_negtrans a b c :
  node_less b a = false → node_less c b = false → node_less c a = false.
Proof. rewrite !node_less_keyed. apply keyed_less_negtrans, node_cmp_order. Qed.

Lemma edge_less_asym a b : edge_less a b = true → edge_less b a = false.
Proof. rewrite !edge_less_keyed. apply keyed_less_asym, edge_cmp_order. Qed.

Lemma edge_less_negtrans a b c :
  edge_less b a = false → edge_less c b = false → edge_less c a = false.
Proof. rewrite !edge_less_keyed. apply keyed_less_negtrans, edge_cmp_order. Qed.

Lemma ltb_empty (s : string) : s ≠ "" → String.ltb "" s = true.
Proof. destruct s; [congruence | reflexivity]. Qed.

(** a compound node precedes, in the sort order, a plain node of its
    namespace *)
Lemma node_less_group_first g x :
  NodeData.Namespace g = NodeData.Namespace x →
  NodeData.IsGroup g ≠ "" → NodeData.IsGroup x = "" →
  node_less g x = true.
Proof.
  intros Hns Hg Hx. unfold node_less. rewrite Hns, String.eqb_refl, Hx. simpl.
  destruct (String.eqb_spec (NodeData.IsGroup g) ""); [contradiction|].
  simpl. apply ltb_empty, Hg.
Qed.

(** The sorted node sequence of the document: no record is less, by the
    comparison of [NewConfig], than one before it; consequently, within a
    namespace, every compound node comes before every plain node. *)
Theorem nodes_sorted srt it trafficMap o h :
  graph_ok h trafficMap = true →
  ∃ cfg, run (NewConfig srt it trafficMap o) h = (Return cfg, h) ∧
    let nodes := Elements.Nodes (Config.Elements cfg) in
    StronglySorted (not_after node_less) nodes
    ∧ ∀ i j g x,
        nodes !! i = Some g → nodes !! j = Some x →
        NodeData.Namespace g = NodeData.Namespace x →
        NodeData.IsGroup g ≠ "" → NodeData.IsGroup x = "" →
        (i < j)%nat.
Proof.
  intros Hok. rewrite NewConfig_run.
  destruct (buildConfig_typed it h trafficMap o Hok)
    as (built & edges & -> & _).
  eexists. split; [reflexivity|]. cbn [document Config.Elements Elements.Nodes].
  pose proof (sort_Slice_sorted srt node_less (compound it o built)
                (conj node_less_asym node_less_negtrans)) as Hs.
  split; [exact Hs|].
  intros i j g x Hi Hj Hns Hg Hx.
  destruct (Nat.lt_trichotomy i j) as [Hlt | [-> | Hgt]]; [exact Hlt | |].
  - rewrite Hi in Hj. injection Hj as <-. contradiction.
  - pose proof (StronglySorted_lookup _ _ _ _ _ _ Hs Hgt Hj Hi) as Hna.
    unfold not_after in Hna.
    rewrite (node_less_group_first g x Hns Hg Hx) in Hna. discriminate.
Qed.

(** The sorted edge sequence of the document: ascending by source id,
    then by target id. *)
Theorem edges_sorted srt it trafficMap o h :
  graph_ok h trafficMap = true →
  ∃ cfg, run (NewConfig srt it trafficMap o) h = (Return cfg, h) ∧
    ∀ i j a b,
      (i < j)%nat →
      Elements.Edges (Config.Elements cfg) !! i = Some a →
      Elements.Edges (Config.Elements cfg) !! j = Some b →
      String.ltb (EdgeData.Source a) (EdgeData.Source b) = true
      ∨ (EdgeData.Source a = EdgeData.Source b
         ∧ String.ltb (EdgeData.Target b) (EdgeData.Target a) = false).
Proof.
  intros Hok. rewrite NewConfig_run.
  destruct (buildConfig_typed it h trafficMap o Hok)
    as (built & edges & -> & _).
  eexists. split; [reflexivity|]. cbn [document Config.Elements Elements.Edges].
  pose proof (sort_Slice_sorted srt edge_less edges
                (conj edge_less_asym edge_less_negtrans)) as Hs.
  intros i j a b Hij Hi Hj.
  pose proof (StronglySorted_lookup _ _ _ _ _ _ Hs Hij Hi Hj) as Hna.
  unfold not_after, edge_less in Hna.
  destruct (String.ltb (EdgeData.Source b) (EdgeData.Source a)) eqn:Hba;
    [discriminate|].
  destruct (String.ltb (EdgeData.Source a) (EdgeData.Source b)) eqn:Hab;
    [left; reflexivity|].
  right. split; [|exact Hna].
  unfold String.ltb in Hab, Hba.
  rewrite (String.compare_antisym (EdgeData.Source b)) in Hba.
  destruct (String.compare (EdgeData.Source a) (EdgeData.Source b)) eqn:Hc;
    try discriminate.
  apply String.compare_eq_iff, Hc.
Qed.

(** ** Inputs on which the output depends on the order of [range] *)

(** C1 fails on [twins]: the two orders in which [range] can visit the
    traffic map give documents that list the two records in opposite
    orders. *)
Lemma document_depends_on_range_order :
  ∃ cfg1 cfg2,
    run (NewConfig insertion_sort range_forward twins (sample_options "none" "workload"))
      twin_heap = (Return cfg1, twin_heap)
    ∧ run (NewConfig insertion_sort range_backward twins (sample_options "none" "workload"))
        twin_heap = (Return cfg2, twin_heap)
    ∧ map NodeData.Id (Elements.Nodes (Config.Elements cfg1)) =
        [ nodeHash "wl_bookinfo_reviews-v1";
          nodeHash "vapp_bookinfo_reviews_v1" ]
    ∧ map NodeData.Id (Elements.Nodes (Config.Elements cfg2)) =
        [ nodeHash "vapp_bookinfo_reviews_v1";
          nodeHash "wl_bookinfo_reviews-v1" ]
    ∧ cfg1 ≠ cfg2.
Proof.
  do 2 eexists.
  split; [vm_compute; reflexivity|]. split; [vm_compute; reflexivity|].
  split; [vm_compute; reflexivity|]. split; [vm_compute; reflexivity|].
  intros H. apply (f_equal (fun c => map NodeData.Id
                                      (Elements.Nodes (Config.Elements c)))) in H.
  vm_compute in H. discriminate.
Qed.

(** C5 fails on [clash]: both nodes are boxed under [box_a_b_c], the
    compound node takes the namespace of its first member, and the member
    of the other namespace is emitted before it. *)
Lemma member_before_its_compound_node :
  fmt.Sprintf_box "a_b" "c" = fmt.Sprintf_box "a" "b_c"
  ∧ ∃ cfg,
      run (NewConfig insertion_sort range_backward clash
             (sample_options options.GroupByApp graph.GraphTypeApp))
        clash_heap = (Return cfg, clash_heap)
      ∧ map placement (Elements.Nodes (Config.Elements cfg)) =
          [ (nodeHash "wl_a_b_c-v1-2", "a", "", nodeHash "box_a_b_c");
            (nodeHash "box_a_b_c", "a_b", "app", "");
            (nodeHash "wl_a_b_c-v1", "a_b", "", nodeHash "box_a_b_c") ].
Proof.
  split; [reflexivity|]. eexists. split; vm_compute; reflexivity.
Qed.

(** ** The order of the output on the sample graphs *)

(** [nodes_sorted] at the version grouping of the two reviews nodes *)
Lemma nodes_sorted_witness :
  ∃ cfg,
    run (NewConfig insertion_sort range_forward reviews_versions
           (sample_options options.GroupByVersion graph.GraphTypeVersionedApp))
      reviews_heap = (Return cfg, reviews_heap)
    ∧ StronglySorted (not_after node_less)
        (Elements.Nodes (Config.Elements cfg))
    ∧ map NodeData.IsGroup (Elements.Nodes (Config.Elements cfg))
      = ["version"; ""; ""].
Proof.
  destruct (nodes_sorted insertion_sort range_forward reviews_versions
              (sample_options options.GroupByVersion
                 graph.GraphTypeVersionedApp) reviews_heap eq_refl)
    as (cfg & Hrun & Hs & _).
  exists cfg. split; [exact Hrun|]. split; [exact Hs|].
  vm_compute in Hrun. injection Hrun as <-. reflexivity.
Defined.

(** [edges_sorted] at the sample traffic map *)
Lemma edges_sorted_witness :
  ∃ cfg,
    run (NewConfig insertion_sort range_forward bookinfo
           (sample_options "none" "workload"))
      bookinfo_heap = (Return cfg, bookinfo_heap)
    ∧ map EdgeData.Source (Elements.Edges (Config.Elements cfg))
      = [ nodeHash "wl_bookinfo_productpage-v1";
          nodeHash "wl_bookinfo_productpage-v1";
          nodeHash "wl_bookinfo_productpage-v1";
          nodeHash "wl_bookinfo_details-v1";
          nodeHash "wl_bookinfo_reviews-v1" ].
Proof.
  destruct (edges_sorted insertion_sort range_forward bookinfo
              (sample_options "none" "workload") bookinfo_heap eq_refl)
    as (cfg & Hrun & _).
  exists cfg. split; [exact Hrun|].
  vm_compute in Hrun. injection Hrun as <-. vm_compute. reflexivity.
Defined.

(** ** Parent references *)

Lemma group_views_orphan nodes groupBy entries :
  Forall (fun v : string * string * string * string * string => v.2 = "")
    (group_views nodes groupBy entries).
Proof.
  induction entries as [|[k ms] rest IH]; simpl; [constructor|].
  destruct (big ms); simpl; [constructor; [reflexivity|]|]; exact IH.
Qed.

(** in the grouped slice, a record with a parent is a member of a key
    with two members or more, and the compound node of that key is in the
    slice *)
Lemma grouped_parent keep groupBy it nodes x :
  Forall (fun nd => NodeData.IsGroup nd = "" ∧ NodeData.Parent nd = "") nodes →
  x ∈ generateGroupCompoundNodes it (collect keep 0 nodes ∅) nodes groupBy →
  NodeData.Parent x ≠ "" →
  ∃ g, g ∈ generateGroupCompoundNodes it (collect keep 0 nodes ∅) nodes groupBy
    ∧ NodeData.Id g = NodeData.Parent x
    ∧ NodeData.IsGroup g = groupBy.
Proof.
  intros Hnodes Hx Hp.
  set (res := generateGroupCompoundNodes it (collect keep 0 nodes ∅) nodes
                groupBy) in *.
  apply list_elem_of_lookup in Hx as [c Hc].
  destruct (nodes !! c) as [x0|] eqn:Hx0.
  - pose proof (result_slot keep groupBy it nodes c x0 Hx0) as Hs.
    change (res !! c = Some
              (if keep x0 && big (members keep (box_key x0) 0 nodes)
               then NodeData.set_Parent (nodeHash (box_key x0)) x0
               else x0)) in Hs.
    rewrite Hc in Hs. injection Hs as Hs.
    rewrite Forall_forall in Hnodes.
    destruct (Hnodes x0 (list_elem_of_lookup_2 _ _ _ Hx0)) as [_ Hp0].
    destruct (keep x0) eqn:Hkeep; simpl in Hs; [|congruence].
    destruct (big (members keep (box_key x0) 0 nodes)) eqn:Hbig; [|congruence].
    destruct (grouping_cardinality_generic keep groupBy it nodes (box_key x0))
      as [_ Htwo].
    destruct Htwo as (g & Hfilter & Hid & Hgrp & _).
    { unfold big in Hbig. apply Nat.ltb_lt in Hbig. lia. }
    exists g. fold res in Hfilter.
    split; [|split; [rewrite Hs; exact Hid | exact Hgrp]].
    assert (Hg : g ∈ filter (fun g => box_key g = box_key x0)
                       (drop (length nodes) res))
      by (rewrite Hfilter; left).
    apply list_elem_of_filter in Hg as [_ Hg].
    apply list_elem_of_lookup in Hg as [d Hd]. rewrite lookup_drop in Hd.
    apply list_elem_of_lookup. eauto.
  - exfalso. apply lookup_ge_None in Hx0.
    assert (Hin : x ∈ drop (length nodes) res).
    { apply list_elem_of_lookup. exists (c - length nodes)%nat.
      rewrite lookup_drop. replace (length nodes + (c - length nodes))%nat
        with c by lia. exact Hc. }
    destruct (result_grouped keep groupBy it nodes) as [_ Hviews].
    pose proof (group_views_orphan nodes groupBy
                  (range it (collect keep 0 nodes ∅))) as Hall.
    fold res in Hviews. rewrite <- Hviews, Forall_forall in Hall.
    apply Hp. apply (Hall (group_view x)). apply list_elem_of_fmap. eauto.
Qed.

(** Every record of the document that has a parent names a compound node
    of the document, marked with the grouping that was asked for. *)
Theorem parent_is_emitted srt it trafficMap o h :
  graph_ok h trafficMap = true →
  ∃ cfg, run (NewConfig srt it trafficMap o) h = (Return cfg, h) ∧
    ∀ x, x ∈ Elements.Nodes (Config.Elements cfg) →
         NodeData.Parent x ≠ "" →
         ∃ g, g ∈ Elements.Nodes (Config.Elements cfg)
           ∧ NodeData.Id g = NodeData.Parent x
           ∧ NodeData.IsGroup g = options.VendorOptions.GroupBy o
           ∧ NodeData.IsGroup g ≠ "".
Proof.
  intros Hok. rewrite NewConfig_run.
  destruct (buildConfig_typed it h trafficMap o Hok)
    as (built & edges & -> & Hbuilt).
  eexists. split; [reflexivity|]. cbn [document Config.Elements Elements.Nodes].
  apply built_unmarked in Hbuilt.
  intros x Hx Hp. rewrite (sort_Slice_perm srt) in Hx.
  assert (Hg : ∃ g, g ∈ compound it o built
                 ∧ NodeData.Id g = NodeData.Parent x
                 ∧ NodeData.IsGroup g = options.VendorOptions.GroupBy o
                 ∧ NodeData.IsGroup g ≠ "").
  { unfold compound in *.
    destruct (String.eqb_spec (options.VendorOptions.GroupBy o)
                options.GroupByApp) as [Hby|Hby].
    - destruct (negb (String.eqb (options.VendorOptions.GraphType o)
                        graph.GraphTypeService)).
      + destruct (grouped_parent _ _ it built x Hbuilt Hx Hp)
          as (g & Hg & Hid & Hgrp).
        exists g. rewrite Hgrp, Hby. repeat split; try assumption. discriminate.
      + rewrite Forall_forall in Hbuilt. destruct (Hbuilt x Hx). contradiction.
    - destruct (String.eqb_spec (options.VendorOptions.GroupBy o)
                  options.GroupByVersion) as [Hby'|Hby'].
      + destruct (String.eqb (options.VendorOptions.GraphType o)
                    graph.GraphTypeVersionedApp).
        * destruct (grouped_parent _ _ it built x Hbuilt Hx Hp)
            as (g & Hg & Hid & Hgrp).
          exists g. rewrite Hgrp, Hby'. repeat split; try assumption.
          discriminate.
        * rewrite Forall_forall in Hbuilt. destruct (Hbuilt x Hx).
          contradiction.
      + rewrite Forall_forall in Hbuilt. destruct (Hbuilt x Hx).
        contradiction. }
  destruct Hg as (g & Hg & Hrest). exists g. split; [|exact Hrest].
  rewrite (sort_Slice_perm srt). exact Hg.
Qed.

(** [parent_is_emitted] at the app grouping of the two reviews nodes *)
Lemma parent_is_emitted_witness :
  ∃ cfg,
    run (NewConfig insertion_sort range_backward reviews_versions
           (sample_options options.GroupByApp graph.GraphTypeWorkload))
      reviews_heap = (Return cfg, reviews_heap)
    ∧ map (fun nd => (NodeData.Id nd, NodeData.Parent nd))
        (Elements.Nodes (Config.Elements cfg))
      = [ (nodeHash "box_bookinfo_reviews", "");
          (nodeHash "vapp_bookinfo_reviews_v1", nodeHash "box_bookinfo_reviews");
          (nodeHash "vapp_bookinfo_reviews_v2", nodeHash "box_bookinfo_reviews") ].
Proof.
  destruct (parent_is_emitted insertion_sort range_backward reviews_versions
              (sample_options options.GroupByApp graph.GraphTypeWorkload)
              reviews_heap eq_refl)
    as (cfg & Hrun & _).
  exists cfg. split; [exact Hrun|].
  vm_compute in Hrun. injection Hrun as <-. vm_compute. reflexivity.
Defined.

(** ** The compound nodes in full *)

Lemma or_flags_closed fs nd :
  or_flags fs nd =
  NodeData.set_IsOutside
    (NodeData.IsOutside nd || existsb (fun f : bool * bool * bool => f.2) fs)
    (NodeData.set_IsInaccessible
       (NodeData.IsInaccessible nd || existsb (fun f => f.1.2) fs)
       (NodeData.set_HasMissingSC
          (NodeData.HasMissingSC nd || existsb (fun f => f.1.1) fs) nd)).
Proof.
  unfold or_flags. revert nd.
  induction fs as [|f fs IH]; intros nd; simpl.
  - destruct nd; simpl. rewrite !orb_false_r. reflexivity.
  - rewrite IH. destruct nd; simpl. rewrite !orb_assoc. reflexivity.
Qed.

Lemma slot_flags_alter nodeId i nodes j :
  slot_flags (alter (NodeData.set_Parent nodeId) i nodes) j
  = slot_flags nodes j.
Proof.
  unfold slot_flags. destruct (decide (j = i)) as [->|Hne].
  - rewrite list_lookup_alter_eq. destruct (nodes !! i); reflexivity.
  - rewrite list_lookup_alter_ne by congruence. reflexivity.
Qed.

Lemma assign_members_full nodeId members nodes nd :
  assign_members nodeId members nodes nd
  = (set_parents nodeId members nodes,
     or_flags (map (slot_flags nodes) members) nd).
Proof.
  unfold set_parents, or_flags. revert nodes nd.
  induction members as [|i ms IH]; intros nodes nd; [reflexivity|].
  cbn [assign_members fold_left map]. rewrite IH.
  f_equal. f_equal.
  - apply map_ext. intros j. apply slot_flags_alter.
  - unfold slot_flags, flags. cbn [fst snd].
    rewrite list_lookup_alter_eq. destruct (nodes !! i); reflexivity.
Qed.

Lemma generateGroup_full groupBy nodes k members :
  generateGroup groupBy nodes (k, members)
  = if big members
    then set_parents (nodeHash k) members nodes
         ++ [compound_node groupBy k (first_member nodes members)
               (map (slot_flags nodes) members)]
    else nodes.
Proof.
  unfold generateGroup, big. destruct (1 <? length members)%nat; [|reflexivity].
  cbv zeta. rewrite assign_members_full, or_flags_closed. reflexivity.
Qed.

Lemma compound_node_ext groupBy k f1 f2 fs1 fs2 :
  NodeData.Namespace f1 = NodeData.Namespace f2 →
  NodeData.App f1 = NodeData.App f2 →
  fs1 ≡ₚ fs2 →
  compound_node groupBy k f1 fs1 = compound_node groupBy k f2 fs2.
Proof.
  intros Hns Happ Hfs. unfold compound_node. rewrite Hns, Happ.
  assert (Hex : ∀ p : bool * bool * bool → bool, existsb p fs1 = existsb p fs2).
  { intros p. apply eq_true_iff_eq. rewrite !existsb_exists.
    split; intros (f & Hin & Hp); exists f; (split; [|exact Hp]);
      apply list_elem_of_In; apply list_elem_of_In in Hin.
    - rewrite <- Hfs. exact Hin.
    - rewrite Hfs. exact Hin. }
  rewrite !Hex. reflexivity.
Qed.

Lemma appended_fold nodes groupBy entries :
  ∀ visited cur,
    grouped nodes groupBy visited cur →
    drop (length nodes) cur = compound_nodes nodes groupBy visited →
    members_in_arena (length nodes) entries →
    drop (length nodes) (fold_left (generateGroup groupBy) entries cur)
    = compound_nodes nodes groupBy (visited ++ entries).
Proof.
  induction entries as [|[k ms] rest IH]; intros visited cur Hg Hd Hm;
    cbn [fold_left].
  - rewrite app_nil_r. exact Hd.
  - apply Forall_cons in Hm as [Hms Hrest]. cbn [snd] in Hms.
    replace (visited ++ (k, ms) :: rest) with ((visited ++ [(k, ms)]) ++ rest)
      by (rewrite <- app_assoc; reflexivity).
    apply IH; [apply grouped_step; assumption | | exact Hrest].
    pose proof (grouped_length _ _ _ _ Hg) as Hlen. destruct Hg as [Hl _].
    rewrite generateGroup_full. unfold compound_nodes.
    rewrite flat_map_app. fold (compound_nodes nodes groupBy visited).
    simpl. rewrite app_nil_r, <- Hd.
    destruct (big ms); [|rewrite app_nil_r; reflexivity].
    rewrite drop_app_le by (rewrite set_parents_length; lia).
    f_equal.
    + apply list_eq. intros j. rewrite !lookup_drop, set_parents_lookup.
      rewrite bool_decide_eq_false_2; [reflexivity|].
      intros Hin. rewrite Forall_forall in Hms. specialize (Hms _ Hin). lia.
    + f_equal.
      assert (Hflags : map (slot_flags cur) ms = map (slot_flags nodes) ms).
      { apply map_ext_in. intros i Hi. apply list_elem_of_In in Hi.
        rewrite Forall_forall in Hms. unfold slot_flags.
        rewrite (Hl i (Hms i Hi)). destruct (nodes !! i); reflexivity. }
      rewrite Hflags. apply compound_node_ext; [| |reflexivity];
        unfold first_member; destruct ms as [|i ms]; simpl; try reflexivity;
        apply Forall_cons in Hms as [Hi _]; rewrite (Hl i Hi);
        destruct (nodes !! i); reflexivity.
Qed.

Lemma members_map {B} (g : NodeData.t → B) keep k nodes :
  ∀ i pre, length pre = i →
    map (fun j => g (default NodeData.zero ((pre ++ nodes) !! j)))
      (members keep k i nodes)
    = map g (boxed keep k nodes).
Proof.
  induction nodes as [|nd rest IH]; intros i pre Hlen; [reflexivity|].
  cbn [members boxed List.filter]. fold (boxed keep k rest).
  specialize (IH (S i) (pre ++ [nd])). rewrite <- app_assoc in IH.
  cbn [app] in IH.
  destruct (keep nd && String.eqb (box_key nd) k).
  - cbn [map]. rewrite IH by (rewrite length_app; simpl; lia).
    rewrite <- Hlen, list_lookup_middle by reflexivity. reflexivity.
  - apply IH. rewrite length_app. simpl. lia.
Qed.

Lemma members_boxed keep k nodes :
  map (fun j => default NodeData.zero (nodes !! j)) (members keep k 0 nodes)
  = boxed keep k nodes.
Proof.
  rewrite <- (map_id (boxed keep k nodes)).
  exact (members_map (fun x => x) keep k nodes 0%nat [] eq_refl).
Qed.

Lemma members_length keep k nodes :
  length (members keep k 0 nodes) = length (boxed keep k nodes).
Proof. rewrite <- members_boxed, length_map. reflexivity. Qed.

Lemma members_flags keep k nodes :
  map (slot_flags nodes) (members keep k 0 nodes)
  = map flags (boxed keep k nodes).
Proof. exact (members_map flags keep k nodes 0%nat [] eq_refl). Qed.

Lemma members_first keep k nodes :
  first_member nodes (members keep k 0 nodes)
  = default NodeData.zero (head (boxed keep k nodes)).
Proof.
  rewrite <- members_boxed. unfold first_member.
  destruct (members keep k 0 nodes); reflexivity.
Qed.

Lemma compound_nodes_keys keep groupBy nodes entries :
  (∀ k ms, (k, ms) ∈ entries → ms = members keep k 0 nodes) →
  compound_nodes nodes groupBy entries
  = map (box_of keep groupBy nodes)
      (List.filter (crowded keep nodes) entries.*1).
Proof.
  unfold compound_nodes.
  induction entries as [|[k ms] rest IH]; intros Hspec; [reflexivity|].
  cbn [flat_map fmap list_fmap List.filter fst snd].
  rewrite IH by (intros k' ms' H'; apply Hspec; by right).
  rewrite (Hspec k ms) by left.
  unfold crowded at 2, big. rewrite members_length.
  destruct (1 <? length (boxed keep k nodes))%nat; [|reflexivity].
  cbn [map app]. unfold box_of.
  rewrite members_first, members_flags. reflexivity.
Qed.

Lemma box_keys_NoDup keep it nodes : NoDup (box_keys keep it nodes).
Proof.
  unfold box_keys. apply NoDup_ListNoDup, List.NoDup_filter, NoDup_ListNoDup.
  apply (entries_NoDup keep it nodes).
Qed.

Lemma elem_of_box_keys keep it nodes k :
  k ∈ box_keys keep it nodes ↔ crowded keep nodes k = true.
Proof.
  unfold box_keys. rewrite list_elem_of_In, filter_In, <- list_elem_of_In.
  split; [tauto|]. intros Hc. split; [|exact Hc].
  apply list_elem_of_fmap. exists (k, members keep k 0 nodes).
  split; [reflexivity|]. apply (entries_spec keep it nodes).
  split; [reflexivity|]. intros Hnil.
  unfold crowded in Hc. rewrite <- members_length, Hnil in Hc. discriminate.
Qed.

(** the slice after the grouping pass: every record in its slot, with its
    parent reference, then one compound node per key with two members or
    more *)
Lemma grouping_records keep groupBy it nodes :
  generateGroupCompoundNodes it (collect keep 0 nodes ∅) nodes groupBy
  = map (put_in_box keep nodes) nodes
    ++ map (box_of keep groupBy nodes) (box_keys keep it nodes).
Proof.
  pose proof (result_grouped keep groupBy it nodes) as Hg.
  pose proof (grouped_length _ _ _ _ Hg) as Hlen.
  rewrite <- (take_drop (length nodes) (generateGroupCompoundNodes _ _ _ _))
    at 1.
  f_equal.
  - apply list_eq. intros i. rewrite list_lookup_fmap.
    destruct (nodes !! i) as [x|] eqn:Hx; simpl.
    + rewrite lookup_take_lt by (apply lookup_lt_Some in Hx; exact Hx).
      rewrite (result_slot keep groupBy it nodes i x Hx).
      unfold put_in_box, crowded, big. rewrite members_length. reflexivity.
    + apply lookup_ge_None. rewrite length_take.
      apply lookup_ge_None in Hx. lia.
  - unfold generateGroupCompoundNodes.
    rewrite (appended_fold nodes groupBy _ [] nodes).
    + simpl. apply compound_nodes_keys. intros k ms He.
      apply (entries_spec keep it nodes) in He. tauto.
    + apply grouped_start.
    + rewrite drop_all. reflexivity.
    + apply (entries_in_arena keep it nodes).
Qed.

(** ** The grouping pass and the order of the slice *)

Lemma unambiguous_spec nodes : unambiguous nodes = true → same_box nodes.
Proof.
  unfold unambiguous. rewrite forallb_forall. intros Hall x y Hx Hy Hk.
  apply list_elem_of_In in Hx, Hy.
  specialize (Hall x Hx). rewrite forallb_forall in Hall.
  specialize (Hall y Hy). rewrite Hk, String.eqb_refl in Hall. simpl in Hall.
  apply andb_true_iff in Hall as [H1 H2].
  apply String.eqb_eq in H1, H2. auto.
Qed.

Lemma filter_perm {A} (f : A → bool) (l1 l2 : list A) :
  l1 ≡ₚ l2 → List.filter f l1 ≡ₚ List.filter f l2.
Proof.
  induction 1 as [|x l1 l2 _ IH|x y l|l1 l2 l3 _ IH1 _ IH2]; simpl.
  - constructor.
  - destruct (f x); [constructor|]; exact IH.
  - destruct (f x), (f y); try reflexivity. constructor.
  - etransitivity; eassumption.
Qed.

Lemma boxed_perm keep k nodes1 nodes2 :
  nodes1 ≡ₚ nodes2 → boxed keep k nodes1 ≡ₚ boxed keep k nodes2.
Proof. apply filter_perm. Qed.

Lemma crowded_perm keep k nodes1 nodes2 :
  nodes1 ≡ₚ nodes2 → crowded keep nodes1 k = crowded keep nodes2 k.
Proof.
  intros Hp. unfold crowded.
  rewrite (Permutation_length (boxed_perm keep k _ _ Hp)). reflexivity.
Qed.

Lemma boxed_head keep k nodes :
  crowded keep nodes k = true →
  ∃ x, head (boxed keep k nodes) = Some x ∧ x ∈ nodes ∧ box_key x = k.
Proof.
  unfold crowded. intros Hc.
  destruct (boxed keep k nodes) as [|x l] eqn:Hb; [discriminate|].
  exists x. split; [reflexivity|].
  assert (Hin : In x (boxed keep k nodes)) by (rewrite Hb; left; reflexivity).
  apply filter_In in Hin as [Hin Hx]. apply list_elem_of_In in Hin.
  split; [exact Hin|].
  apply andb_true_iff in Hx as [_ Hx]. apply String.eqb_eq in Hx. exact Hx.
Qed.

(** the grouping pass yields the same records whatever the order of the
    slice and of the range over [appBox] *)
Lemma grouping_perm keep groupBy it1 it2 nodes1 nodes2 :
  nodes1 ≡ₚ nodes2 → same_box nodes1 →
  generateGroupCompoundNodes it1 (collect keep 0 nodes1 ∅) nodes1 groupBy
  ≡ₚ generateGroupCompoundNodes it2 (collect keep 0 nodes2 ∅) nodes2 groupBy.
Proof.
  intros Hp Hu. rewrite !grouping_records. apply Permutation_app.
  - rewrite (map_ext (put_in_box keep nodes1) (put_in_box keep nodes2)).
    + apply Permutation_map, Hp.
    + intros x. unfold put_in_box.
      rewrite (crowded_perm keep _ _ _ Hp). reflexivity.
  - transitivity (map (box_of keep groupBy nodes1) (box_keys keep it2 nodes2)).
    + apply Permutation_map, NoDup_Permutation; try apply box_keys_NoDup.
      intros k. rewrite !elem_of_box_keys, (crowded_perm keep _ _ _ Hp).
      reflexivity.
    + erewrite map_ext_in; [reflexivity|]. intros k Hk.
      apply list_elem_of_In, elem_of_box_keys in Hk.
      destruct (boxed_head keep k nodes2 Hk) as (x2 & Hh2 & Hx2 & Hk2).
      rewrite <- (crowded_perm keep _ _ _ Hp) in Hk.
      destruct (boxed_head keep k nodes1 Hk) as (x1 & Hh1 & Hx1 & Hk1).
      unfold box_of. rewrite Hh1, Hh2. simpl.
      rewrite <- Hp in Hx2.
      destruct (Hu x1 x2 Hx1 Hx2) as [Hns Happ];
        [congruence|].
      apply compound_node_ext; [exact Hns | exact Happ |].
      apply Permutation_map, boxed_perm, Hp.
Qed.

(** ** Sorting without ties *)

Lemma NoDup_key_inj {A K} (key : A → K) (l : list A) x y :
  NoDup (map key l) → x ∈ l → y ∈ l → key x = key y → x = y.
Proof.
  induction l as [|a l IH]; intros Hnd Hx Hy Hk; [inversion Hx|].
  simpl in Hnd. apply NoDup_cons in Hnd as [Ha Hnd].
  apply elem_of_cons in Hx as [->|Hx]; apply elem_of_cons in Hy as [->|Hy].
  - reflexivity.
  - exfalso. apply Ha. rewrite Hk. apply list_elem_of_fmap. eauto.
  - exfalso. apply Ha. rewrite <- Hk. apply list_elem_of_fmap. eauto.
  - apply IH; assumption.
Qed.

(** with no two elements of the same key, the sorted order is unique *)
Lemma sort_Slice_unique {A K} (cmp : K → K → comparison) `{!CmpOrder cmp}
    (key : A → K) (less : A → A → bool) srt1 srt2 (l1 l2 : list A) :
  (∀ a b, less a b = keyed_less cmp key a b) →
  l1 ≡ₚ l2 →
  NoDup (map key (sort_Slice srt1 less l1)) →
  sort_Slice srt2 less l2 = sort_Slice srt1 less l1.
Proof.
  intros Hless Hp Hnd.
  assert (Hsw : strict_weak less).
  { split.
    - intros a b. rewrite !Hless. apply keyed_less_asym. assumption.
    - intros a b c. rewrite !Hless. apply keyed_less_negtrans. assumption. }
  assert (Hperm : sort_Slice srt2 less l2 ≡ₚ sort_Slice srt1 less l1).
  { rewrite !sort_Slice_perm. symmetry. exact Hp. }
  apply (StronglySorted_unique_strong (not_after less));
    [|apply sort_Slice_sorted, Hsw..|exact Hperm].
  intros x1 x2 Hx1 Hx2 H12 H21. unfold not_after in *.
  rewrite Hless in H12, H21.
  apply (NoDup_key_inj key (sort_Slice srt1 less l1));
    [exact Hnd | rewrite <- Hperm; exact Hx1 | exact Hx2 |].
  symmetry. apply (keyed_less_tie cmp key x2 x1); assumption.
Qed.

(** ** Runs on the same traffic map *)

Lemma put_in_box_box keep nodes x :
  NodeData.Namespace (put_in_box keep nodes x) = NodeData.Namespace x
  ∧ NodeData.App (put_in_box keep nodes x) = NodeData.App x.
Proof.
  unfold put_in_box. destruct (keep x && crowded keep nodes (box_key x));
    destruct x; split; reflexivity.
Qed.

Lemma compound_perm it1 it2 o nodes1 nodes2 :
  nodes1 ≡ₚ nodes2 → same_box nodes1 →
  compound it1 o nodes1 ≡ₚ compound it2 o nodes2.
Proof.
  intros Hp Hu. unfold compound.
  destruct (String.eqb (options.VendorOptions.GroupBy o) options.GroupByApp).
  - destruct (negb (String.eqb (options.VendorOptions.GraphType o)
                      graph.GraphTypeService)); [|exact Hp].
    exact (grouping_perm app_candidate options.GroupByApp it1 it2 _ _ Hp Hu).
  - destruct (String.eqb (options.VendorOptions.GroupBy o)
                options.GroupByVersion); [|exact Hp].
    destruct (String.eqb (options.VendorOptions.GraphType o)
                graph.GraphTypeVersionedApp); [|exact Hp].
    exact (grouping_perm version_candidate options.GroupByVersion it1 it2
             _ _ Hp Hu).
Qed.

Lemma grouping_keeps keep groupBy it nodes x :
  x ∈ nodes →
  ∃ x', x' ∈ generateGroupCompoundNodes it (collect keep 0 nodes ∅) nodes
               groupBy
    ∧ NodeData.Namespace x' = NodeData.Namespace x
    ∧ NodeData.App x' = NodeData.App x.
Proof.
  intros Hx. exists (put_in_box keep nodes x).
  split; [|apply put_in_box_box].
  rewrite grouping_records. apply elem_of_app. left.
  apply list_elem_of_In, in_map, list_elem_of_In, Hx.
Qed.

Lemma compound_keeps it o nodes x :
  x ∈ nodes →
  ∃ x', x' ∈ compound it o nodes
    ∧ NodeData.Namespace x' = NodeData.Namespace x
    ∧ NodeData.App x' = NodeData.App x.
Proof.
  intros Hx. unfold compound.
  destruct (String.eqb (options.VendorOptions.GroupBy o) options.GroupByApp).
  - destruct (negb (String.eqb (options.VendorOptions.GraphType o)
                      graph.GraphTypeService)); [|eauto].
    exact (grouping_keeps app_candidate options.GroupByApp it nodes x Hx).
  - destruct (String.eqb (options.VendorOptions.GroupBy o)
                options.GroupByVersion); [|eauto].
    destruct (String.eqb (options.VendorOptions.GraphType o)
                graph.GraphTypeVersionedApp); [|eauto].
    exact (grouping_keeps version_candidate options.GroupByVersion it nodes
             x Hx).
Qed.

Lemma same_box_compound it o nodes :
  same_box (compound it o nodes) → same_box nodes.
Proof.
  intros Hu x y Hx Hy Hk.
  destruct (compound_keeps it o nodes x Hx) as (x' & Hx' & Hnx & Hax).
  destruct (compound_keeps it o nodes y Hy) as (y' & Hy' & Hny & Hay).
  rewrite <- Hnx, <- Hax, <- Hny, <- Hay. apply Hu; [exact Hx' | exact Hy' |].
  unfold box_key in *. congruence.
Qed.

(** When a run on a well-typed traffic map returns a document without
    ties, every run on that traffic map and those options returns the
    same document, whatever the order of the map ranges and the choices
    of the sort. *)
Theorem NewConfig_same_document_without_ties
    srt1 it1 srt2 it2 trafficMap o h cfg :
  graph_ok h trafficMap = true →
  run (NewConfig srt1 it1 trafficMap o) h = (Return cfg, h) →
  tie_free cfg = true →
  run (NewConfig srt2 it2 trafficMap o) h = (Return cfg, h).
Proof.
  intros Hok Hrun Hfree. rewrite NewConfig_run in *.
  rewrite (buildConfig_records it1 h trafficMap o Hok) in Hrun.
  rewrite (buildConfig_records it2 h trafficMap o Hok).
  injection Hrun as <-. f_equal. f_equal.
  unfold tie_free in Hfree. cbn [document Config.Elements Elements.Nodes
                                 Elements.Edges] in Hfree.
  apply andb_true_iff in Hfree as [Hfree Hu].
  apply andb_true_iff in Hfree as [Hn He].
  apply bool_decide_eq_true in Hn, He. apply unambiguous_spec in Hu.
  assert (Hents : range it1 trafficMap ≡ₚ range it2 trafficMap)
    by (rewrite !range_perm; reflexivity).
  unfold document. f_equal. f_equal.
  - apply (sort_Slice_unique node_cmp (CmpOrder0 := node_cmp_order) node_key);
      [exact node_less_keyed | | exact Hn].
    apply compound_perm; [apply Permutation_map, Hents|].
    apply (same_box_compound it1 o).
    intros x y Hx Hy. apply Hu; rewrite sort_Slice_perm; assumption.
  - apply (sort_Slice_unique edge_cmp (CmpOrder0 := edge_cmp_order) edge_key);
      [exact edge_less_keyed | | exact He].
    apply Permutation_flat_map, Hents.
Qed.

Lemma NewConfig_same_document_without_ties_witness :
  ∃ cfg,
    run (NewConfig insertion_sort range_forward reviews_versions
           (sample_options options.GroupByVersion graph.GraphTypeVersionedApp))
      reviews_heap = (Return cfg, reviews_heap)
    ∧ map NodeData.IsGroup (Elements.Nodes (Config.Elements cfg))
      = ["version"; ""; ""]
    ∧ run (NewConfig insertion_sort range_backward reviews_versions
             (sample_options options.GroupByVersion
                graph.GraphTypeVersionedApp))
        reviews_heap = (Return cfg, reviews_heap).
Proof.
  eexists. split; [vm_compute; reflexivity|]. split; [reflexivity|].
  apply (NewConfig_same_document_without_ties insertion_sort range_forward);
    vm_compute; reflexivity.
Defined.

(** ** Panics are independent of the order *)

Lemma run_heap_buildEdges n es edges o h :
  (run (buildEdges n es edges o) h).2 = h.
Proof. apply preserves_buildEdges. Qed.

Lemma buildEdges_panics_acc n o h es :
  ∀ edges edges',
    panics (run (buildEdges n es edges o) h)
    = panics (run (buildEdges n es edges' o) h).
Proof.
  induction es as [|e es IH]; intros edges edges'; [reflexivity|].
  rewrite !buildEdges_cons, !run_bind.
  pose proof (preserves_buildEdge n e o h) as Hh.
  destruct (run (buildEdge n e o) h) as [[ed|] h']; simpl in Hh; subst h';
    [apply IH | reflexivity].
Qed.

Lemma buildConfig_loop_panics h o entries :
  ∀ nodes edges,
    panics (run (buildConfig_loop entries nodes edges o) h)
    = existsb (entry_panics h o) entries.
Proof.
  induction entries as [|[id p] rest IH]; intros nodes edges; [reflexivity|].
  cbn [existsb]. unfold entry_panics at 1.
  rewrite !buildConfig_loop_cons, !run_bind, !run_load.
  destruct (h !! p) as [n|]; [|reflexivity].
  rewrite !run_bind, !run_lift.
  destruct (buildNode id n) as [nd|]; [|reflexivity].
  rewrite !run_bind.
  pose proof (buildEdges_panics_acc n o h (graph.Node.Edges n) edges []) as Hacc.
  pose proof (preserves_buildEdges n (graph.Node.Edges n) edges o h) as H1.
  pose proof (preserves_buildEdges n (graph.Node.Edges n) [] o h) as H2.
  destruct (run (buildEdges n (graph.Node.Edges n) edges o) h) as [[eds|] h1];
    destruct (run (buildEdges n (graph.Node.Edges n) [] o) h) as [[eds0|] h2];
    simpl in H1, H2; subst h1 h2; try discriminate Hacc; try reflexivity.
  rewrite IH. reflexivity.
Qed.

Lemma NewConfig_panics srt it trafficMap o h :
  panics (run (NewConfig srt it trafficMap o) h)
  = existsb (entry_panics h o) (map_to_list trafficMap).
Proof.
  rewrite NewConfig_run. unfold buildConfig.
  pose proof (buildConfig_loop_panics h o (range it trafficMap) [] []) as Hp.
  assert (Hperm : existsb (entry_panics h o) (range it trafficMap)
                  = existsb (entry_panics h o) (map_to_list trafficMap)).
  { apply eq_true_iff_eq. rewrite !existsb_exists.
    split; intros (x & Hx & Hpx); exists x; (split; [|exact Hpx]);
      apply list_elem_of_In; apply list_elem_of_In in Hx.
    - rewrite <- (range_perm it trafficMap). exact Hx.
    - rewrite (range_perm it trafficMap). exact Hx. }
  rewrite <- Hperm, <- Hp.
  destruct (run (buildConfig_loop (range it trafficMap) [] [] o) h)
    as [[[nodes edges]|] h']; reflexivity.
Qed.

Lemma NewConfig_heap srt it trafficMap o h :
  (run (NewConfig srt it trafficMap o) h).2 = h.
Proof.
  rewrite NewConfig_run.
  pose proof (preserves_buildConfig_loop (range it trafficMap) [] [] o h) as Hh.
  unfold buildConfig.
  destruct (run (buildConfig_loop (range it trafficMap) [] [] o) h)
    as [[[nodes edges]|] h']; exact Hh.
Qed.

Lemma panics_run {A} (m : M A) h :
  (run m h).2 = h → panics (run m h) = true → run m h = (Panic, h).
Proof.
  unfold panics. destruct (run m h) as [[a|] h']; simpl; intros -> Hp;
    [discriminate | reflexivity].
Qed.

(** Whether [NewConfig] panics depends on the traffic map, the heap and
    the options only: when one run panics, so does every run, whatever
    the order of the map ranges and the choices of the sort. *)
Theorem NewConfig_panics_in_every_order srt1 it1 srt2 it2 trafficMap o h :
  run (NewConfig srt1 it1 trafficMap o) h = (Panic, h) →
  run (NewConfig srt2 it2 trafficMap o) h = (Panic, h).
Proof.
  intros Hrun. apply panics_run; [apply NewConfig_heap|].
  rewrite NewConfig_panics, <- (NewConfig_panics srt1 it1), Hrun. reflexivity.
Qed.

Lemma NewConfig_panics_in_every_order_witness :
  run (NewConfig insertion_sort range_forward mixed
         (sample_options "none" "workload")) mixed_heap
  = (Panic, mixed_heap)
  ∧ run (NewConfig insertion_sort range_backward mixed
           (sample_options "none" "workload")) mixed_heap
    = (Panic, mixed_heap).
Proof.
  split; [vm_compute; reflexivity|].
  apply (NewConfig_panics_in_every_order insertion_sort range_forward).
  vm_compute. reflexivity.
Defined.

(** ** Inputs on which [NewConfig] panics *)

Lemma entry_panics_run srt it trafficMap o h id p :
  trafficMap !! id = Some p →
  entry_panics h o (id, p) = true →
  run (NewConfig srt it trafficMap o) h = (Panic, h).
Proof.
  intros Hid Hp. apply panics_run; [apply NewConfig_heap|].
  rewrite NewConfig_panics. apply existsb_exists. exists (id, p).
  split; [|exact Hp]. apply list_elem_of_In, elem_of_map_to_list, Hid.
Qed.

Lemma entry_panics_node h o id p n :
  h !! p = Some n → buildNode id n = Panic → entry_panics h o (id, p) = true.
Proof.
  intros Hp Hn. unfold entry_panics.
  rewrite buildConfig_loop_cons, (run_load_bind _ _ _ _ Hp), Hn. reflexivity.
Qed.

Lemma buildEdges_panics_elem n o h e es :
  e ∈ es → panics (run (buildEdge n e o) h) = true →
  ∀ edges, panics (run (buildEdges n es edges o) h) = true.
Proof.
  intros Hin Hp. induction es as [|e' es IH]; intros edges; [inversion Hin|].
  rewrite buildEdges_cons, run_bind.
  pose proof (preserves_buildEdge n e' o h) as Hh.
  destruct (run (buildEdge n e' o) h) as [[ed|] h'] eqn:He'; simpl in Hh;
    subst h'; [|reflexivity].
  apply elem_of_cons in Hin as [->|Hin]; [|apply IH, Hin].
  rewrite He' in Hp. discriminate.
Qed.

Lemma entry_panics_edge h o id p n e :
  h !! p = Some n → e ∈ graph.Node.Edges n →
  panics (run (buildEdge n e o) h) = true →
  entry_panics h o (id, p) = true.
Proof.
  intros Hp Hin He. unfold entry_panics.
  rewrite buildConfig_loop_cons, (run_load_bind _ _ _ _ Hp), run_bind, run_lift.
  destruct (buildNode id n) as [nd|]; [|reflexivity].
  rewrite run_bind.
  pose proof (buildEdges_panics_elem n o h e _ Hin He []) as Hes.
  destruct (run (buildEdges n (graph.Node.Edges n) [] o) h) as [[eds|] h'];
    [discriminate | reflexivity].
Qed.

Lemma copy_if_present_untyped {A T} md k t v
    (asrt : value → outcome T) (set : T → A → A) (x : A) :
  md !! k = Some v → has_type t v = false →
  (∀ v, has_type t v = false → asrt v = Panic) →
  copy_if_present md k asrt set x = Panic.
Proof.
  unfold copy_if_present. intros -> Hv Hasrt. rewrite (Hasrt v Hv). reflexivity.
Qed.

Lemma assert_bool_untyped v : has_type TBool v = false → assert_bool v = Panic.
Proof. destruct v; try reflexivity; discriminate. Qed.

Lemma assert_string_untyped v :
  has_type TString v = false → assert_string v = Panic.
Proof. destruct v; try reflexivity; discriminate. Qed.

Lemma assert_map_string_bool_untyped v :
  has_type TMapStringBool v = false → assert_map_string_bool v = Panic.
Proof. destruct v; try reflexivity; discriminate. Qed.

Lemma addNodeTelemetry_untyped s nd k v :
  In k ["httpIn"; "httpOut"; "tcpIn"; "tcpOut"] →
  graph.Node.Metadata s !! k = Some v → has_type TFloat64 v = false →
  addNodeTelemetry s nd = Panic.
Proof.
  intros Hin Hk Hv. pose proof (getRate_untyped _ _ _ Hk Hv) as Hr.
  unfold addNodeTelemetry. cbv zeta.
  repeat first
    [ reflexivity
    | match goal with
      | |- context [getRate ?md ?k'] =>
          let H := fresh "Hg" in
          destruct (getRate md k') eqn:H; cbn [mbind outcome_bind]
      | |- context [if gt0 ?x then _ else _] =>
          destruct (gt0 x); cbn [mbind outcome_bind]
      end ];
    simpl in Hin; intuition (subst; congruence).
Qed.

Lemma buildNode_untyped id n k t v :
  In (k, t) node_always →
  graph.Node.Metadata n !! k = Some v → has_type t v = false →
  buildNode id n = Panic.
Proof.
  intros Hin Hk Hv. unfold buildNode. cbv zeta.
  match goal with
  | |- (addNodeTelemetry n ?nd0 ≫= _) = Panic =>
      destruct (addNodeTelemetry n nd0) as [nd1|] eqn:Ht;
      cbn [mbind outcome_bind]; [|reflexivity]
  end.
  assert (Hrate : In k ["httpIn"; "httpOut"; "tcpIn"; "tcpOut"] →
                  t = TFloat64 → False).
  { intros Hin' ->.
    match type of Ht with addNodeTelemetry n ?nd0 = _ =>
      rewrite (addNodeTelemetry_untyped n nd0 k v Hin' Hk Hv) in Ht
    end. discriminate. }
  repeat match goal with
         | |- (copy_if_present ?md ?k' ?asrt ?set ?x ≫= _) = Panic =>
             let H := fresh "Hc" in
             destruct (copy_if_present md k' asrt set x) eqn:H;
             cbn [mbind outcome_bind]; [|reflexivity]
         end.
  simpl in Hin.
  repeat match goal with
         | H : _ ∨ _ |- _ => destruct H
         | H : (_, _) = (_, _) |- _ => injection H as <- <-
         | H : False |- _ => destruct H
         end;
    try (exfalso; apply Hrate; [simpl; tauto | reflexivity]);
    first
      [ apply (copy_if_present_untyped _ _ _ _ _ _ _ Hk Hv);
        first [ exact assert_bool_untyped | exact assert_string_untyped
              | exact assert_map_string_bool_untyped ]
      | match goal with
        | H : copy_if_present _ ?k' ?asrt ?set ?x = Return _ |- _ =>
            rewrite (copy_if_present_untyped _ k' _ v asrt set x Hk Hv) in H;
            [ discriminate
            | first [ exact assert_bool_untyped | exact assert_string_untyped
                    | exact assert_map_string_bool_untyped ] ]
        end ].
Qed.

Lemma buildEdge_panics_nil_dest n e o h :
  h !! graph.Edge.Dest e = None → panics (run (buildEdge n e o) h) = true.
Proof.
  intros Hd. unfold buildEdge. cbv zeta. rewrite run_bind, run_load, Hd.
  reflexivity.
Qed.

Lemma buildEdge_panics_nil_source n e o h :
  h !! graph.Edge.Source e = None → panics (run (buildEdge n e o) h) = true.
Proof.
  intros Hs. unfold buildEdge, addEdgeTelemetry. cbv zeta.
  repeat first
    [ reflexivity
    | rewrite run_bind
    | rewrite run_lift
    | rewrite run_load, ?Hs
    | match goal with
      | |- context [h !! graph.Edge.Dest e] =>
          destruct (h !! graph.Edge.Dest e)
      | |- context [graph.Edge.Metadata e !! "protocol"] =>
          destruct (graph.Edge.Metadata e !! "protocol") as [[]|]
      | |- context [getRate ?md ?k] => destruct (getRate md k)
      | |- context [copy_if_present ?md ?k ?a ?s ?x] =>
          destruct (copy_if_present md k a s x)
      | |- context [if gt0 ?x then _ else _] => destruct (gt0 x)
      end
    | progress cbn [assert_string] ].
Qed.

(** A value of another dynamic type than the code asserts, under a key
    that [buildConfig] reads on every node, makes every run of
    [NewConfig] panic. *)
Theorem NewConfig_panics_on_mistyped_node
    srt it trafficMap o h id p n k t v :
  trafficMap !! id = Some p →
  h !! p = Some n →
  In (k, t) node_always →
  graph.Node.Metadata n !! k = Some v →
  has_type t v = false →
  run (NewConfig srt it trafficMap o) h = (Panic, h).
Proof.
  intros Hid Hp Hin Hk Hv. apply (entry_panics_run _ _ _ _ _ id p Hid).
  apply (entry_panics_node _ _ _ _ n Hp).
  exact (buildNode_untyped id n k t v Hin Hk Hv).
Qed.

Lemma NewConfig_panics_on_mistyped_node_witness :
  mixed !! "wl_bookinfo_reviews-v1" = Some 1%nat
  ∧ graph.Node.Metadata mistyped_node !! "httpIn" = Some (VString "12.5")
  ∧ run (NewConfig insertion_sort range_backward mixed
           (sample_options "app" "app")) mixed_heap
    = (Panic, mixed_heap).
Proof.
  split; [reflexivity|]. split; [reflexivity|].
  apply (NewConfig_panics_on_mistyped_node _ _ _ _ _
           "wl_bookinfo_reviews-v1" 1%nat mistyped_node "httpIn" TFloat64
           (VString "12.5"));
    first [reflexivity | simpl; tauto].
Defined.

(** A nil node in the traffic map, or an edge of one of its nodes whose
    source or destination is nil, makes every run of [NewConfig] panic. *)
Theorem NewConfig_panics_on_nil srt it trafficMap o h id p :
  trafficMap !! id = Some p →
  (h !! p = None
   ∨ ∃ n e, h !! p = Some n ∧ e ∈ graph.Node.Edges n
       ∧ (h !! graph.Edge.Dest e = None ∨ h !! graph.Edge.Source e = None)) →
  run (NewConfig srt it trafficMap o) h = (Panic, h).
Proof.
  intros Hid Hnil. apply (entry_panics_run _ _ _ _ _ id p Hid).
  destruct Hnil as [Hp | (n & e & Hp & Hin & Hnil)].
  - unfold entry_panics.
    rewrite buildConfig_loop_cons, run_bind, run_load, Hp. reflexivity.
  - apply (entry_panics_edge _ _ _ _ n e Hp Hin).
    destruct Hnil as [Hd|Hs];
      [apply buildEdge_panics_nil_dest | apply buildEdge_panics_nil_source];
      assumption.
Qed.

Lemma NewConfig_panics_on_nil_witness :
  dangling_heap !! graph.Edge.Dest dangling_edge = None
  ∧ run (NewConfig insertion_sort range_forward dangling
           (sample_options "none" "workload")) dangling_heap
    = (Panic, dangling_heap).
Proof.
  split; [reflexivity|].
  apply (NewConfig_panics_on_nil _ _ _ _ _ "wl_bookinfo_reviews-v1" 1%nat);
    [reflexivity|].
  right. eexists _, dangling_edge. split; [reflexivity|].
  split; [left | left; reflexivity].
Defined.

(** ** Keys that are read on a condition *)

(** The per-status rates of a node are read only when its [httpIn] rate
    is greater than zero: otherwise the record is built whatever is stored
    under them, of whatever type, and has none of the four inbound HTTP
    fields. *)
Theorem status_rates_unread_without_httpIn id n :
  conforms node_always (graph.Node.Metadata n) = true →
  gt0 (rate (graph.Node.Metadata n) "httpIn") = false →
  ∃ nd, buildNode id n = Return nd
    ∧ NodeData.HttpIn nd = "" ∧ NodeData.HttpIn3xx nd = ""
    ∧ NodeData.HttpIn4xx nd = "" ∧ NodeData.HttpIn5xx nd = "".
Proof.
  intros Hc Hgt. unfold buildNode, addNodeTelemetry. cbv zeta.
  assert (Hr : ∀ k, In (k, TFloat64) node_always →
               getRate (graph.Node.Metadata n) k
               = Return (rate (graph.Node.Metadata n) k)).
  { intros k Hin. apply getRate_typed. eapply conforms_typed; eauto. }
  rewrite (Hr "httpIn"), (Hr "httpOut"), (Hr "tcpIn"), (Hr "tcpOut")
    by (simpl; tauto).
  cbn [mbind outcome_bind]. rewrite Hgt. cbn [mbind outcome_bind].
  pose (P := fun a => NodeData.HttpIn a = "" ∧ NodeData.HttpIn3xx a = ""
                      ∧ NodeData.HttpIn4xx a = "" ∧ NodeData.HttpIn5xx a = "").
  match goal with
  | |- context [copy_if_present _ "isDead" _ _ ?x] =>
      assert (HP : P x)
        by (repeat match goal with
                   | |- context [if ?c then _ else _] => destruct c
                   end; repeat split);
      set (y := x) in *; clearbody y
  end.
  repeat copy_step Hc P.
  match goal with
  | H : P ?z |- ∃ nd, Return ?z = Return nd ∧ _ =>
      exists z; split; [reflexivity | exact H]
  end.
Qed.

Lemma status_rates_unread_without_httpIn_witness :
  graph.Node.Metadata node_3xx_text !! "httpIn3xx" = Some (VString "1.0")
  ∧ ∃ nd, buildNode "wl_bookinfo_reviews-v1" node_3xx_text = Return nd
      ∧ NodeData.HttpIn nd = "" ∧ NodeData.HttpIn3xx nd = ""
      ∧ NodeData.HttpIn4xx nd = "" ∧ NodeData.HttpIn5xx nd = "".
Proof.
  split; [reflexivity|].
  apply (status_rates_unread_without_httpIn "wl_bookinfo_reviews-v1"
           node_3xx_text); vm_compute; reflexivity.
Defined.

(** ** The plain records and the edges of the document *)

Lemma node_records_unmarked h entries :
  forallb (entry_ok h) entries = true →
  Forall (fun nd => NodeData.IsGroup nd = "" ∧ NodeData.Parent nd = "")
    (map (node_record h) entries).
Proof.
  rewrite forallb_forall. intros Hall. apply Forall_forall. intros nd Hnd.
  apply list_elem_of_In, in_map_iff in Hnd as (e & <- & He).
  destruct (node_record_built h e (Hall e He)) as (n & _ & _ & Hk).
  unfold key_fields in Hk. injection Hk as _ Hp _ _ _ _ _ _ Hg. auto.
Qed.

Lemma filter_all {A} (f : A → bool) (l : list A) :
  Forall (fun x => f x = true) l → List.filter f l = l.
Proof.
  induction 1 as [|x l Hx _ IH]; simpl; [reflexivity|]. rewrite Hx, IH.
  reflexivity.
Qed.

Lemma filter_none {A} (f : A → bool) (l : list A) :
  Forall (fun x => f x = false) l → List.filter f l = [].
Proof.
  induction 1 as [|x l Hx _ IH]; simpl; [reflexivity|]. rewrite Hx, IH.
  reflexivity.
Qed.

Lemma put_in_box_unparent keep nodes x :
  unparent (put_in_box keep nodes x) = unparent x.
Proof.
  unfold put_in_box, unparent.
  destruct (keep x && crowded keep nodes (box_key x)); destruct x; reflexivity.
Qed.

Lemma put_in_box_plain keep nodes x :
  NodeData.IsGroup (put_in_box keep nodes x) = NodeData.IsGroup x.
Proof.
  unfold put_in_box.
  destruct (keep x && crowded keep nodes (box_key x)); destruct x; reflexivity.
Qed.

Lemma unparent_parentless x : NodeData.Parent x = "" → unparent x = x.
Proof. unfold unparent. intros <-. apply set_Parent_same. Qed.

(** what the switch of [NewConfig] makes of the slice *)
Lemma compound_records it o nodes :
  compound it o nodes =
  if groups o
  then
    let keep := if String.eqb (options.VendorOptions.GroupBy o)
                     options.GroupByApp
                then app_candidate else version_candidate in
    map (put_in_box keep nodes) nodes
    ++ map (box_of keep (options.VendorOptions.GroupBy o) nodes)
         (box_keys keep it nodes)
  else nodes.
Proof.
  unfold compound, groups.
  destruct (String.eqb_spec (options.VendorOptions.GroupBy o)
              options.GroupByApp) as [Hby|Hby].
  - destruct (negb (String.eqb (options.VendorOptions.GraphType o)
                      graph.GraphTypeService)); [|reflexivity].
    cbv zeta. rewrite Hby.
    exact (grouping_records app_candidate options.GroupByApp it nodes).
  - destruct (String.eqb_spec (options.VendorOptions.GroupBy o)
                options.GroupByVersion) as [Hby'|Hby']; [|reflexivity].
    destruct (String.eqb (options.VendorOptions.GraphType o)
                graph.GraphTypeVersionedApp); [|reflexivity].
    cbv zeta. rewrite Hby'.
    exact (grouping_records version_candidate options.GroupByVersion it nodes).
Qed.

Lemma groups_marker o : groups o = true → options.VendorOptions.GroupBy o ≠ "".
Proof.
  unfold groups.
  destruct (String.eqb_spec (options.VendorOptions.GroupBy o)
              options.GroupByApp) as [->|_]; [discriminate|].
  destruct (String.eqb_spec (options.VendorOptions.GroupBy o)
              options.GroupByVersion) as [->|_]; discriminate.
Qed.

Lemma box_of_marker keep groupBy nodes k :
  NodeData.IsGroup (box_of keep groupBy nodes k) = groupBy.
Proof. reflexivity. Qed.

(** the plain records of the slice after the switch, parent references
    cleared, are the records the slice had *)
Lemma compound_plain it o nodes :
  Forall (fun nd => NodeData.IsGroup nd = "" ∧ NodeData.Parent nd = "") nodes →
  map unparent (List.filter plain (compound it o nodes)) = nodes.
Proof.
  intros Hall. rewrite compound_records.
  assert (Hplain : List.filter plain nodes = nodes).
  { apply filter_all. eapply Forall_impl; [exact Hall|].
    intros x [Hg _]. unfold plain. rewrite Hg. reflexivity. }
  assert (Hun : map unparent nodes = nodes).
  { rewrite <- (map_id nodes) at 2. apply map_ext_Forall.
    eapply Forall_impl; [exact Hall|]. intros x [_ Hp].
    apply unparent_parentless, Hp. }
  destruct (groups o) eqn:Hgr; cbv zeta.
  - rewrite List.filter_app.
    rewrite (filter_none plain (map (box_of _ _ _) _)).
    + rewrite app_nil_r. rewrite filter_all.
      * rewrite map_map. rewrite <- Hun at 2. apply map_ext.
        intros x. apply put_in_box_unparent.
      * apply Forall_forall. intros x Hx.
        apply list_elem_of_In, in_map_iff in Hx as (y & <- & Hy).
        unfold plain. rewrite put_in_box_plain.
        rewrite Forall_forall in Hall.
        destruct (Hall y (proj2 (list_elem_of_In _ _) Hy)) as [-> _].
        reflexivity.
    + apply Forall_forall. intros x Hx.
      apply list_elem_of_In, in_map_iff in Hx as (k & <- & _).
      unfold plain. rewrite box_of_marker.
      apply String.eqb_neq, groups_marker, Hgr.
  - rewrite Hplain. exact Hun.
Qed.

(** For a well-typed traffic map the document holds, in some order, one
    plain node record per entry of the traffic map, the record
    [buildConfig] builds for it but for its parent reference, and one
    edge record per edge of the nodes of the traffic map. *)
Theorem document_records srt it trafficMap o h :
  graph_ok h trafficMap = true →
  ∃ cfg, run (NewConfig srt it trafficMap o) h = (Return cfg, h) ∧
    let nodes := Elements.Nodes (Config.Elements cfg) in
    let edges := Elements.Edges (Config.Elements cfg) in
    map unparent (List.filter plain nodes)
      ≡ₚ map (node_record h) (map_to_list trafficMap)
    ∧ length (List.filter plain nodes) = size trafficMap
    ∧ edges ≡ₚ flat_map (edge_records h o) (map_to_list trafficMap).
Proof.
  intros Hok. rewrite NewConfig_run, (buildConfig_records it h _ o Hok).
  eexists. split; [reflexivity|].
  cbn [document Config.Elements Elements.Nodes Elements.Edges]. cbv zeta.
  pose proof (node_records_unmarked h _ (graph_ok_range it h _ Hok)) as Hun.
  assert (Hnodes : map unparent
                     (List.filter plain
                        (sort_Slice srt node_less
                           (compound it o
                              (map (node_record h) (range it trafficMap)))))
                   ≡ₚ map (node_record h) (map_to_list trafficMap)).
  { rewrite (filter_perm plain _ _ (sort_Slice_perm srt node_less _)).
    rewrite (compound_plain it o _ Hun).
    apply Permutation_map, range_perm. }
  split; [exact Hnodes|]. split.
  - apply Permutation_length in Hnodes. rewrite !length_map in Hnodes.
    rewrite Hnodes. apply length_map_to_list.
  - rewrite sort_Slice_perm. apply Permutation_flat_map, range_perm.
Qed.

Lemma document_records_witness :
  ∃ cfg,
    run (NewConfig insertion_sort range_backward bookinfo
           (sample_options options.GroupByApp graph.GraphTypeWorkload))
      bookinfo_heap = (Return cfg, bookinfo_heap)
    ∧ length (List.filter plain (Elements.Nodes (Config.Elements cfg)))
      = size bookinfo
    ∧ length (Elements.Edges (Config.Elements cfg)) = 5%nat.
Proof.
  destruct (document_records insertion_sort range_backward bookinfo
              (sample_options options.GroupByApp graph.GraphTypeWorkload)
              bookinfo_heap eq_refl)
    as (cfg & Hrun & _ & Hlen & Hedges).
  exists cfg. split; [exact Hrun|]. split; [exact Hlen|].
  rewrite (Permutation_length Hedges). vm_compute. reflexivity.
Defined.

(** When the switch of [NewConfig] calls no grouping pass (group-by is
    neither app nor version, or it is app on a service graph, or version
    on a graph that is not a versioned app graph), the node records of the
    document are the records built for the entries of the traffic map, in
    some order: none is a compound node and none has a parent. *)
Theorem no_grouping_no_compound_nodes srt it trafficMap o h :
  graph_ok h trafficMap = true →
  groups o = false →
  ∃ cfg, run (NewConfig srt it trafficMap o) h = (Return cfg, h) ∧
    let nodes := Elements.Nodes (Config.Elements cfg) in
    nodes ≡ₚ map (node_record h) (map_to_list trafficMap)
    ∧ Forall (fun nd => NodeData.IsGroup nd = "" ∧ NodeData.Parent nd = "")
        nodes.
Proof.
  intros Hok Hgr. rewrite NewConfig_run, (buildConfig_records it h _ o Hok).
  eexists. split; [reflexivity|].
  cbn [document Config.Elements Elements.Nodes]. cbv zeta.
  rewrite compound_records, Hgr.
  pose proof (node_records_unmarked h _ (graph_ok_range it h _ Hok)) as Hun.
  split.
  - rewrite sort_Slice_perm. apply Permutation_map, range_perm.
  - rewrite Forall_forall in *. intros x Hx. apply Hun.
    rewrite <- (sort_Slice_perm srt node_less). exact Hx.
Qed.

Lemma no_grouping_no_compound_nodes_witness :
  ∃ cfg,
    run (NewConfig insertion_sort range_forward reviews_versions
           (sample_options options.GroupByVersion graph.GraphTypeApp))
      reviews_heap = (Return cfg, reviews_heap)
    ∧ Forall (fun nd => NodeData.IsGroup nd = "" ∧ NodeData.Parent nd = "")
        (Elements.Nodes (Config.Elements cfg))
    ∧ length (Elements.Nodes (Config.Elements cfg)) = 2%nat.
Proof.
  destruct (no_grouping_no_compound_nodes insertion_sort range_forward
              reviews_versions
              (sample_options options.GroupByVersion graph.GraphTypeApp)
              reviews_heap eq_refl eq_refl)
    as (cfg & Hrun & Hperm & Hall).
  exists cfg. split; [exact Hrun|]. split; [exact Hall|].
  rewrite (Permutation_length Hperm). reflexivity.
Defined.

(** ** What the grouping pass leaves alone *)

Lemma grouping_frame keep groupBy it nodes :
  let result :=
    generateGroupCompoundNodes it (collect keep 0 nodes ∅) nodes groupBy in
  map unparent (take (length nodes) result) = map unparent nodes
  ∧ ∀ i x, nodes !! i = Some x → keep x = false → result !! i = Some x.
Proof.
  cbv zeta. rewrite grouping_records. split.
  - rewrite take_app_length' by (rewrite length_map; reflexivity).
    rewrite map_map. apply map_ext. intros x. apply put_in_box_unparent.
  - intros i x Hx Hkeep. rewrite lookup_app_l
      by (rewrite length_map; apply lookup_lt_Some in Hx; exact Hx).
    change (map (put_in_box keep nodes) nodes)
      with (put_in_box keep nodes <$> nodes).
    rewrite list_lookup_fmap, Hx. simpl. unfold put_in_box.
    rewrite Hkeep. reflexivity.
Qed.

(** [groupByApp] and [groupByVersion] keep every record of the slice in
    its slot and change nothing of it but the parent reference; a record
    that is no candidate ([groupByApp]: app empty or "unknown";
    [groupByVersion]: node type other than app) is left as it is. *)
Theorem grouping_changes_parents_only it nodes :
  (map unparent (take (length nodes) (groupByApp it nodes))
   = map unparent nodes
   ∧ ∀ i x, nodes !! i = Some x →
            (NodeData.App x = "" ∨ NodeData.App x = "unknown") →
            groupByApp it nodes !! i = Some x)
  ∧ (map unparent (take (length nodes) (groupByVersion it nodes))
     = map unparent nodes
     ∧ ∀ i x, nodes !! i = Some x →
              NodeData.NodeType x ≠ graph.NodeTypeApp →
              groupByVersion it nodes !! i = Some x).
Proof.
  split.
  - destruct (grouping_frame app_candidate options.GroupByApp it nodes)
      as [Hun Hkeep].
    split; [exact Hun|]. intros i x Hx Happ. apply (Hkeep i x Hx).
    unfold app_candidate. destruct Happ as [-> | ->]; reflexivity.
  - destruct (grouping_frame version_candidate options.GroupByVersion it nodes)
      as [Hun Hkeep].
    split; [exact Hun|]. intros i x Hx Hty. apply (Hkeep i x Hx).
    unfold version_candidate. apply String.eqb_neq, Hty.
Qed.

(** ** What a compound node holds *)

Lemma existsb_map {A B} (f : A → B) (p : B → bool) (l : list A) :
  existsb p (map f l) = existsb (fun x => p (f x)) l.
Proof. induction l as [|x l IH]; simpl; [reflexivity|]. rewrite IH. reflexivity. Qed.

Lemma box_of_compound keep groupBy nodes k :
  crowded keep nodes k = true →
  compound_of groupBy k (boxed keep k nodes) (box_of keep groupBy nodes k).
Proof.
  unfold crowded. intros Hc. apply Nat.ltb_lt in Hc.
  unfold compound_of, box_of, compound_node, key_fields, rate_fields.
  cbn [NodeData.Id NodeData.Parent NodeData.NodeType NodeData.Namespace
       NodeData.Workload NodeData.App NodeData.Version NodeData.Service
       NodeData.IsGroup NodeData.HttpIn NodeData.HttpIn3xx NodeData.HttpIn4xx
       NodeData.HttpIn5xx NodeData.HttpOut NodeData.TcpIn NodeData.TcpOut
       NodeData.HasMissingSC NodeData.IsInaccessible NodeData.IsOutside
       NodeData.HasCB NodeData.HasVS NodeData.IsDead NodeData.IsRoot
       NodeData.IsUnused NodeData.IsMisconfigured NodeData.IsServiceEntry
       NodeData.DestServices].
  rewrite !existsb_map.
  split; [lia|]. repeat split; reflexivity.
Qed.

Lemma appended_compound keep groupBy it nodes :
  Forall (fun g => ∃ k, compound_of groupBy k (boxed keep k nodes) g)
    (drop (length nodes)
       (generateGroupCompoundNodes it (collect keep 0 nodes ∅) nodes groupBy)).
Proof.
  rewrite grouping_records.
  rewrite drop_app_length' by (rewrite length_map; reflexivity).
  apply Forall_forall. intros g Hg.
  apply list_elem_of_In, in_map_iff in Hg as (k & <- & Hk).
  exists k. apply box_of_compound.
  apply (elem_of_box_keys keep it nodes), list_elem_of_In, Hk.
Qed.

(** Every record [groupByApp] or [groupByVersion] appends is the compound
    node of a box key with two candidates or more: its id is the hash of
    the key, its type is app, its namespace and app are those of the first
    candidate, it is marked with the grouping, it carries no telemetry, and
    each of its flags [hasMissingSC], [isInaccessible] and [isOutside] is
    set exactly when some candidate of the key has it. *)
Theorem compound_node_fields it nodes :
  Forall (fun g => ∃ k, compound_of options.GroupByApp k
                          (boxed app_candidate k nodes) g)
    (drop (length nodes) (groupByApp it nodes))
  ∧ Forall (fun g => ∃ k, compound_of options.GroupByVersion k
                            (boxed version_candidate k nodes) g)
      (drop (length nodes) (groupByVersion it nodes)).
Proof.
  split.
  - exact (appended_compound app_candidate options.GroupByApp it nodes).
  - exact (appended_compound version_candidate options.GroupByVersion it nodes).
Qed.

(** ** The members of a compound node *)

Lemma filter_length_map {A B} (q : A → bool) (f : B → bool) (g : A → B) l :
  (∀ x, x ∈ l → q x = true → f (g x) = true) →
  (length (List.filter q l) ≤ length (List.filter f (map g l)))%nat.
Proof.
  induction l as [|x l IH]; intros H; simpl; [lia|].
  assert (IH' := IH (fun y Hy => H y (list_elem_of_further _ _ _ Hy))).
  destruct (q x) eqn:Hq.
  - rewrite (H x (list_elem_of_here _ _) Hq). simpl. lia.
  - destruct (f (g x)); simpl; lia.
Qed.

Lemma compound_children it o nodes g :
  Forall (fun nd => NodeData.IsGroup nd = "" ∧ NodeData.Parent nd = "") nodes →
  g ∈ compound it o nodes → NodeData.IsGroup g ≠ "" →
  (2 ≤ length (children g (compound it o nodes)))%nat.
Proof.
  intros Hall Hg Hmark. rewrite Forall_forall in Hall.
  rewrite compound_records in *.
  destruct (groups o) eqn:Hgr; cbv zeta in *.
  2:{ destruct (Hall g Hg). contradiction. }
  set (keep := if String.eqb (options.VendorOptions.GroupBy o)
                    options.GroupByApp
               then app_candidate else version_candidate) in *.
  apply elem_of_app in Hg as [Hg|Hg].
  { apply list_elem_of_In, in_map_iff in Hg as (x & <- & Hx).
    rewrite put_in_box_plain in Hmark.
    destruct (Hall x (proj2 (list_elem_of_In _ _) Hx)). contradiction. }
  apply list_elem_of_In, in_map_iff in Hg as (k & <- & Hk).
  apply list_elem_of_In, elem_of_box_keys in Hk.
  unfold children. rewrite List.filter_app, length_app.
  assert (Hlen : (2 ≤ length (boxed keep k nodes))%nat)
    by (unfold crowded in Hk; apply Nat.ltb_lt in Hk; lia).
  etransitivity; [exact Hlen|]. etransitivity; [|apply Nat.le_add_r].
  unfold boxed. apply filter_length_map. intros x Hx Hq.
  apply andb_true_iff in Hq as [Hkeep Hkey]. apply String.eqb_eq in Hkey.
  unfold put_in_box. rewrite Hkeep, Hkey, Hk. cbn [andb].
  destruct (Hall x Hx) as [Hgx _].
  unfold plain. destruct x; simpl in *. rewrite Hgx, String.eqb_refl.
  reflexivity.
Qed.

(** Every compound node of the document is the parent of two plain node
    records of the document, or more. *)
Theorem compound_node_has_children srt it trafficMap o h :
  graph_ok h trafficMap = true →
  ∃ cfg, run (NewConfig srt it trafficMap o) h = (Return cfg, h) ∧
    let nodes := Elements.Nodes (Config.Elements cfg) in
    ∀ g, g ∈ nodes → NodeData.IsGroup g ≠ "" →
         (2 ≤ length (children g nodes))%nat.
Proof.
  intros Hok. rewrite NewConfig_run, (buildConfig_records it h _ o Hok).
  eexists. split; [reflexivity|].
  cbn [document Config.Elements Elements.Nodes]. cbv zeta.
  pose proof (node_records_unmarked h _ (graph_ok_range it h _ Hok)) as Hun.
  intros g Hg Hmark. rewrite sort_Slice_perm in Hg.
  unfold children.
  rewrite (Permutation_length
             (filter_perm _ _ _ (sort_Slice_perm srt node_less _))).
  exact (compound_children it o _ g Hun Hg Hmark).
Qed.

Lemma compound_node_has_children_witness :
  ∃ cfg,
    run (NewConfig insertion_sort range_forward reviews_versions
           (sample_options options.GroupByVersion graph.GraphTypeVersionedApp))
      reviews_heap = (Return cfg, reviews_heap)
    ∧ ∃ g, head (Elements.Nodes (Config.Elements cfg)) = Some g
        ∧ NodeData.IsGroup g = "version"
        ∧ (2 ≤ length (children g (Elements.Nodes (Config.Elements cfg))))%nat.
Proof.
  destruct (compound_node_has_children insertion_sort range_forward
              reviews_versions
              (sample_options options.GroupByVersion
                 graph.GraphTypeVersionedApp) reviews_heap eq_refl)
    as (cfg & Hrun & Hall).
  exists cfg. split; [exact Hrun|].
  vm_compute in Hrun. injection Hrun as <-.
  eexists. split; [reflexivity|]. split; [reflexivity|].
  apply Hall; [left | discriminate].
Defined.

(** ** The end points of the edges *)

Lemma compound_keeps_id it o nodes x :
  x ∈ nodes →
  ∃ x', x' ∈ compound it o nodes
    ∧ NodeData.IsGroup x' = NodeData.IsGroup x
    ∧ NodeData.Id x' = NodeData.Id x.
Proof.
  intros Hx. rewrite compound_records.
  destruct (groups o); cbv zeta; [|eauto].
  eexists. split.
  - apply elem_of_app. left. apply list_elem_of_In, in_map, list_elem_of_In, Hx.
  - split; [apply put_in_box_plain|].
    unfold put_in_box. destruct (_ && _); destruct x; reflexivity.
Qed.

Lemma edge_record_ids h o n e :
  edge_ok h e = true →
  ∃ dst, h !! graph.Edge.Dest e = Some dst
    ∧ EdgeData.Source (edge_record h o n e) = nodeHash (graph.Node.ID n)
    ∧ EdgeData.Target (edge_record h o n e) = nodeHash (graph.Node.ID dst).
Proof.
  intros Hok.
  destruct (edge_ok_inv h e Hok) as (_ & src & dst & Hs & Hd & _).
  destruct (buildEdge_typed h n e o src dst Hok Hs Hd)
    as (ed & Hrun & Hids & _).
  exists dst. split; [exact Hd|]. unfold edge_record. rewrite Hrun. simpl.
  unfold edge_ids in Hids. injection Hids as _ H1 H2. auto.
Qed.

Lemma document_node_id srt it trafficMap o h id p :
  graph_ok h trafficMap = true →
  trafficMap !! id = Some p →
  node_id_of
    (sort_Slice srt node_less
       (compound it o (map (node_record h) (range it trafficMap))))
    (nodeHash id).
Proof.
  intros Hok Hid.
  assert (Hin : (id, p) ∈ range it trafficMap)
    by (rewrite range_perm; apply elem_of_map_to_list, Hid).
  pose proof (graph_ok_range it h _ Hok) as Hall.
  rewrite forallb_forall in Hall.
  destruct (node_record_built h (id, p)
              (Hall _ (proj1 (list_elem_of_In _ _) Hin)))
    as (n & _ & _ & Hk).
  unfold key_fields in Hk. injection Hk as Hi _ _ _ _ _ _ _ Hg.
  destruct (compound_keeps_id it o (map (node_record h) (range it trafficMap))
              (node_record h (id, p)))
    as (x' & Hx' & Hg' & Hi').
  { apply list_elem_of_In, in_map, list_elem_of_In, Hin. }
  exists x'. rewrite sort_Slice_perm. split; [exact Hx'|].
  split; congruence.
Qed.

(** For a well-typed traffic map: when every entry is keyed by the id of
    its node, the source of every edge record of the document is the id of
    a plain node record of the document; when the destination of every
    edge has its id among the keys, so is the target. *)
Theorem edge_end_points_are_nodes srt it trafficMap o h :
  graph_ok h trafficMap = true →
  ∃ cfg, run (NewConfig srt it trafficMap o) h = (Return cfg, h) ∧
    let nodes := Elements.Nodes (Config.Elements cfg) in
    let edges := Elements.Edges (Config.Elements cfg) in
    (keyed_by_id h trafficMap = true →
     ∀ ed, ed ∈ edges → node_id_of nodes (EdgeData.Source ed))
    ∧ (dests_in_map h trafficMap = true →
       ∀ ed, ed ∈ edges → node_id_of nodes (EdgeData.Target ed)).
Proof.
  intros Hok. rewrite NewConfig_run, (buildConfig_records it h _ o Hok).
  eexists. split; [reflexivity|].
  cbn [document Config.Elements Elements.Nodes Elements.Edges]. cbv zeta.
  assert (Hedge : ∀ ed,
            ed ∈ sort_Slice srt edge_less
                   (flat_map (edge_records h o) (range it trafficMap)) →
            ∃ id p n e, trafficMap !! id = Some p ∧ h !! p = Some n
              ∧ e ∈ graph.Node.Edges n ∧ edge_ok h e = true
              ∧ ed = edge_record h o n e).
  { intros ed Hed. rewrite sort_Slice_perm in Hed.
    apply list_elem_of_In, in_flat_map in Hed as ([id p] & Hin & Hed).
    apply list_elem_of_In in Hin. rewrite range_perm in Hin.
    pose proof Hok as Hall. unfold graph_ok in Hall.
    rewrite forallb_forall in Hall.
    specialize (Hall _ (proj1 (list_elem_of_In _ _) Hin)).
    apply elem_of_map_to_list in Hin.
    unfold entry_ok, edge_records in *. simpl in *.
    destruct (h !! p) as [n|] eqn:Hp; [|discriminate].
    apply in_map_iff in Hed as (e & <- & He).
    unfold node_ok in Hall. apply andb_true_iff in Hall as [_ Hes].
    rewrite forallb_forall in Hes.
    exists id, p, n, e. split; [exact Hin|]. split; [exact Hp|].
    split; [apply list_elem_of_In, He|]. split; [apply Hes, He | reflexivity]. }
  split.
  - intros Hkeyed ed Hed.
    destruct (Hedge ed Hed) as (id & p & n & e & Hid & Hp & _ & Heok & ->).
    destruct (edge_record_ids h o n e Heok) as (dst & _ & -> & _).
    unfold keyed_by_id in Hkeyed. rewrite forallb_forall in Hkeyed.
    specialize (Hkeyed (id, p)
                  (proj1 (list_elem_of_In _ _)
                     (proj2 (elem_of_map_to_list _ _ _) Hid))).
    simpl in Hkeyed. rewrite Hp in Hkeyed. apply String.eqb_eq in Hkeyed.
    rewrite Hkeyed. exact (document_node_id srt it _ o h id p Hok Hid).
  - intros Hdests ed Hed.
    destruct (Hedge ed Hed) as (id & p & n & e & Hid & Hp & He & Heok & ->).
    destruct (edge_record_ids h o n e Heok) as (dst & Hdst & _ & ->).
    unfold dests_in_map in Hdests. rewrite forallb_forall in Hdests.
    specialize (Hdests (id, p)
                  (proj1 (list_elem_of_In _ _)
                     (proj2 (elem_of_map_to_list _ _ _) Hid))).
    simpl in Hdests. rewrite Hp, forallb_forall in Hdests.
    specialize (Hdests e (proj1 (list_elem_of_In _ _) He)).
    rewrite Hdst in Hdests. apply bool_decide_eq_true in Hdests as [q Hq].
    exact (document_node_id srt it _ o h _ q Hok Hq).
Qed.

Lemma edge_end_points_are_nodes_witness :
  keyed_by_id bookinfo_heap bookinfo = true
  ∧ dests_in_map bookinfo_heap bookinfo = true
  ∧ ∃ cfg,
      run (NewConfig insertion_sort range_forward bookinfo
             (sample_options options.GroupByApp graph.GraphTypeApp))
        bookinfo_heap = (Return cfg, bookinfo_heap)
      ∧ Forall (fun ed =>
                  node_id_of (Elements.Nodes (Config.Elements cfg))
                    (EdgeData.Source ed)
                  ∧ node_id_of (Elements.Nodes (Config.Elements cfg))
                      (EdgeData.Target ed))
          (Elements.Edges (Config.Elements cfg)).
Proof.
  split; [vm_compute; reflexivity|]. split; [vm_compute; reflexivity|].
  destruct (edge_end_points_are_nodes insertion_sort range_forward bookinfo
              (sample_options options.GroupByApp graph.GraphTypeApp)
              bookinfo_heap eq_refl)
    as (cfg & Hrun & Hsrc & Hdst).
  exists cfg. split; [exact Hrun|].
  apply Forall_forall. intros ed Hed. split.
  - apply Hsrc; [vm_compute; reflexivity | exact Hed].
  - apply Hdst; [vm_compute; reflexivity | exact Hed].
Defined.

(** ** Formatted fields *)

Lemma digits_nonempty n : fmt.digits n ≠ "".
Proof.
  unfold fmt.digits, NilZero.string_of_uint.
  destruct (N.to_uint (Z.to_N n)); discriminate.
Qed.

Lemma Sprintf_f_shown (p : nat) (x : float) : fmt.Sprintf_f p x ≠ "".
Proof.
  destruct p as [|p]; [|apply Sprintf_f_nonempty; discriminate].
  unfold fmt.Sprintf_f, fmt.fixed.
  destruct (Prim2SF x) as [s|s| |s m e]; try destruct s; try discriminate;
    try apply digits_nonempty;
    intros H; apply append_empty in H as [H _]; discriminate.
Qed.

Lemma formatted_if (p : nat) (shown : bool) (x : float) :
  formatted p (if shown then fmt.Sprintf_f p x else "") shown x.
Proof.
  unfold formatted. destruct shown.
  - split; [|reflexivity]. split; [reflexivity|].
    intros _. apply Sprintf_f_shown.
  - split; [|discriminate]. split; [congruence | discriminate].
Qed.

(** ** The telemetry of an edge *)

Lemma copy_if_present_number {A} md k (set : float → A → A) (x : A) :
  typed_at md k TFloat64 →
  copy_if_present md k assert_float64 set x =
  Return (match number md k with Some f => set f x | None => x end).
Proof.
  unfold typed_at, copy_if_present, number. intros Ht.
  destruct (md !! k) as [v|]; [|reflexivity].
  specialize (Ht v eq_refl). destruct v; try discriminate. reflexivity.
Qed.

Lemma copy_if_present_text {A} md k (set : string → A → A) (x : A) :
  typed_at md k TString →
  copy_if_present md k assert_string set x =
  Return (match text md k with Some s => set s x | None => x end).
Proof.
  unfold typed_at, copy_if_present, text. intros Ht.
  destruct (md !! k) as [v|]; [|reflexivity].
  specialize (Ht v eq_refl). destruct v; try discriminate. reflexivity.
Qed.

Lemma copy_if_present_services {A} md k
    (set : gmap string bool → A → A) (x : A) :
  typed_at md k TMapStringBool →
  copy_if_present md k assert_map_string_bool set x =
  Return (match services md k with Some m => set m x | None => x end).
Proof.
  unfold typed_at, copy_if_present, services. intros Ht.
  destruct (md !! k) as [v|]; [|reflexivity].
  specialize (Ht v eq_refl). destruct v; try discriminate. reflexivity.
Qed.

(** a conditional assignment as an assignment of a conditional value *)
Lemma if_set {A T} (get : A → T) (set : T → A → A) (c : bool) (v : T) (x : A) :
  (∀ y, set (get y) y = y) →
  (if c then set v x else x) = set (if c then v else get x) x.
Proof. intros H. destruct c; [reflexivity | symmetry; apply H]. Qed.

Lemma opt_set_map {A T V} (get : A → T) (set : T → A → A) (g : V → T)
    (o : option V) (x : A) :
  (∀ y, set (get y) y = y) →
  match o with Some v => set (g v) x | None => x end
  = set (default (get x) (g <$> o)) x.
Proof. intros H. destruct o; simpl; [reflexivity | symmetry; apply H]. Qed.

Lemma opt_set {A T} (get : A → T) (set : T → A → A) (o : option T) (x : A) :
  (∀ y, set (get y) y = y) →
  match o with Some v => set v x | None => x end = set (default (get x) o) x.
Proof. intros H. destruct o; simpl; [reflexivity | symmetry; apply H]. Qed.

Ltac edge_fields :=
  lazy beta iota delta
    [edge_telemetry EdgeData.Http EdgeData.Http3xx EdgeData.Http4xx
     EdgeData.Http5xx EdgeData.HttpPercentErr EdgeData.HttpPercentReq
     EdgeData.ResponseTime EdgeData.IsMTLS EdgeData.IsUnused EdgeData.Tcp
     EdgeData.Id EdgeData.Source EdgeData.Target
     EdgeData.set_Http EdgeData.set_Http3xx EdgeData.set_Http4xx
     EdgeData.set_Http5xx EdgeData.set_HttpPercentErr
     EdgeData.set_HttpPercentReq EdgeData.set_ResponseTime EdgeData.set_IsMTLS
     EdgeData.set_IsUnused EdgeData.set_Tcp].

Lemma buildEdge_telemetry h n e o :
  edge_ok h e = true →
  let md := graph.Edge.Metadata e in
  let http := rate md "http" in
  let pctErr :=
    PrimFloat.mul
      (PrimFloat.div (PrimFloat.add (rate md "http4xx") (rate md "http5xx"))
         http) 100 in
  ∃ ed, run (buildEdge n e o) h = (Return ed, h)
    ∧ edge_telemetry ed =
        (rate_string (gt0 http) http,
         rate_string (gt0 http && gt0 (rate md "http3xx")) (rate md "http3xx"),
         rate_string (gt0 http && gt0 (rate md "http4xx")) (rate md "http4xx"),
         rate_string (gt0 http && gt0 (rate md "http5xx")) (rate md "http5xx"),
         (if gt0 http && gt0 pctErr then fmt.Sprintf_f 1 pctErr else ""),
         (if gt0 http
          then default "" (fmt.Sprintf_f 0 <$> number md "responseTime")
          else ""),
         default false (flag md "isMTLS"),
         rate_string (gt0 (rate md "tcp")) (rate md "tcp")).
Proof.
  intros Hok md http pctErr.
  destruct (edge_ok_inv h e Hok) as (Hce & src & dst & Hsrc & Hdst & Hcs).
  unfold buildEdge. cbv zeta.
  rewrite (run_load_bind _ _ _ _ Hdst).
  assert (Hp : match graph.Edge.Metadata e !! "protocol" with
               | None | Some VNil => Return ""
               | Some v => assert_string v
               end = Return (protocol_of (graph.Edge.Metadata e))).
  { pose proof (conforms_typed _ _ "protocol" TStringOrNil Hce) as Ht.
    unfold typed_at, protocol_of in *.
    destruct (graph.Edge.Metadata e !! "protocol") as [v|]; [|reflexivity].
    specialize (Ht ltac:(simpl; tauto) v eq_refl).
    destruct v; try discriminate; reflexivity. }
  rewrite Hp, run_lift_bind.
  unfold addEdgeTelemetry. cbv zeta. fold md.
  assert (Hr : ∀ k, In (k, TFloat64) edge_schema →
               getRate md k = Return (rate md k)).
  { intros k Hin. apply getRate_typed. eapply conforms_typed; eauto. }
  assert (Hout : getRate (graph.Node.Metadata src) "httpOut"
                 = Return (rate (graph.Node.Metadata src) "httpOut")).
  { apply getRate_typed. eapply conforms_typed; [exact Hcs | simpl; tauto]. }
  rewrite !Hr by (simpl; tauto). rewrite run_lift_bind. fold http.
  unfold edge_telemetry, rate_string.
  rewrite run_bind.
  destruct (gt0 http); cbn [andb].
  - rewrite !run_lift_bind.
    rewrite copy_if_present_number
      by (eapply conforms_typed; [exact Hce | simpl; tauto]).
    rewrite run_lift_bind, (run_load_bind _ _ _ _ Hsrc), Hout, run_lift_bind.
    rewrite run_ret.
    rewrite copy_if_present_bool
      by (eapply conforms_typed; [exact Hce | simpl; tauto]).
    rewrite !run_lift_bind, run_ret.
    eexists. split; [reflexivity|]. fold pctErr.
    rewrite (if_set EdgeData.Tcp EdgeData.set_Tcp),
      (opt_set EdgeData.IsMTLS EdgeData.set_IsMTLS),
      (if_set EdgeData.HttpPercentReq EdgeData.set_HttpPercentReq),
      (opt_set_map EdgeData.ResponseTime EdgeData.set_ResponseTime
         (fmt.Sprintf_f 0)),
      (if_set EdgeData.HttpPercentErr EdgeData.set_HttpPercentErr),
      (if_set EdgeData.Http5xx EdgeData.set_Http5xx),
      (if_set EdgeData.Http4xx EdgeData.set_Http4xx),
      (if_set EdgeData.Http3xx EdgeData.set_Http3xx)
      by (intros []; reflexivity).
    edge_fields. reflexivity.
  - rewrite (run_load_bind _ _ _ _ Hsrc).
    rewrite copy_if_present_bool
      by (eapply conforms_typed; [exact Hcs | simpl; tauto]).
    rewrite run_lift.
    rewrite copy_if_present_bool
      by (eapply conforms_typed; [exact Hce | simpl; tauto]).
    rewrite !run_lift_bind, run_ret.
    eexists. split; [reflexivity|].
    rewrite (if_set EdgeData.Tcp EdgeData.set_Tcp),
      (opt_set EdgeData.IsMTLS EdgeData.set_IsMTLS),
      (opt_set EdgeData.IsUnused EdgeData.set_IsUnused)
      by (intros []; reflexivity).
    edge_fields. reflexivity.
Qed.

(** For a well-typed edge the record is emitted and: [http] is present,
    with two decimals, exactly when the HTTP rate is greater than zero;
    [http3XX], [http4XX] and [http5XX] exactly when that rate and their
    own are; [httpPercentErr], with one decimal, exactly when the HTTP
    rate and [(http4xx + http5xx) / http * 100] are; [responseTime], with
    no decimals, exactly when the HTTP rate is greater than zero and the
    key is there; [tcp] exactly when the TCP rate is greater than zero,
    whatever the HTTP rate; [isMTLS] is the flag of the metadata. *)
Theorem edge_telemetry_fields h n e o :
  edge_ok h e = true →
  let md := graph.Edge.Metadata e in
  let http := rate md "http" in
  let pctErr :=
    PrimFloat.mul
      (PrimFloat.div (PrimFloat.add (rate md "http4xx") (rate md "http5xx"))
         http) 100 in
  ∃ ed, run (buildEdge n e o) h = (Return ed, h)
    ∧ formatted 2 (EdgeData.Http ed) (gt0 http) http
    ∧ formatted 2 (EdgeData.Http3xx ed)
        (gt0 http && gt0 (rate md "http3xx")) (rate md "http3xx")
    ∧ formatted 2 (EdgeData.Http4xx ed)
        (gt0 http && gt0 (rate md "http4xx")) (rate md "http4xx")
    ∧ formatted 2 (EdgeData.Http5xx ed)
        (gt0 http && gt0 (rate md "http5xx")) (rate md "http5xx")
    ∧ formatted 1 (EdgeData.HttpPercentErr ed) (gt0 http && gt0 pctErr) pctErr
    ∧ match number md "responseTime" with
      | Some t => formatted 0 (EdgeData.ResponseTime ed) (gt0 http) t
      | None => EdgeData.ResponseTime ed = ""
      end
    ∧ EdgeData.IsMTLS ed = default false (flag md "isMTLS")
    ∧ formatted 2 (EdgeData.Tcp ed) (gt0 (rate md "tcp")) (rate md "tcp").
Proof.
  intros Hok md http pctErr.
  destruct (buildEdge_telemetry h n e o Hok) as (ed & Hrun & Hf).
  fold md http pctErr in Hf. unfold edge_telemetry, rate_string in Hf.
  injection Hf as H1 H2 H3 H4 H5 H6 H7 H8.
  exists ed. split; [exact Hrun|]. rewrite H1, H2, H3, H4, H5, H6, H7, H8.
  repeat split; try apply formatted_if; try apply (proj1 (formatted_if _ _ _));
    try apply (proj2 (formatted_if _ _ _)).
  destruct (number md "responseTime") as [t|]; simpl.
  - apply formatted_if.
  - destruct (gt0 http); reflexivity.
Qed.

Lemma edge_telemetry_fields_witness :
  ∃ ed, run (buildEdge productpage edge_reviews
               (sample_options "none" "workload")) bookinfo_heap
        = (Return ed, bookinfo_heap)
    ∧ edge_telemetry ed
      = ("10.00", "", "1.00", "", "10.0", "20", false, "").
Proof.
  destruct (edge_telemetry_fields bookinfo_heap productpage edge_reviews
              (sample_options "none" "workload") eq_refl)
    as (ed & Hrun & _).
  exists ed. split; [exact Hrun|].
  vm_compute in Hrun. injection Hrun as <-. vm_compute. reflexivity.
Defined.

(** ** The flags of a node *)

Lemma addNodeTelemetry_flags s nd :
  conforms node_schema (graph.Node.Metadata s) = true →
  ∃ nd', addNodeTelemetry s nd = Return nd' ∧ node_flags nd' = node_flags nd.
Proof.
  intros Hc. unfold addNodeTelemetry. cbv zeta.
  assert (Hr : ∀ k, In (k, TFloat64) node_schema →
               getRate (graph.Node.Metadata s) k
               = Return (rate (graph.Node.Metadata s) k)).
  { intros k Hin. apply getRate_typed. eapply conforms_typed; eauto. }
  rewrite !Hr by (simpl; tauto). cbn [mbind outcome_bind].
  destruct (gt0 (rate (graph.Node.Metadata s) "httpIn"));
    rewrite ?Hr by (simpl; tauto); cbn [mbind outcome_bind];
    (eexists; split; [reflexivity|]);
    rewrite ?(if_set NodeData.TcpOut NodeData.set_TcpOut),
      ?(if_set NodeData.TcpIn NodeData.set_TcpIn),
      ?(if_set NodeData.HttpOut NodeData.set_HttpOut),
      ?(if_set NodeData.HttpIn5xx NodeData.set_HttpIn5xx),
      ?(if_set NodeData.HttpIn4xx NodeData.set_HttpIn4xx),
      ?(if_set NodeData.HttpIn3xx NodeData.set_HttpIn3xx)
      by (intros []; reflexivity);
    destruct nd; reflexivity.
Qed.

(** For a node with well-typed metadata the record is emitted, and each
    of its flags and labels is the value stored under its key ([isDead],
    [isRoot], [isUnused], [isInaccessible], [hasCB], [hasVS],
    [hasMissingSC], [isMisconfigured], [isOutside], [destServices],
    [isServiceEntry]) when the key is there, and the zero value, which is
    left out of the document, when it is not. *)
Theorem node_flag_fields id n :
  conforms node_schema (graph.Node.Metadata n) = true →
  let md := graph.Node.Metadata n in
  ∃ nd, buildNode id n = Return nd
    ∧ node_flags nd =
        (default false (flag md "isDead"), default false (flag md "isRoot"),
         default false (flag md "isUnused"),
         default false (flag md "isInaccessible"),
         default false (flag md "hasCB"), default false (flag md "hasVS"),
         default false (flag md "hasMissingSC"),
         default "" (text md "isMisconfigured"),
         default false (flag md "isOutside"),
         default ∅ (services md "destServices"),
         default "" (text md "isServiceEntry")).
Proof.
  intros Hc md. unfold buildNode. cbv zeta. fold md.
  match goal with
  | |- context [addNodeTelemetry n ?nd0] =>
      destruct (addNodeTelemetry_flags n nd0 Hc) as (nd1 & -> & Hf)
  end.
  cbn [mbind outcome_bind].
  unfold node_flags in Hf. cbn in Hf.
  injection Hf as H1 H2 H3 H4 H5 H6 H7 H8 H9 H10 H11.
  repeat first
    [ rewrite copy_if_present_bool
        by (eapply conforms_typed; [exact Hc | simpl; tauto])
    | rewrite copy_if_present_text
        by (eapply conforms_typed; [exact Hc | simpl; tauto])
    | rewrite copy_if_present_services
        by (eapply conforms_typed; [exact Hc | simpl; tauto])
    | progress cbn [mbind outcome_bind] ].
  eexists. split; [reflexivity|].
  rewrite (opt_set NodeData.IsServiceEntry NodeData.set_IsServiceEntry),
    (opt_set NodeData.DestServices NodeData.set_DestServices),
    (opt_set NodeData.IsOutside NodeData.set_IsOutside),
    (opt_set NodeData.IsMisconfigured NodeData.set_IsMisconfigured),
    (opt_set NodeData.HasMissingSC NodeData.set_HasMissingSC),
    (opt_set NodeData.HasVS NodeData.set_HasVS),
    (opt_set NodeData.HasCB NodeData.set_HasCB),
    (opt_set NodeData.IsInaccessible NodeData.set_IsInaccessible),
    (opt_set NodeData.IsUnused NodeData.set_IsUnused),
    (opt_set NodeData.IsRoot NodeData.set_IsRoot),
    (opt_set NodeData.IsDead NodeData.set_IsDead)
    by (intros []; reflexivity).
  lazy beta iota delta
    [node_flags NodeData.IsDead NodeData.IsRoot NodeData.IsUnused
     NodeData.IsInaccessible NodeData.HasCB NodeData.HasVS
     NodeData.HasMissingSC NodeData.IsMisconfigured NodeData.IsOutside
     NodeData.DestServices NodeData.IsServiceEntry
     NodeData.set_IsDead NodeData.set_IsRoot NodeData.set_IsUnused
     NodeData.set_IsInaccessible NodeData.set_HasCB NodeData.set_HasVS
     NodeData.set_HasMissingSC NodeData.set_IsMisconfigured
     NodeData.set_IsOutside NodeData.set_DestServices
     NodeData.set_IsServiceEntry].
  destruct nd1. simpl in *. subst. reflexivity.
Qed.

Lemma node_flag_fields_witness :
  ∃ nd, buildNode "vapp_bookinfo_reviews_v1" reviews_v1 = Return nd
    ∧ NodeData.HasMissingSC nd = true ∧ NodeData.IsDead nd = false.
Proof.
  destruct (node_flag_fields "vapp_bookinfo_reviews_v1" reviews_v1 eq_refl)
    as (nd & Hrun & Hf).
  exists nd. split; [exact Hrun|].
  unfold node_flags in Hf.
  injection Hf as H1 H2 H3 H4 H5 H6 H7 H8 H9 H10 H11.
  rewrite H7, H1. split; reflexivity.
Defined.

(** ** Hashes *)

Lemma hex_digit_is_hex n : 0 ≤ n < 16 → is_hex (md5.hex_digit n) = true.
Proof.
  intros Hn.
  assert (Hall : forallb (fun i => is_hex (md5.hex_digit (Z.of_nat i)))
                   (seq 0 16) = true) by (vm_compute; reflexivity).
  rewrite forallb_forall in Hall.
  rewrite <- (Z2Nat.id n) by lia. apply Hall, in_seq. lia.
Qed.

Lemma hex_format bs :
  Forall (fun b => 0 ≤ b < 256) bs →
  String.length (md5.hex bs) = (2 * length bs)%nat
  ∧ forallb is_hex (list_ascii_of_string (md5.hex bs)) = true.
Proof.
  induction 1 as [|b bs Hb _ [IHl IHh]]; [split; reflexivity|].
  cbn [md5.hex String.length list_ascii_of_string forallb length].
  split; [rewrite IHl; lia|].
  rewrite IHh, !hex_digit_is_hex; [reflexivity | |].
  - change 15 with (Z.ones 4). rewrite Z.land_ones by lia.
    apply Z.mod_pos_bound. lia.
  - rewrite Z.shiftr_div_pow2 by lia. change (2 ^ 4) with 16.
    split; [apply Z.div_pos; lia | apply Z.div_lt_upper_bound; lia].
Qed.

Lemma le_bytes_range n x : Forall (fun b => 0 ≤ b < 256) (md5.le_bytes n x).
Proof.
  unfold md5.le_bytes. apply Forall_forall. intros b Hb.
  apply list_elem_of_In, in_map_iff in Hb as (i & <- & _).
  change 255 with (Z.ones 8). rewrite Z.land_ones by lia.
  apply Z.mod_pos_bound. lia.
Qed.

Lemma sum_format msg :
  length (md5.sum msg) = 16%nat ∧ Forall (fun b => 0 ≤ b < 256) (md5.sum msg).
Proof.
  unfold md5.sum. cbv zeta.
  destruct (fold_left md5.block _ md5.init) as [a b c d].
  split; [reflexivity|].
  repeat (apply Forall_app; split); apply le_bytes_range.
Qed.

Lemma sum_hex_format s : hex32 (md5.sum_hex s).
Proof.
  unfold md5.sum_hex, hex32.
  destruct (sum_format (md5.bytes_of_string s)) as [Hlen Hrange].
  destruct (hex_format _ Hrange) as [Hl Hh]. rewrite Hl, Hlen. auto.
Qed.

(** Node ids and edge ids are strings of 32 lowercase hexadecimal
    digits, whatever they are the hash of. *)
Theorem hashes_are_hex32 :
  (∀ id, hex32 (nodeHash id))
  ∧ (∀ from to protocol, hex32 (edgeHash from to protocol)).
Proof. split; intros; apply sum_hex_format. Qed.

(** ** The empty traffic map *)

Lemma range_empty it {V} : range it (∅ : gmap string V) = [].
Proof.
  apply Permutation_nil. rewrite range_perm, map_to_list_empty. reflexivity.
Qed.

Lemma sort_Slice_nil srt {A} (less : A → A → bool) : sort_Slice srt less [] = [].
Proof. apply Permutation_nil. rewrite sort_Slice_perm. reflexivity. Qed.

(** For the empty traffic map [NewConfig] returns, under any options, a
    document without nodes and edges that carries the query time and the
    graph type of the options. *)
Theorem NewConfig_empty srt it o h :
  ∃ cfg,
    run (NewConfig srt it ∅ o) h = (Return cfg, h)
    ∧ Elements.Nodes (Config.Elements cfg) = []
    ∧ Elements.Edges (Config.Elements cfg) = []
    ∧ Config.Timestamp cfg = options.VendorOptions.QueryTime o
    ∧ Config.GraphType cfg = options.VendorOptions.GraphType o.
Proof.
  rewrite NewConfig_run. unfold buildConfig. rewrite range_empty.
  cbn [buildConfig_loop]. rewrite run_ret. unfold document.
  rewrite compound_records. cbv zeta.
  assert (Hkeys : ∀ keep, box_keys keep it [] = []).
  { intros keep. unfold box_keys. cbn [collect]. rewrite range_empty.
    reflexivity. }
  rewrite !Hkeys. cbn [map app].
  eexists. split; [reflexivity|].
  destruct (groups o); rewrite !sort_Slice_nil; repeat split; reflexivity.
Qed.

(** ** Version grouping on a versioned app graph *)

Lemma filter_length_ext {A B} (q : A → bool) (f : B → bool) (g : A → B) l :
  (∀ x, x ∈ l → f (g x) = q x) →
  length (List.filter f (map g l)) = length (List.filter q l).
Proof.
  induction l as [|x l IH]; intros H; simpl; [reflexivity|].
  rewrite (H x (list_elem_of_here _ _)).
  assert (IH' := IH (fun y Hy => H y (list_elem_of_further _ _ _ Hy))).
  destruct (q x); simpl; rewrite IH'; reflexivity.
Qed.

Lemma put_in_box_version nodes x :
  version_candidate (put_in_box version_candidate nodes x)
  = version_candidate x
  ∧ box_key (put_in_box version_candidate nodes x) = box_key x.
Proof.
  unfold put_in_box.
  destruct (version_candidate x && crowded version_candidate nodes (box_key x));
    destruct x; split; reflexivity.
Qed.

Lemma version_boxes it built k :
  Forall (fun nd => NodeData.IsGroup nd = "" ∧ NodeData.Parent nd = "") built →
  let doc := groupByVersion it built in
  let parent := if crowded version_candidate built k then nodeHash k else "" in
  length (versions_of k doc) = length (boxed version_candidate k built)
  ∧ Forall (fun x => NodeData.Parent x = parent) (versions_of k doc)
  ∧ (crowded version_candidate built k = true →
     box_of version_candidate options.GroupByVersion built k ∈ doc).
Proof.
  intros Hall. cbv zeta. rewrite Forall_forall in Hall.
  change (groupByVersion it built)
    with (generateGroupCompoundNodes it (collect version_candidate 0 built ∅)
            built options.GroupByVersion).
  rewrite grouping_records. unfold versions_of.
  rewrite List.filter_app.
  rewrite (filter_none _ (map (box_of _ _ _) _)).
  2:{ apply Forall_forall. intros g Hg.
      apply list_elem_of_In, in_map_iff in Hg as (k' & <- & _). reflexivity. }
  rewrite app_nil_r. split; [|split].
  - unfold boxed. apply filter_length_ext. intros x Hx.
    destruct (put_in_box_version built x) as [-> ->].
    unfold plain. rewrite put_in_box_plain.
    destruct (Hall x Hx) as [-> _]. reflexivity.
  - apply Forall_forall. intros y Hy.
    apply list_elem_of_In, filter_In in Hy as [Hy Hp].
    apply in_map_iff in Hy as (x & <- & Hx). apply list_elem_of_In in Hx.
    destruct (put_in_box_version built x) as [Hc Hk].
    rewrite Hc, Hk in Hp.
    apply andb_true_iff in Hp as [Hp Hkey].
    apply andb_true_iff in Hp as [_ Hcand]. apply String.eqb_eq in Hkey.
    unfold put_in_box. rewrite Hcand, Hkey. cbn [andb].
    destruct (crowded version_candidate built k); [reflexivity|].
    apply (Hall x Hx).
  - intros Hc. apply elem_of_app. right.
    apply list_elem_of_In, in_map, list_elem_of_In.
    apply elem_of_box_keys, Hc.
Qed.

(** With group-by = version on a versioned app graph, for every box key:
    when two or more plain records of node type app have the key, the
    document has a compound node marked [version] whose id is the hash of
    the key, and it is the parent of each of them; when only one has it,
    that record has no parent. *)
Theorem version_grouping_in_document srt it trafficMap o h k :
  graph_ok h trafficMap = true →
  options.VendorOptions.GroupBy o = options.GroupByVersion →
  options.VendorOptions.GraphType o = graph.GraphTypeVersionedApp →
  ∃ cfg, run (NewConfig srt it trafficMap o) h = (Return cfg, h) ∧
    let nodes := Elements.Nodes (Config.Elements cfg) in
    ((2 ≤ length (versions_of k nodes))%nat →
     ∃ g, g ∈ nodes ∧ NodeData.IsGroup g = options.GroupByVersion
       ∧ NodeData.Id g = nodeHash k
       ∧ Forall (fun x => NodeData.Parent x = NodeData.Id g)
           (versions_of k nodes))
    ∧ ((length (versions_of k nodes) ≤ 1)%nat →
       Forall (fun x => NodeData.Parent x = "") (versions_of k nodes)).
Proof.
  intros Hok Hby Hty. rewrite NewConfig_run, (buildConfig_records it h _ o Hok).
  eexists. split; [reflexivity|].
  cbn [document Config.Elements Elements.Nodes]. cbv zeta.
  pose proof (node_records_unmarked h _ (graph_ok_range it h _ Hok)) as Hun.
  set (built := map (node_record h) (range it trafficMap)) in *.
  assert (Hc : compound it o built = groupByVersion it built).
  { unfold compound. rewrite Hby, Hty. reflexivity. }
  rewrite Hc.
  destruct (version_boxes it built k Hun) as (Hlen & Hpar & Hbox).
  pose proof (filter_perm
                (fun x => plain x && version_candidate x
                          && String.eqb (box_key x) k) _ _
                (sort_Slice_perm srt node_less (groupByVersion it built)))
    as Hperm.
  fold (versions_of k (sort_Slice srt node_less (groupByVersion it built)))
    in Hperm.
  fold (versions_of k (groupByVersion it built)) in Hperm.
  rewrite (Permutation_length Hperm), Hlen.
  assert (Hpar' : Forall
            (fun x => NodeData.Parent x
                      = if crowded version_candidate built k
                        then nodeHash k else "")
            (versions_of k (sort_Slice srt node_less
                              (groupByVersion it built)))).
  { rewrite Forall_forall in *. intros x Hx. apply Hpar.
    rewrite <- Hperm. exact Hx. }
  unfold crowded in *. split.
  - intros Htwo.
    destruct (Nat.ltb_spec 1 (length (boxed version_candidate k built)));
      [|lia].
    exists (box_of version_candidate options.GroupByVersion built k).
    split; [rewrite sort_Slice_perm; apply Hbox; reflexivity|].
    split; [reflexivity|]. split; [reflexivity|]. exact Hpar'.
  - intros Hone.
    destruct (Nat.ltb_spec 1 (length (boxed version_candidate k built)));
      [lia|]. exact Hpar'.
Qed.

Lemma version_grouping_in_document_witness :
  ∃ cfg,
    run (NewConfig insertion_sort range_backward reviews_versions
           (sample_options options.GroupByVersion graph.GraphTypeVersionedApp))
      reviews_heap = (Return cfg, reviews_heap)
    ∧ length (versions_of "box_bookinfo_reviews"
                (Elements.Nodes (Config.Elements cfg))) = 2%nat
    ∧ ∃ g, g ∈ Elements.Nodes (Config.Elements cfg)
        ∧ NodeData.IsGroup g = options.GroupByVersion
        ∧ NodeData.Id g = nodeHash "box_bookinfo_reviews"
        ∧ Forall (fun x => NodeData.Parent x = NodeData.Id g)
            (versions_of "box_bookinfo_reviews"
               (Elements.Nodes (Config.Elements cfg))).
Proof.
  destruct (version_grouping_in_document insertion_sort range_backward
              reviews_versions
              (sample_options options.GroupByVersion
                 graph.GraphTypeVersionedApp) reviews_heap
              "box_bookinfo_reviews" eq_refl eq_refl eq_refl)
    as (cfg & Hrun & Htwo & _).
  exists cfg. split; [exact Hrun|].
  assert (Hlen : length (versions_of "box_bookinfo_reviews"
                           (Elements.Nodes (Config.Elements cfg))) = 2%nat).
  { vm_compute in Hrun. injection Hrun as <-. vm_compute. reflexivity. }
  split; [exact Hlen|]. apply Htwo. rewrite Hlen. lia.
Defined.

(** ** Mistyped edge metadata *)

Lemma buildEdge_untyped n e o h k t v :
  In (k, t) edge_always →
  graph.Edge.Metadata e !! k = Some v → has_type t v = false →
  panics (run (buildEdge n e o) h) = true.
Proof.
  intros Hin Hk Hv.
  assert (Hproto : k = "protocol" → t = TStringOrNil →
            match graph.Edge.Metadata e !! "protocol" with
            | None | Some VNil => Return ""
            | Some v => assert_string v
            end = Panic).
  { intros -> ->. rewrite Hk. destruct v; try reflexivity; discriminate. }
  assert (Hrate : t = TFloat64 → getRate (graph.Edge.Metadata e) k = Panic).
  { intros ->. exact (getRate_untyped _ _ _ Hk Hv). }
  assert (Hflag : t = TBool → ∀ set x,
            copy_if_present (graph.Edge.Metadata e) k assert_bool set x
            = @Panic EdgeData.t).
  { intros -> set x.
    apply (copy_if_present_untyped _ _ TBool v _ _ _ Hk Hv).
    exact assert_bool_untyped. }
  unfold buildEdge, addEdgeTelemetry. cbv zeta.
  simpl in Hin.
  repeat match goal with
         | H : _ ∨ _ |- _ => destruct H
         | H : (_, _) = (_, _) |- _ => injection H as <- <-
         | H : False |- _ => destruct H
         end;
    try rewrite (Hproto eq_refl eq_refl);
    try rewrite (Hrate eq_refl);
    repeat first
      [ reflexivity
      | rewrite run_bind
      | rewrite run_lift
      | rewrite run_ret
      | rewrite run_load
      | rewrite (Hflag eq_refl)
      | match goal with
        | |- context [h !! ?p] => destruct (h !! p)
        | |- context [graph.Edge.Metadata e !! "protocol"] =>
            destruct (graph.Edge.Metadata e !! "protocol") as [[]|]
        | |- context [getRate ?md ?k'] => destruct (getRate md k')
        | |- context [copy_if_present ?md ?k' ?a ?s ?x] =>
            destruct (copy_if_present md k' a s x)
        | |- context [if gt0 ?x then _ else _] => destruct (gt0 x)
        end
      | progress cbn [assert_string] ].
Qed.

(** A value of another dynamic type than the code asserts, under a key
    that [buildConfig] reads on every edge, makes every run of [NewConfig]
    panic. *)
Theorem NewConfig_panics_on_mistyped_edge
    srt it trafficMap o h id p n e k t v :
  trafficMap !! id = Some p →
  h !! p = Some n →
  e ∈ graph.Node.Edges n →
  In (k, t) edge_always →
  graph.Edge.Metadata e !! k = Some v →
  has_type t v = false →
  run (NewConfig srt it trafficMap o) h = (Panic, h).
Proof.
  intros Hid Hp He Hin Hk Hv. apply (entry_panics_run _ _ _ _ _ id p Hid).
  apply (entry_panics_edge _ _ _ _ n e Hp He).
  exact (buildEdge_untyped n e o h k t v Hin Hk Hv).
Qed.

Lemma NewConfig_panics_on_mistyped_edge_witness :
  graph.Edge.Metadata mtls_edge !! "isMTLS" = Some (VFloat64 1%float)
  ∧ run (NewConfig insertion_sort range_forward mtls
           (sample_options "none" "workload")) mtls_heap
    = (Panic, mtls_heap).
Proof.
  split; [reflexivity|].
  apply (NewConfig_panics_on_mistyped_edge _ _ _ _ _
           "wl_bookinfo_reviews-v1" 1%nat mtls_node mtls_edge "isMTLS" TBool
           (VFloat64 1%float));
    first [reflexivity | left; reflexivity | simpl; tauto].
Defined.

(** ** Parents before children *)

Lemma compound_parent it o built x :
  Forall (fun nd => NodeData.IsGroup nd = "" ∧ NodeData.Parent nd = "") built →
  same_box built →
  x ∈ compound it o built → NodeData.Parent x ≠ "" →
  NodeData.IsGroup x = ""
  ∧ ∃ g, g ∈ compound it o built
      ∧ NodeData.Id g = NodeData.Parent x
      ∧ NodeData.IsGroup g ≠ ""
      ∧ NodeData.Namespace g = NodeData.Namespace x.
Proof.
  intros Hall Hsame Hx Hp. rewrite Forall_forall in Hall.
  rewrite compound_records in *.
  destruct (groups o) eqn:Hgr; cbv zeta in *.
  2:{ destruct (Hall x Hx). contradiction. }
  set (keep := if String.eqb (options.VendorOptions.GroupBy o)
                    options.GroupByApp
               then app_candidate else version_candidate) in *.
  apply elem_of_app in Hx as [Hx|Hx].
  2:{ apply list_elem_of_In, in_map_iff in Hx as (k & <- & _).
      exfalso. apply Hp. reflexivity. }
  apply list_elem_of_In, in_map_iff in Hx as (x0 & <- & Hx0).
  apply list_elem_of_In in Hx0. destruct (Hall x0 Hx0) as [Hg0 Hp0].
  split; [rewrite put_in_box_plain; exact Hg0|].
  unfold put_in_box in *.
  destruct (keep x0 && crowded keep built (box_key x0)) eqn:Hc;
    [|contradiction].
  apply andb_true_iff in Hc as [_ Hc].
  destruct (boxed_head keep _ built Hc) as (x1 & Hhead & Hx1 & Hk1).
  exists (box_of keep (options.VendorOptions.GroupBy o) built (box_key x0)).
  split; [|split; [|split]].
  - apply elem_of_app. right.
    apply list_elem_of_In, in_map, list_elem_of_In, elem_of_box_keys, Hc.
  - destruct x0; reflexivity.
  - rewrite box_of_marker. apply groups_marker, Hgr.
  - unfold box_of, compound_node. cbn [NodeData.Namespace]. rewrite Hhead.
    destruct (Hsame x1 x0 Hx1 Hx0 Hk1) as [Hn _].
    change (default NodeData.zero (Some x1)) with x1. rewrite Hn.
    destruct x0; reflexivity.
Qed.

(** When node records with the same box key have the same namespace and
    app, every record of the document that has a parent comes after its
    parent, a compound node of the document. *)
Theorem parent_before_child srt it trafficMap o h :
  graph_ok h trafficMap = true →
  ∃ cfg, run (NewConfig srt it trafficMap o) h = (Return cfg, h) ∧
    let nodes := Elements.Nodes (Config.Elements cfg) in
    unambiguous nodes = true →
    ∀ i x, nodes !! i = Some x → NodeData.Parent x ≠ "" →
      ∃ j g, (j < i)%nat ∧ nodes !! j = Some g
        ∧ NodeData.Id g = NodeData.Parent x ∧ NodeData.IsGroup g ≠ "".
Proof.
  intros Hok. rewrite NewConfig_run, (buildConfig_records it h _ o Hok).
  eexists. split; [reflexivity|].
  cbn [document Config.Elements Elements.Nodes]. cbv zeta.
  pose proof (node_records_unmarked h _ (graph_ok_range it h _ Hok)) as Hun.
  set (built := map (node_record h) (range it trafficMap)) in *.
  intros Hu i x Hi Hp. apply unambiguous_spec in Hu.
  assert (Hsame : same_box built).
  { apply (same_box_compound it o). intros a b Ha Hb.
    apply Hu; rewrite sort_Slice_perm; assumption. }
  assert (Hx : x ∈ compound it o built).
  { rewrite <- (sort_Slice_perm srt node_less). apply list_elem_of_lookup.
    eauto. }
  destruct (compound_parent it o built x Hun Hsame Hx Hp)
    as (Hgx & g & Hg & Hid & Hmark & Hns).
  rewrite <- (sort_Slice_perm srt node_less) in Hg.
  apply list_elem_of_lookup in Hg as [j Hj].
  exists j, g. split; [|auto].
  assert (Hsorted : StronglySorted (not_after node_less)
                      (sort_Slice srt node_less (compound it o built))).
  { apply sort_Slice_sorted. split.
    - exact node_less_asym.
    - exact node_less_negtrans. }
  pose proof (node_less_group_first g x Hns Hmark Hgx) as Hless.
  destruct (Nat.lt_trichotomy j i) as [Hlt|[Heq|Hgt]]; [exact Hlt| |].
  - subst j. rewrite Hi in Hj. injection Hj as ->. contradiction.
  - pose proof (StronglySorted_lookup _ _ i j x g Hsorted Hgt Hi Hj) as Hna.
    unfold not_after in Hna. congruence.
Qed.

Lemma parent_before_child_witness :
  ∃ cfg,
    run (NewConfig insertion_sort range_backward reviews_versions
           (sample_options options.GroupByApp graph.GraphTypeApp))
      reviews_heap = (Return cfg, reviews_heap)
    ∧ ∃ x j g, Elements.Nodes (Config.Elements cfg) !! 2%nat = Some x
        ∧ NodeData.Parent x ≠ ""
        ∧ (j < 2)%nat ∧ Elements.Nodes (Config.Elements cfg) !! j = Some g
        ∧ NodeData.Id g = NodeData.Parent x ∧ NodeData.IsGroup g ≠ "".
Proof.
  destruct (parent_before_child insertion_sort range_backward reviews_versions
              (sample_options options.GroupByApp graph.GraphTypeApp)
              reviews_heap eq_refl)
    as (cfg & Hrun & Hall).
  exists cfg. split; [exact Hrun|].
  vm_compute in Hrun. injection Hrun as <-.
  specialize (Hall eq_refl 2%nat _ eq_refl ltac:(discriminate)).
  destruct Hall as (j & g & Hlt & Hj & Hid & Hm).
  eexists _, j, g. split; [reflexivity|]. split; [discriminate|]. auto.
Defined.

(** ** Runs that return and runs that panic *)

Lemma conforms_passes schema md :
  conforms schema md
  = forallb (fun kt : string * ty => passes md kt.1 kt.2) schema.
Proof.
  unfold conforms. induction schema as [|[k t] s IH]; [reflexivity|].
  cbn [forallb]. rewrite IH. reflexivity.
Qed.

Lemma getRate_passes md k :
  getRate md k = if passes md k TFloat64 then Return (rate md k) else Panic.
Proof.
  unfold getRate, passes, rate. destruct (md !! k) as [[]|]; reflexivity.
Qed.

Lemma copy_bool_passes {A} md k (set : bool → A → A) (x : A) :
  copy_if_present md k assert_bool set x
  = if passes md k TBool
    then Return (match flag md k with Some b => set b x | None => x end)
    else Panic.
Proof.
  unfold copy_if_present, passes, flag. destruct (md !! k) as [[]|]; reflexivity.
Qed.

Lemma copy_text_passes {A} md k (set : string → A → A) (x : A) :
  copy_if_present md k assert_string set x
  = if passes md k TString
    then Return (match text md k with Some s => set s x | None => x end)
    else Panic.
Proof.
  unfold copy_if_present, passes, text. destruct (md !! k) as [[]|]; reflexivity.
Qed.

Lemma copy_services_passes {A} md k (set : gmap string bool → A → A) (x : A) :
  copy_if_present md k assert_map_string_bool set x
  = if passes md k TMapStringBool
    then Return (match services md k with Some m => set m x | None => x end)
    else Panic.
Proof.
  unfold copy_if_present, passes, services.
  destruct (md !! k) as [[]|]; reflexivity.
Qed.

Lemma copy_number_passes {A} md k (set : float → A → A) (x : A) :
  copy_if_present md k assert_float64 set x
  = if passes md k TFloat64
    then Return (match number md k with Some f => set f x | None => x end)
    else Panic.
Proof.
  unfold copy_if_present, passes, number. destruct (md !! k) as [[]|]; reflexivity.
Qed.

Lemma protocol_passes md :
  match md !! "protocol" with
  | None | Some VNil => Return ""
  | Some v => assert_string v
  end = if passes md "protocol" TStringOrNil
        then Return (protocol_of md) else Panic.
Proof.
  unfold passes, protocol_of. destruct (md !! "protocol") as [[]|]; reflexivity.
Qed.

Lemma agree_ret {B} (y : B) : agree (Return y) true.
Proof. exists y. reflexivity. Qed.

Lemma agree_read {A B} (m : outcome A) (f : A → outcome B) (b rest : bool)
    (a0 : A) :
  m = (if b then Return a0 else Panic) →
  agree (f a0) rest → agree (m ≫= f) (b && rest).
Proof. intros -> H. destruct b; [exact H | reflexivity]. Qed.

Lemma agree_if {B} (m : outcome B) (b : bool) (y : B) :
  m = (if b then Return y else Panic) → agree m b.
Proof. intros ->. destruct b; cbn; eauto. Qed.

Lemma agree_read_any {A B} (m : outcome A) (f : A → outcome B)
    (b rest : bool) (a0 : A) :
  m = (if b then Return a0 else Panic) →
  (∀ a, agree (f a) rest) → agree (m ≫= f) (b && rest).
Proof. intros Hm H. apply (agree_read m f b rest a0 Hm), H. Qed.

Lemma agree_bind {A B} (m : outcome A) (f : A → outcome B) (b rest : bool) :
  agree m b → (∀ y, agree (f y) rest) → agree (m ≫= f) (b && rest).
Proof.
  unfold agree at 1. destruct b; [intros [y ->] H; apply H | intros -> _].
  reflexivity.
Qed.

Lemma agree_true_r {B} (r : outcome B) (b : bool) :
  agree r (b && true) → agree r b.
Proof. rewrite andb_true_r. auto. Qed.

Lemma addNodeTelemetry_agree s nd :
  agree (addNodeTelemetry s nd) (telemetry_reads (graph.Node.Metadata s)).
Proof.
  unfold addNodeTelemetry, telemetry_reads. cbv zeta.
  eapply agree_read; [apply getRate_passes|].
  apply agree_bind.
  - destruct (gt0 (rate (graph.Node.Metadata s) "httpIn")); [|apply agree_ret].
    eapply agree_read; [apply getRate_passes|].
    eapply agree_read; [apply getRate_passes|].
    eapply agree_read; [apply getRate_passes|].
    apply agree_ret.
  - intros y.
    eapply agree_read; [apply getRate_passes|].
    eapply agree_read; [apply getRate_passes|].
    eapply agree_read; [apply getRate_passes|].
    apply agree_ret.
Qed.

Lemma buildNode_agree id n :
  agree (buildNode id n)
    (telemetry_reads (graph.Node.Metadata n)
     && flag_reads (graph.Node.Metadata n)).
Proof.
  unfold buildNode. cbv zeta.
  apply agree_bind; [apply addNodeTelemetry_agree|]. intros nd.
  unfold flag_reads. revert nd.
  do 10 (intros ?; cbv beta;
         eapply agree_read_any;
         [ first [ apply copy_bool_passes | apply copy_text_passes
                 | apply copy_services_passes ] |]).
  intros last. cbv beta. eapply agree_if. apply copy_text_passes.
Qed.

Lemma node_reads_in_order md :
  telemetry_reads md && flag_reads md = node_reads_ok md.
Proof.
  unfold telemetry_reads, flag_reads, node_reads_ok.
  rewrite conforms_passes. cbn [forallb node_always fst snd].
  destruct (gt0 (rate md "httpIn")); btauto.
Qed.

(** the record of a node is built exactly when every assertion made on
    the way passes; otherwise building it panics *)
Lemma buildNode_passes id n :
  agree (buildNode id n) (node_reads_ok (graph.Node.Metadata n)).
Proof. rewrite <- node_reads_in_order. apply buildNode_agree. Qed.

Lemma agreeM_ret {B} (y : B) h : agreeM (mret y) h true.
Proof. exists y. reflexivity. Qed.

Lemma agreeM_lift {B} (r : outcome B) h ok : agree r ok → agreeM (lift r) h ok.
Proof.
  unfold agree, agreeM. destruct ok; [intros [y ->]; exists y|intros ->];
    reflexivity.
Qed.

Lemma agreeM_bind {A B} (m : M A) (f : A → M B) h (b rest : bool) :
  agreeM m h b → (∀ y, agreeM (f y) h rest) → agreeM (m ≫= f) h (b && rest).
Proof.
  unfold agreeM at 1. destruct b.
  - intros [y Hy] H. specialize (H y). cbn [andb].
    unfold agreeM in *. rewrite run_bind, Hy. exact H.
  - intros Hm _. cbn [andb]. unfold agreeM. rewrite run_bind, Hm. reflexivity.
Qed.

Lemma agreeM_read {A B} (r : outcome A) (f : A → M B) h (b rest : bool)
    (a0 : A) :
  r = (if b then Return a0 else Panic) →
  agreeM (f a0) h rest → agreeM (lift r ≫= f) h (b && rest).
Proof.
  intros -> H. destruct b; cbn [andb]; [exact H|]. reflexivity.
Qed.

Lemma agreeM_read_any {A B} (r : outcome A) (f : A → M B) h (b rest : bool)
    (a0 : A) :
  r = (if b then Return a0 else Panic) →
  (∀ a, agreeM (f a) h rest) → agreeM (lift r ≫= f) h (b && rest).
Proof. intros Hr H. apply (agreeM_read r f h b rest a0 Hr), H. Qed.

Lemma agreeM_load {B} p (f : graph.Node.t → M B) h (rest : graph.Node.t → bool) :
  (∀ n, h !! p = Some n → agreeM (f n) h (rest n)) →
  agreeM (load p ≫= f) h
    (match h !! p with Some n => rest n | None => false end).
Proof.
  intros H. unfold agreeM. rewrite run_bind, run_load.
  destruct (h !! p) as [n|]; [apply (H n eq_refl) | reflexivity].
Qed.

Lemma addEdgeTelemetry_agree ed e o h :
  agreeM (addEdgeTelemetry ed e o) h (edge_telemetry_reads h e).
Proof.
  unfold addEdgeTelemetry, edge_telemetry_reads. cbv zeta.
  eapply agreeM_read; [apply getRate_passes|].
  apply agreeM_bind.
  - destruct (gt0 (rate (graph.Edge.Metadata e) "http")).
    + eapply agreeM_read; [apply getRate_passes|].
      eapply agreeM_read; [apply getRate_passes|].
      eapply agreeM_read; [apply getRate_passes|].
      eapply agreeM_read_any; [apply copy_number_passes|]. intros ed'.
      apply (agreeM_load _ _ _
               (fun src => passes (graph.Node.Metadata src) "httpOut" TFloat64
                           && true)).
      intros src _.
      eapply agreeM_read; [apply getRate_passes|]. apply agreeM_ret.
    + apply (agreeM_load _ _ _
               (fun src => passes (graph.Node.Metadata src) "isUnused" TBool)).
      intros src _. apply agreeM_lift. eapply agree_if. apply copy_bool_passes.
  - intros ed'.
    eapply agreeM_read_any; [apply copy_bool_passes|]. intros ed''.
    eapply agreeM_read; [apply getRate_passes|]. apply agreeM_ret.
Qed.

Lemma buildEdge_agree n e o h : agreeM (buildEdge n e o) h (edge_reads h e).
Proof.
  unfold buildEdge, edge_reads. cbv zeta.
  apply (agreeM_load _ _ _
           (fun _ => passes (graph.Edge.Metadata e) "protocol" TStringOrNil
                     && edge_telemetry_reads h e)).
  intros dest _.
  eapply agreeM_read; [apply protocol_passes|].
  apply addEdgeTelemetry_agree.
Qed.

Lemma edge_reads_in_order h e : edge_reads h e = edge_reads_ok h e.
Proof.
  unfold edge_reads, edge_telemetry_reads, edge_reads_ok. cbv zeta.
  rewrite conforms_passes. cbn [forallb edge_always fst snd].
  destruct (h !! graph.Edge.Dest e) as [dest|];
    [rewrite bool_decide_eq_true_2 by eauto
    |rewrite bool_decide_eq_false_2 by (intros [? ?]; discriminate);
     reflexivity].
  destruct (h !! graph.Edge.Source e) as [src|];
    destruct (gt0 (rate (graph.Edge.Metadata e) "http")); btauto.
Qed.

(** the record of an edge is built exactly when every read made on the
    way succeeds; otherwise building it panics *)
Lemma buildEdge_passes n e o h :
  agreeM (buildEdge n e o) h (edge_reads_ok h e).
Proof. rewrite <- edge_reads_in_order. apply buildEdge_agree. Qed.

Lemma buildEdges_passes n o h es :
  ∀ edges, agreeM (buildEdges n es edges o) h (forallb (edge_reads_ok h) es).
Proof.
  induction es as [|e es IH]; intros edges; [apply agreeM_ret|].
  rewrite buildEdges_cons. cbn [forallb].
  apply agreeM_bind; [apply buildEdge_passes | intros ed; apply IH].
Qed.

(** ** The whole traffic map *)

Lemma buildConfig_loop_passes h o entries :
  ∀ nodes edges,
    agreeM (buildConfig_loop entries nodes edges o) h
      (forallb (entry_reads_ok h) entries).
Proof.
  induction entries as [|[id p] rest IH]; intros nodes edges;
    [apply agreeM_ret|].
  rewrite buildConfig_loop_cons. cbn [forallb]. unfold entry_reads_ok at 1.
  cbn [snd].
  pose proof (agreeM_load p
    (fun n => lift (buildNode id n) ≫= (fun nd =>
       buildEdges n (graph.Node.Edges n) edges o ≫= (fun edges' =>
       buildConfig_loop rest (nodes ++ [nd])%list edges' o))) h
    (fun n => node_reads_ok (graph.Node.Metadata n)
              && (forallb (edge_reads_ok h) (graph.Node.Edges n)
                  && forallb (entry_reads_ok h) rest))) as Hl.
  cbv beta in Hl.
  assert (Hb : match h !! p with
               | Some n => node_reads_ok (graph.Node.Metadata n)
                           && (forallb (edge_reads_ok h) (graph.Node.Edges n)
                               && forallb (entry_reads_ok h) rest)
               | None => false
               end
               = match h !! p with
                 | Some n => node_reads_ok (graph.Node.Metadata n)
                             && forallb (edge_reads_ok h) (graph.Node.Edges n)
                 | None => false
                 end && forallb (entry_reads_ok h) rest).
  { destruct (h !! p); [apply andb_assoc | reflexivity]. }
  rewrite <- Hb. apply Hl. intros n _.
  apply agreeM_bind; [apply agreeM_lift, buildNode_passes | intros nd].
  apply agreeM_bind; [apply buildEdges_passes | intros edges'].
  apply IH.
Qed.

Lemma forallb_perm {A} (f : A → bool) (l1 l2 : list A) :
  l1 ≡ₚ l2 → forallb f l1 = forallb f l2.
Proof.
  intros Hp. apply eq_true_iff_eq. rewrite !forallb_forall.
  split; intros H x Hx; apply H; apply list_elem_of_In;
    apply list_elem_of_In in Hx; [rewrite Hp | rewrite <- Hp]; exact Hx.
Qed.

Lemma NewConfig_passes srt it trafficMap o h :
  agreeM (NewConfig srt it trafficMap o) h (reads_ok h trafficMap).
Proof.
  unfold agreeM, reads_ok. rewrite NewConfig_run. unfold buildConfig.
  pose proof (buildConfig_loop_passes h o (range it trafficMap) [] []) as Hp.
  rewrite (forallb_perm _ _ _ (range_perm it trafficMap)) in Hp.
  unfold agreeM in Hp.
  destruct (forallb (entry_reads_ok h) (map_to_list trafficMap)).
  - destruct Hp as [[nodes edges] ->]. eauto.
  - rewrite Hp. reflexivity.
Qed.



(** C2 fails on [clash]: the records of namespace [a], app [b_c] and of
    namespace [a_b], app [c] are each the only one of their namespace and
    app, yet [groupByApp] puts both under the key [box_a_b_c], a compound
    node is appended and both get it as parent. *)
Lemma compound_node_for_single_members :
  fmt.Sprintf_box "a" "b_c" = "box_a_b_c"
  ∧ fmt.Sprintf_box "a_b" "c" = "box_a_b_c"
  ∧ ∃ cfg,
    run (NewConfig insertion_sort range_forward clash
           (sample_options options.GroupByApp graph.GraphTypeApp))
      clash_heap = (Return cfg, clash_heap)
    ∧ map membership (Elements.Nodes (Config.Elements cfg)) =
        [ (nodeHash "box_a_b_c", "a", "b_c", "app", "");
          (nodeHash "wl_a_b_c-v1-2", "a", "b_c", "", nodeHash "box_a_b_c");
          (nodeHash "wl_a_b_c-v1", "a_b", "c", "", nodeHash "box_a_b_c") ]
    ∧ length (of_app "a" "b_c" (Elements.Nodes (Config.Elements cfg))) = 1%nat
    ∧ length (of_app "a_b" "c" (Elements.Nodes (Config.Elements cfg))) = 1%nat.
Proof.
  split; [reflexivity|]. split; [reflexivity|].
  eexists. split; [vm_compute; reflexivity|].
  split; [vm_compute; reflexivity|]. split; vm_compute; reflexivity.
Qed.
